(** * Query translation and pagination engine (utils/queryParser.js)

    A shallow embedding of the dynamic query-building layer of the backend:
    [QueryParser] (filter translation, sorting, field selection, pagination),
    [SearchBuilder], [QueryConfig], [UniversalQueryBuilder] and
    [UniversalPipelineBuilder] (aggregation pipelines), the services that
    call them, and the parts of the JavaScript runtime they call
    ([parseInt], [JSON.stringify], [String.prototype.replace] with the
    operator regular expression, [JSON.parse], [Date]).

    Modelling conventions
    - JavaScript numbers are [number]: NaN, the two infinities, or an exact
      rational kept in lowest terms.  The conversion of a numeral to a number
      ([to_double]) rounds as the engine does.  The arithmetic (+, -, *, /)
      is exact: it agrees with IEEE doubles as long as the integers involved
      and their results stay within the safe integers (magnitude below
      2^53); the sign of zero is not tracked.
    - Strings are [string]s of bytes, the UTF-8 encoding of the text.  The
      word characters of [\b] are the ASCII ones, as in the source's regular
      expression; white space is the StrWhiteSpaceChar class of the
      language; [toLowerCase] changes the ASCII letters.
    - Objects are association lists in enumeration order with pairwise
      distinct keys; [obj_set] updates in place or appends, as property
      assignment does for names that are no array indices.  The engine lists
      array indices first, in ascending order: a mapping handed in is taken
      to be listed that way, and the sort object, which the source fills
      name by name, is filled with [obj_assign], which keeps that order.
    - A property that is absent ([undefined]) is [None]; a call that throws
      returns [None].
    - A query mapping ([raw]) holds strings, booleans, integers, arrays and
      nested mappings, and no [null]: that is what the HTTP layer and the
      services of the repository pass in.
    - The storage collaborator (a Mongoose model) is a record of functions,
      and the identifier check of the storage library is a parameter of the
      filter translation. *)

From Stdlib Require Import ZArith QArith Qround Qreduction Qcanon.
From Stdlib Require Import List String Ascii Bool Lia DecimalString.
From Stdlib Require Import NArith DecimalPos DecimalN DecimalZ.
Import ListNotations.

Set Warnings "-register-all".

Local Open Scope string_scope.
Local Open Scope list_scope.
Local Open Scope Z_scope.

(** ** Numbers *)

Inductive number : Type :=
| NaN
| Infinity (negative : bool)
| Fin (q : Q).

(** An integer-valued number. *)
Definition int (z : Z) : number := Fin (inject_Z z).

(** A finite result, kept in lowest terms. *)
Definition fin (q : Q) : number := Fin (Qred q).

Definition q_is_zero (q : Q) : bool := Qnum q =? 0.
Definition q_is_neg (q : Q) : bool := Qnum q <? 0.
Definition q_lt (x y : Q) : bool := Qnum x * QDen y <? Qnum y * QDen x.

(** ToBoolean on numbers: [0] and [NaN] are falsy. *)
Definition truthy (n : number) : bool :=
  match n with
  | NaN => false
  | Infinity _ => true
  | Fin q => negb (q_is_zero q)
  end.

(** [a || b] on numbers. *)
Definition num_or (a b : number) : number := if truthy a then a else b.

Definition num_neg (a : number) : number :=
  match a with
  | NaN => NaN
  | Infinity s => Infinity (negb s)
  | Fin q => fin (Qopp q)
  end.

Definition num_add (a b : number) : number :=
  match a, b with
  | NaN, _ | _, NaN => NaN
  | Infinity s, Infinity t => if Bool.eqb s t then Infinity s else NaN
  | Infinity s, Fin _ | Fin _, Infinity s => Infinity s
  | Fin x, Fin y => fin (Qplus x y)
  end.

Definition num_sub (a b : number) : number := num_add a (num_neg b).

Definition num_mul (a b : number) : number :=
  match a, b with
  | NaN, _ | _, NaN => NaN
  | Infinity s, Infinity t => Infinity (xorb s t)
  | Infinity s, Fin q | Fin q, Infinity s =>
      if q_is_zero q then NaN else Infinity (xorb s (q_is_neg q))
  | Fin x, Fin y => fin (Qmult x y)
  end.

Definition num_div (a b : number) : number :=
  match a, b with
  | NaN, _ | _, NaN => NaN
  | Infinity _, Infinity _ => NaN
  | Infinity s, Fin q => Infinity (xorb s (q_is_neg q))
  | Fin _, Infinity _ => int 0
  | Fin x, Fin y =>
      if q_is_zero y
      then (if q_is_zero x then NaN else Infinity (q_is_neg x))
      else fin (Qdiv x y)
  end.

(** [a < b]; every comparison with [NaN] is false. *)
Definition num_lt (a b : number) : bool :=
  match a, b with
  | NaN, _ | _, NaN => false
  | Infinity true, Infinity true => false
  | Infinity true, _ => true
  | _, Infinity true => false
  | Infinity false, _ => false
  | _, Infinity false => true
  | Fin x, Fin y => q_lt x y
  end.

(** [a > b] is [b < a]. *)
Definition num_gt (a b : number) : bool := num_lt b a.

Definition Math_ceil (a : number) : number :=
  match a with
  | Fin q => int (Qceiling q)
  | _ => a
  end.

Definition Math_min (a b : number) : number :=
  match a, b with
  | NaN, _ | _, NaN => NaN
  | _, _ => if num_lt b a then b else a
  end.

(** The number value of a mathematical integer: the integer itself up to
    2^53, beyond that the nearest double (ties to the even significand),
    and an infinity from 2^1024 - 2^970 on. *)
Definition to_double (z : Z) : number :=
  let a := Z.abs z in
  if a <? 2 ^ 53 then int z
  else
    let e := Z.log2 a - 52 in
    let m := a / 2 ^ e in
    let r := a mod 2 ^ e in
    let half := 2 ^ (e - 1) in
    let m' := if ((half <? r) || ((r =? half) && Z.odd m))%bool then m + 1 else m in
    if 2 ^ 1024 <=? m' * 2 ^ e then Infinity (z <? 0)
    else int (Z.sgn z * (m' * 2 ^ e)).

(** ToNumber of a possibly absent numeric property: [undefined] is [NaN]. *)
Definition to_number (o : option number) : number :=
  match o with
  | Some n => n
  | None => NaN
  end.

(** ** Strings *)

Definition ascii_in_range (lo hi : nat) (c : ascii) : bool :=
  (Nat.leb lo (nat_of_ascii c) && Nat.leb (nat_of_ascii c) hi)%bool.

Definition is_digit (c : ascii) : bool := ascii_in_range 48 57 c.
Definition is_upper (c : ascii) : bool := ascii_in_range 65 90 c.
Definition is_lower (c : ascii) : bool := ascii_in_range 97 122 c.

(** The class [\w] of the regular expressions: [A-Za-z0-9_]. *)
Definition is_word_char (c : ascii) : bool :=
  (is_digit c || is_upper c || is_lower c || Ascii.eqb c "_")%bool.

(** StrWhiteSpaceChar, the characters of one byte: TAB, LF, VT, FF, CR, SP. *)
Definition is_white_space (c : ascii) : bool :=
  (ascii_in_range 9 13 c || Ascii.eqb c " ")%bool.

(** StrWhiteSpaceChar, the character of two bytes: U+00A0. *)
Definition is_white_space2 (c1 c2 : ascii) : bool :=
  (Nat.eqb (nat_of_ascii c1) 194 && Nat.eqb (nat_of_ascii c2) 160)%bool.

(** StrWhiteSpaceChar, the characters of three bytes: U+1680, U+2000 to
    U+200A, U+2028, U+2029, U+202F, U+205F, U+3000 and U+FEFF. *)
Definition is_white_space3 (c1 c2 c3 : ascii) : bool :=
  let b1 := nat_of_ascii c1 in
  let b2 := nat_of_ascii c2 in
  let b3 := nat_of_ascii c3 in
  ((Nat.eqb b1 225 && Nat.eqb b2 154 && Nat.eqb b3 128)
   || (Nat.eqb b1 226 && Nat.eqb b2 128
       && (ascii_in_range 128 138 c3 || Nat.eqb b3 168 || Nat.eqb b3 169
           || Nat.eqb b3 175))
   || (Nat.eqb b1 226 && Nat.eqb b2 129 && Nat.eqb b3 159)
   || (Nat.eqb b1 227 && Nat.eqb b2 128 && Nat.eqb b3 128)
   || (Nat.eqb b1 239 && Nat.eqb b2 187 && Nat.eqb b3 191))%bool.

Definition lower_char (c : ascii) : ascii :=
  if is_upper c then ascii_of_nat (nat_of_ascii c + 32) else c.

Fixpoint toLowerCase (s : string) : string :=
  match s with
  | EmptyString => EmptyString
  | String c r => String (lower_char c) (toLowerCase r)
  end.

(** [s.startsWith(p)], returning the rest of [s] after [p]. *)
Fixpoint strip_prefix (p s : string) : option string :=
  match p, s with
  | EmptyString, _ => Some s
  | String a p', String b s' => if Ascii.eqb a b then strip_prefix p' s' else None
  | String _ _, EmptyString => None
  end.

Definition starts_with (p s : string) : bool :=
  match strip_prefix p s with Some _ => true | None => false end.

(** [s.includes(p)]. *)
Fixpoint includes (p s : string) : bool :=
  (starts_with p s ||
   match s with
   | EmptyString => false
   | String _ r => includes p r
   end)%bool.

(** [s.split(c)] for a one-character separator: never empty. *)
Fixpoint split (sep : ascii) (s : string) : list string :=
  match s with
  | EmptyString => [EmptyString]
  | String c r =>
      if Ascii.eqb c sep then EmptyString :: split sep r
      else match split sep r with
           | [] => [String c EmptyString]
           | h :: t => String c h :: t
           end
  end.

(** [l.join(sep)]. *)
Fixpoint join (sep : string) (l : list string) : string :=
  match l with
  | [] => EmptyString
  | [x] => x
  | x :: r => String.append x (String.append sep (join sep r))
  end.

(** ** Objects as association lists *)

Section Objects.
Context {A : Type}.

Definition obj : Type := list (string * A).

(** [o[k]] *)
Fixpoint obj_get (k : string) (o : obj) : option A :=
  match o with
  | [] => None
  | (k', v) :: r => if String.eqb k k' then Some v else obj_get k r
  end.

(** [o[k] = v] *)
Fixpoint obj_set (k : string) (v : A) (o : obj) : obj :=
  match o with
  | [] => [(k, v)]
  | (k', v') :: r =>
      if String.eqb k k' then (k', v) :: r else (k', v') :: obj_set k v r
  end.

(** [delete o[k]] *)
Fixpoint obj_delete (k : string) (o : obj) : obj :=
  match o with
  | [] => []
  | (k', v') :: r =>
      if String.eqb k k' then obj_delete k r else (k', v') :: obj_delete k r
  end.

(** [Object.keys(o)] *)
Definition obj_keys (o : obj) : list string := map fst o.

End Objects.

Arguments obj A : clear implicits.

(** ** Values *)

(** What a caller hands to the parser: the query mapping of the HTTP layer
    (strings, arrays and nested mappings), possibly extended by a service
    with booleans or integers.  [RNum z] is the number [z], an integer that
    a double holds and that prints as a decimal numeral (magnitude below
    10^21). *)
Inductive raw : Type :=
| RStr (s : string)
| RNum (z : Z)
| RBool (b : bool)
| RArr (l : list raw)
| RObj (o : list (string * raw)).

(** What a MongoDB filter, sort specification or stage payload holds.
    [VObjectId s] is [new Types.ObjectId(s)] and [VDate s] is [new Date(s)]. *)
Inductive value : Type :=
| VStr (s : string)
| VNum (n : number)
| VBool (b : bool)
| VArr (l : list value)
| VObj (o : list (string * value))
| VObjectId (s : string)
| VDate (s : string).

Fixpoint value_of_raw (r : raw) : value :=
  match r with
  | RStr s => VStr s
  | RNum z => VNum (int z)
  | RBool b => VBool b
  | RArr l => VArr (map value_of_raw l)
  | RObj o => VObj (map (fun kv => (fst kv, value_of_raw (snd kv))) o)
  end.

Definition string_is_empty (s : string) : bool :=
  match s with EmptyString => true | _ => false end.

(** ToBoolean *)
Definition raw_truthy (r : raw) : bool :=
  match r with
  | RStr s => negb (string_is_empty s)
  | RNum z => negb (z =? 0)
  | RBool b => b
  | RArr _ | RObj _ => true
  end.

Definition value_truthy (v : value) : bool :=
  match v with
  | VStr s => negb (string_is_empty s)
  | VNum n => truthy n
  | VBool b => b
  | VArr _ | VObj _ | VObjectId _ | VDate _ => true
  end.

(** The decimal numeral of an integer, which is what ToString prints for
    the integers below 10^21. *)
Definition Z_to_string (z : Z) : string :=
  NilZero.string_of_int (Z.to_int z).

(** ToString, as applied by [parseInt] to its argument. *)
Fixpoint ToString (r : raw) : string :=
  match r with
  | RStr s => s
  | RNum z => Z_to_string z
  | RBool true => "true"
  | RBool false => "false"
  | RArr l => join "," (map ToString l)
  | RObj _ => "[object Object]"
  end.

Definition ToString_opt (o : option raw) : string :=
  match o with Some r => ToString r | None => "undefined" end.

(** ** parseInt *)

(** The text without its leading white space. *)
Fixpoint trim_start (s : string) : string :=
  match s with
  | String c1 r1 =>
      if is_white_space c1 then trim_start r1
      else
        match r1 with
        | String c2 r2 =>
            if is_white_space2 c1 c2 then trim_start r2
            else
              match r2 with
              | String c3 r3 =>
                  if is_white_space3 c1 c2 c3 then trim_start r3 else s
              | EmptyString => s
              end
        | EmptyString => s
        end
  | EmptyString => s
  end.

Definition digit_value (radix : Z) (c : ascii) : option Z :=
  let n := Z.of_nat (nat_of_ascii c) in
  let d := if is_digit c then Some (n - 48)
           else if is_lower c then Some (n - 87)
           else if is_upper c then Some (n - 55)
           else None in
  match d with
  | Some v => if v <? radix then Some v else None
  | None => None
  end.

(** The longest prefix of digits of the radix; [None] when it is empty. *)
Fixpoint parse_digits (radix : Z) (acc : option Z) (s : string) : option Z :=
  match s with
  | EmptyString => acc
  | String c r =>
      match digit_value radix c with
      | Some d =>
          parse_digits radix
            (Some (match acc with Some a => a * radix + d | None => d end)) r
      | None => acc
      end
  end.

(** [parseInt(s)] without a radix argument: leading white space, a sign, an
    optional [0x] prefix, then digits; [NaN] when no digit follows, else the
    number value of the integer the digits denote. *)
Definition parseInt (s : string) : number :=
  let s1 := trim_start s in
  let '(negative, s2) :=
    match s1 with
    | String "-" r => (true, r)
    | String "+" r => (false, r)
    | _ => (false, s1)
    end in
  let '(radix, s3) :=
    match s2 with
    | String "0" (String "x" r) | String "0" (String "X" r) => (16, r)
    | _ => (10, s2)
    end in
  match parse_digits radix None s3 with
  | None => NaN
  | Some n => to_double (if negative then - n else n)
  end.

(** ** The order of the properties *)

(** An array index: the canonical numeral of an integer from 0 to 2^32 - 2. *)
Definition array_index (k : string) : option Z :=
  match k with
  | EmptyString => None
  | String c r =>
      if (forallb is_digit (list_ascii_of_string k)
          && (negb (Ascii.eqb c "0") || string_is_empty r))%bool
      then match parse_digits 10 None k with
           | Some n => if n <=? 4294967294 then Some n else None
           | None => None
           end
      else None
  end.

(** A new property named by the array index [n] goes before the first
    property that is no array index or a greater one. *)
Fixpoint insert_index {A : Type} (k : string) (n : Z) (v : A) (o : obj A) : obj A :=
  match o with
  | [] => [(k, v)]
  | (k', v') :: r =>
      if String.eqb k k' then (k', v) :: r
      else
        match array_index k' with
        | Some n' =>
            if n <? n' then (k, v) :: (k', v') :: r
            else (k', v') :: insert_index k n v r
        | None => (k, v) :: (k', v') :: r
        end
  end.

(** [o[k] = v] on an object whose properties are enumerated afterwards: an
    existing property keeps its place, a new array index is put in
    ascending order before the other properties, another new name goes
    last. *)
Definition obj_assign {A : Type} (k : string) (v : A) (o : obj A) : obj A :=
  match array_index k with
  | Some n => insert_index k n v o
  | None => obj_set k v o
  end.

(** ** JSON.stringify *)

(** The double quote, written by its code. *)
Definition dquote : ascii := ascii_of_nat 34.

Definition hex_char (n : nat) : ascii :=
  if Nat.ltb n 10 then ascii_of_nat (48 + n) else ascii_of_nat (87 + n).

(** QuoteJSONString on one character. *)
Definition json_escape (c : ascii) : string :=
  let n := nat_of_ascii c in
  if Ascii.eqb c dquote then String "\" (String dquote "")
  else if Ascii.eqb c "\" then "\\"
  else if Nat.eqb n 8 then "\b"
  else if Nat.eqb n 9 then "\t"
  else if Nat.eqb n 10 then "\n"
  else if Nat.eqb n 12 then "\f"
  else if Nat.eqb n 13 then "\r"
  else if Nat.ltb n 32
       then String.append "\u00"
              (String (hex_char (Nat.div n 16)) (String (hex_char (Nat.modulo n 16)) ""))
  else String c "".

Fixpoint json_escape_string (s : string) : string :=
  match s with
  | EmptyString => EmptyString
  | String c r => String.append (json_escape c) (json_escape_string r)
  end.

Definition JSON_quote (s : string) : string :=
  String dquote (String.append (json_escape_string s) (String dquote "")).

Fixpoint JSON_stringify (r : raw) : string :=
  match r with
  | RStr s => JSON_quote s
  | RNum z => Z_to_string z
  | RBool true => "true"
  | RBool false => "false"
  | RArr l =>
      String.append "[" (String.append (join "," (map JSON_stringify l)) "]")
  | RObj o =>
      String.append "{"
        (String.append
           (join ","
              (map (fun kv =>
                      String.append (JSON_quote (fst kv))
                        (String.append ":" (JSON_stringify (snd kv)))) o))
           "}")
  end.

(** ** The operator regular expression *)

(** The alternatives of [/\b(gte|gt|lte|lt|in|nin|ne|regex)\b/g], in order. *)
Definition operator_tokens : list string :=
  ["gte"; "gt"; "lte"; "lt"; "in"; "nin"; "ne"; "regex"].

Definition opt_is_word (c : option ascii) : bool :=
  match c with Some x => is_word_char x | None => false end.

(** [\b] between two neighbouring characters ([None] at either end). *)
Definition word_boundary (before after : option ascii) : bool :=
  xorb (opt_is_word before) (opt_is_word after).

Definition head_char (s : string) : option ascii :=
  match s with String c _ => Some c | EmptyString => None end.

Fixpoint last_char (d : option ascii) (s : string) : option ascii :=
  match s with
  | EmptyString => d
  | String c r => last_char (Some c) r
  end.

(** The first alternative that matches at the start of [s] and is followed
    by a word boundary, with the text after it. *)
Fixpoint match_token (tokens : list string) (s : string) : option (string * string) :=
  match tokens with
  | [] => None
  | tok :: more =>
      match strip_prefix tok s with
      | Some rest =>
          if word_boundary (last_char None tok) (head_char rest)
          then Some (tok, rest)
          else match_token more s
      | None => match_token more s
      end
  end.

(** The global replacement, scanning left to right; [prev] is the character
    before the current position.  A match is replaced by [$] and itself and
    the scan resumes after it. *)
Fixpoint replace_from (fuel : nat) (prev : option ascii) (s : string) : string :=
  match fuel with
  | O => s
  | S fuel' =>
      match s with
      | EmptyString => EmptyString
      | String c r =>
          match (if word_boundary prev (Some c)
                 then match_token operator_tokens s else None) with
          | Some (tok, rest) =>
              String "$"
                (String.append tok (replace_from fuel' (last_char prev tok) rest))
          | None => String c (replace_from fuel' (Some c) r)
          end
      end
  end.

(** [s.replace(/\b(gte|gt|lte|lt|in|nin|ne|regex)\b/g, match => `$${match}`)] *)
Definition replace_operators (s : string) : string :=
  replace_from (String.length s) None s.

(** ** JSON.parse *)

(** The white space of the JSON grammar: SP, TAB, LF, CR. *)
Definition is_json_ws (c : ascii) : bool :=
  let n := nat_of_ascii c in
  (Nat.eqb n 32 || Nat.eqb n 9 || Nat.eqb n 10 || Nat.eqb n 13)%bool.

Fixpoint skip_ws (s : string) : string :=
  match s with
  | String c r => if is_json_ws c then skip_ws r else s
  | EmptyString => s
  end.

Definition prepend (c : ascii) (x : option (string * string)) : option (string * string) :=
  match x with
  | Some (str, rest) => Some (String c str, rest)
  | None => None
  end.

Definition prepend_string (p : string) (x : option (string * string))
  : option (string * string) :=
  match x with
  | Some (str, rest) => Some (String.append p str, rest)
  | None => None
  end.

(** The character of a one-letter escape. *)
Definition unescape (e : ascii) : option ascii :=
  if Ascii.eqb e dquote then Some dquote
  else if Ascii.eqb e "\" then Some "\"%char
  else if Ascii.eqb e "/" then Some "/"%char
  else if Ascii.eqb e "b" then Some (ascii_of_nat 8)
  else if Ascii.eqb e "f" then Some (ascii_of_nat 12)
  else if Ascii.eqb e "n" then Some (ascii_of_nat 10)
  else if Ascii.eqb e "r" then Some (ascii_of_nat 13)
  else if Ascii.eqb e "t" then Some (ascii_of_nat 9)
  else None.

(** The bytes of a code unit given by four hexadecimal digits. *)
Definition code_unit (h1 h2 h3 h4 : ascii) : option string :=
  match digit_value 16 h1, digit_value 16 h2, digit_value 16 h3, digit_value 16 h4 with
  | Some a, Some b, Some c, Some d =>
      let n := ((a * 16 + b) * 16 + c) * 16 + d in
      let byte z := ascii_of_nat (Z.to_nat z) in
      Some (if n <? 128 then String (byte n) ""
            else if n <? 2048
                 then String (byte (192 + n / 64)) (String (byte (128 + n mod 64)) "")
                 else String (byte (224 + n / 4096))
                        (String (byte (128 + (n / 64) mod 64))
                           (String (byte (128 + n mod 64)) "")))
  | _, _, _, _ => None
  end.

(** A string literal after its opening quote: the text and what follows the
    closing quote.  Unknown escapes and raw control characters are errors. *)
Fixpoint parse_string (s : string) : option (string * string) :=
  match s with
  | EmptyString => None
  | String c r =>
      if Ascii.eqb c dquote then Some (EmptyString, r)
      else if Ascii.eqb c "\" then
        match r with
        | String e r' =>
            match unescape e with
            | Some ch => prepend ch (parse_string r')
            | None =>
                if Ascii.eqb e "u" then
                  match r' with
                  | String h1 (String h2 (String h3 (String h4 r''))) =>
                      match code_unit h1 h2 h3 h4 with
                      | Some bytes => prepend_string bytes (parse_string r'')
                      | None => None
                      end
                  | _ => None
                  end
                else None
            end
        | EmptyString => None
        end
      else if Nat.ltb (nat_of_ascii c) 32 then None
      else prepend c (parse_string r)
  end.

(** The digits at the start of a text, as a number, and the rest. *)
Fixpoint take_digits (acc : Z) (s : string) : Z * string :=
  match s with
  | String c r =>
      if is_digit c
      then take_digits (acc * 10 + (Z.of_nat (nat_of_ascii c) - 48)) r
      else (acc, s)
  | EmptyString => (acc, s)
  end.

(** An integer literal; literals with a fraction or an exponent do not occur
    in the serialisation of a [raw] value and are not read. *)
Definition parse_integer (s : string) : option (Z * string) :=
  let '(negative, s1) :=
    match s with String "-" r => (true, r) | _ => (false, s) end in
  match s1 with
  | String c r =>
      if is_digit c then
        let '(n, rest) := take_digits 0 s1 in
        let leading_zero :=
          (Ascii.eqb c "0" && match r with String d _ => is_digit d | _ => false end)%bool in
        let continues :=
          match rest with
          | String d _ => (Ascii.eqb d "." || Ascii.eqb d "e" || Ascii.eqb d "E")%bool
          | EmptyString => false
          end in
        if (leading_zero || continues)%bool then None
        else Some (if negative then - n else n, rest)
      else None
  | EmptyString => None
  end.

(** Recursive descent; every call consumes fuel. *)
Fixpoint parse_value (fuel : nat) (s : string) {struct fuel} : option (value * string) :=
  match fuel with
  | O => None
  | S fuel' =>
      match skip_ws s with
      | EmptyString => None
      | String c r =>
          if Ascii.eqb c "{" then
            match skip_ws r with
            | String c' r' =>
                if Ascii.eqb c' "}" then Some (VObj [], r')
                else parse_members fuel' [] (String c' r')
            | EmptyString => None
            end
          else if Ascii.eqb c "[" then
            match skip_ws r with
            | String c' r' =>
                if Ascii.eqb c' "]" then Some (VArr [], r')
                else parse_elements fuel' [] (String c' r')
            | EmptyString => None
            end
          else if Ascii.eqb c dquote then
            match parse_string r with
            | Some (str, rest) => Some (VStr str, rest)
            | None => None
            end
          else
            match strip_prefix "true" (String c r), strip_prefix "false" (String c r) with
            | Some rest, _ => Some (VBool true, rest)
            | None, Some rest => Some (VBool false, rest)
            | None, None =>
                match parse_integer (String c r) with
                | Some (n, rest) => Some (VNum (int n), rest)
                | None => None
                end
            end
      end
  end

with parse_elements (fuel : nat) (acc : list value) (s : string) {struct fuel}
  : option (value * string) :=
  match fuel with
  | O => None
  | S fuel' =>
      match parse_value fuel' s with
      | Some (v, rest) =>
          match skip_ws rest with
          | String c rest' =>
              if Ascii.eqb c "," then parse_elements fuel' (acc ++ [v]) rest'
              else if Ascii.eqb c "]" then Some (VArr (acc ++ [v]), rest')
              else None
          | EmptyString => None
          end
      | None => None
      end
  end

with parse_members (fuel : nat) (acc : obj value) (s : string) {struct fuel}
  : option (value * string) :=
  match fuel with
  | O => None
  | S fuel' =>
      match skip_ws s with
      | String c r =>
          if Ascii.eqb c dquote then
            match parse_string r with
            | Some (key, r1) =>
                match skip_ws r1 with
                | String c1 r2 =>
                    if Ascii.eqb c1 ":" then
                      match parse_value fuel' r2 with
                      | Some (v, r3) =>
                          match skip_ws r3 with
                          | String c3 r4 =>
                              if Ascii.eqb c3 ","
                              then parse_members fuel' (obj_set key v acc) r4
                              else if Ascii.eqb c3 "}"
                                   then Some (VObj (obj_set key v acc), r4)
                                   else None
                          | EmptyString => None
                          end
                      | None => None
                      end
                    else None
                | EmptyString => None
                end
            | None => None
            end
          else None
      | EmptyString => None
      end
  end.

(** [JSON.parse(text)]; [None] is a SyntaxError.  The literal [null] is not
    read: no query mapping serialises to it. *)
Definition JSON_parse (text : string) : option value :=
  match parse_value (S (String.length text)) text with
  | Some (v, rest) =>
      match skip_ws rest with
      | EmptyString => Some v
      | _ => None
      end
  | None => None
  end.

(** ** Dates *)

Definition two_digits (a b : ascii) : option Z :=
  if (is_digit a && is_digit b)%bool
  then Some ((Z.of_nat (nat_of_ascii a) - 48) * 10 + (Z.of_nat (nat_of_ascii b) - 48))
  else None.

Definition in_range (lo hi : Z) (x : option Z) : bool :=
  match x with
  | Some n => ((lo <=? n) && (n <=? hi))%bool
  | None => false
  end.

(** The time zone designator that may close a date-time: nothing, [Z], or
    [+HH:mm] / [-HH:mm]. *)
Definition is_zone (s : string) : bool :=
  match s with
  | EmptyString => true
  | String "Z" EmptyString => true
  | String sg (String h1 (String h2 (String ":" (String m1 (String m2 EmptyString))))) =>
      ((Ascii.eqb sg "+" || Ascii.eqb sg "-")
       && in_range 0 23 (two_digits h1 h2) && in_range 0 59 (two_digits m1 m2))%bool
  | _ => false
  end.

Definition all_digits3 (a b c : ascii) : bool :=
  (is_digit a && is_digit b && is_digit c)%bool.

(** [HH:mm], [HH:mm:ss] or [HH:mm:ss.sss], then the zone; hour 24 only as
    24:00:00.000. *)
Definition is_time (s : string) : bool :=
  match s with
  | String h1 (String h2 (String ":" (String m1 (String m2 rest)))) =>
      let hh := two_digits h1 h2 in
      let mm := two_digits m1 m2 in
      let midnight24 := in_range 24 24 hh in
      ((in_range 0 23 hh && in_range 0 59 mm) || (midnight24 && in_range 0 0 mm))%bool
      &&
      match rest with
      | String ":" (String s1 (String s2 rest')) =>
          let ss := two_digits s1 s2 in
          (if midnight24 then in_range 0 0 ss else in_range 0 59 ss)
          &&
          match rest' with
          | String "." (String f1 (String f2 (String f3 rest''))) =>
              (all_digits3 f1 f2 f3
               && (negb midnight24
                   || (Ascii.eqb f1 "0" && Ascii.eqb f2 "0" && Ascii.eqb f3 "0"))
               && is_zone rest'')%bool
          | _ => is_zone rest'
          end
      | _ => is_zone rest
      end
  | _ => false
  end%bool.

(** The Date Time String Format of ECMA-262: [YYYY], [YYYY-MM] or
    [YYYY-MM-DD], alone or followed by [T] and a time.  Every engine accepts
    these strings.  What else the Date constructor accepts is left to the
    engine (Node also takes ['10'] or ['May 5, 2020']) and counts as invalid
    here: the test is a lower bound of the engine's.  The statements below
    use it on strings of this format, which every engine accepts, and on
    strings without a digit, which none accepts; otherwise they leave the
    outcome of the test open. *)
Definition is_date_time_string (s : string) : bool :=
  match s with
  | String y1 (String y2 (String y3 (String y4 rest))) =>
      (is_digit y1 && is_digit y2 && is_digit y3 && is_digit y4)
      &&
      let time_or_end (t : string) :=
        match t with
        | EmptyString => true
        | String "T" t' => is_time t'
        | _ => false
        end in
      match rest with
      | String "-" (String m1 (String m2 rest')) =>
          in_range 1 12 (two_digits m1 m2)
          &&
          match rest' with
          | String "-" (String d1 (String d2 rest'')) =>
              in_range 1 31 (two_digits d1 d2) && time_or_end rest''
          | _ => time_or_end rest'
          end
      | _ => time_or_end rest
      end
  | _ => false
  end%bool.

(** ** Identifiers *)

Definition is_hex_digit (c : ascii) : bool :=
  match digit_value 16 c with Some _ => true | None => false end.

Fixpoint all_chars (f : ascii -> bool) (s : string) : bool :=
  match s with
  | EmptyString => true
  | String c r => (f c && all_chars f r)%bool
  end.

(** The identifier format of [commonSchemas.objectId] in
    middlewares/validation.js, [/^[0-9a-fA-F]{24}$/]: the strings that every
    release of the storage library takes for identifiers. *)
Definition is_objectId_format (s : string) : bool :=
  (Nat.eqb (String.length s) 24 && all_chars is_hex_digit s)%bool.

(** ** The storage collaborator and the pagination result *)

Inductive sort_options : Type :=
| SortObj (o : obj number)
| SortStr (s : string).

Record PaginationOptions : Type := {
  po_page : option number;
  po_limit : option number;
  po_skip : option number
}.

(** [pagination: { page, limit, total, pages, hasNext, hasPrev }] *)
Record Pagination : Type := {
  page : option number;
  limit : option number;
  total : number;
  pages : number;
  hasNext : bool;
  hasPrev : bool
}.

(** The tagged stages of an aggregation pipeline: [{ $match: f }],
    [{ $lookup: c }], [{ $unwind: c }], [{ $addFields: f }],
    [{ $project: f }], [{ $sort: s }], [{ $skip: n }], [{ $limit: n }]. *)
Inductive stage : Type :=
| Match (filter : obj value)
| Lookup (config : value)
| Unwind (config : value)
| AddFields (fields : value)
| Project (fields : value)
| Sort (spec : value)
| Skip (n : number)
| Limit (n : number).

Section Collaborator.
Variables doc session : Type.

(** A Mongoose model, as far as the builders use it. *)
Record Model : Type := {
  (** [Model.find(filter).sort(s).select(f).skip(k).limit(n).exec()] *)
  find : obj value -> sort_options -> option string ->
         option number -> option number -> list doc;
  (** [Model.countDocuments(filter).session(s)] *)
  countDocuments : obj value -> option session -> Z;
  (** [Model.aggregate(pipeline).session(s).exec()] *)
  aggregate : list stage -> option session -> list doc
}.

(** [{ data, pagination }]; [pagination: null] is [None]. *)
Record Result : Type := {
  data : list doc;
  pagination : option Pagination
}.

End Collaborator.

Arguments find {doc session}.
Arguments countDocuments {doc session}.
Arguments aggregate {doc session}.
Arguments data {doc}.
Arguments pagination {doc}.
Arguments Build_Result {doc}.

(** ** QueryParser *)

Module QueryParser.

Record t : Type := {
  query : obj raw;
  excludeFields : list string;
  mongoQuery : obj value;
  sortOptions : sort_options;
  selectFields : string;
  paginationOptions : PaginationOptions
}.

(** The default of the constructor's second parameter. *)
Definition default_excludeFields : list string :=
  ["page"; "limit"; "sort"; "fields"].

(** [new QueryParser(query, excludeFields)]; [None] is an omitted argument. *)
Definition new (q : obj raw) (exclude : option (list string)) : t :=
  {| query := q;
     excludeFields :=
       match exclude with Some l => l | None => default_excludeFields end;
     mongoQuery := [];
     sortOptions := SortObj [];
     selectFields := "";
     paginationOptions :=
       {| po_page := None; po_limit := None; po_skip := None |} |}.

Definition createQueryParser (q : obj raw) (exclude : option (list string)) : t :=
  new q exclude.

Definition with_mongoQuery (m : obj value) (p : t) : t :=
  {| query := query p; excludeFields := excludeFields p; mongoQuery := m;
     sortOptions := sortOptions p; selectFields := selectFields p;
     paginationOptions := paginationOptions p |}.

Definition with_sortOptions (s : sort_options) (p : t) : t :=
  {| query := query p; excludeFields := excludeFields p;
     mongoQuery := mongoQuery p; sortOptions := s;
     selectFields := selectFields p;
     paginationOptions := paginationOptions p |}.

Definition with_selectFields (s : string) (p : t) : t :=
  {| query := query p; excludeFields := excludeFields p;
     mongoQuery := mongoQuery p; sortOptions := sortOptions p;
     selectFields := s; paginationOptions := paginationOptions p |}.

Definition with_paginationOptions (o : PaginationOptions) (p : t) : t :=
  {| query := query p; excludeFields := excludeFields p;
     mongoQuery := mongoQuery p; sortOptions := sortOptions p;
     selectFields := selectFields p; paginationOptions := o |}.

(** [isValidDate(dateString)]: [new Date(dateString)] is a Date and its
    time value is not [NaN]; see [is_date_time_string] for the strings on
    which this is settled. *)
Definition isValidDate (dateString : string) : bool :=
  is_date_time_string dateString.

(** The body of the inner loop of [handleDateRanges], on the operator
    mapping [val] (the source's [value]) of one field. *)
Definition date_operator (val : obj value) (operator : string) : obj value :=
  if existsb (String.eqb operator) ["$gte"; "$gt"; "$lte"; "$lt"] then
    match obj_get operator val with
    | Some (VStr dateValue) =>
        if isValidDate dateValue
        then obj_set operator (VDate dateValue) val
        else val
    | _ => val
    end
  else val.

(** The body of the outer loop of [handleDateRanges].  Only a plain object
    has keys that can be range operators. *)
Definition date_range_key (m : obj value) (key : string) : obj value :=
  match obj_get key m with
  | Some (VObj val) =>
      obj_set key (VObj (fold_left date_operator (obj_keys val) val)) m
  | _ => m
  end.

(** [handleDateRanges()] on [this.mongoQuery]. *)
Definition handleDateRanges (m : obj value) : obj value :=
  fold_left date_range_key (obj_keys m) m.

Section Filter.

(** [Types.ObjectId.isValid], the identifier check of the storage library. *)
Variable isValid : string -> bool.

(** The body of the loop of [handleSpecialQueries]: [val] (the source's
    [value]) is read once, the four rules then assign to
    [this.mongoQuery[key]] in turn. *)
Definition special_key (m : obj value) (key : string) : obj value :=
  match obj_get key m with
  | None => m
  | Some val =>
      let m1 :=
        match val with
        | VStr s =>
            if includes "," s
            then obj_set key (VObj [("$in", VArr (map VStr (split "," s)))]) m
            else m
        | _ => m
        end in
      let m2 :=
        match val with
        | VStr s =>
            if (includes "id" (toLowerCase key) && isValid s)%bool
            then obj_set key (VObjectId s) m1
            else m1
        | _ => m1
        end in
      let m3 :=
        match val with
        | VStr s =>
            if String.eqb (toLowerCase s) "true" then obj_set key (VBool true) m2
            else if String.eqb (toLowerCase s) "false" then obj_set key (VBool false) m2
            else m2
        | _ => m2
        end in
      match val with
      | VObj o =>
          match obj_get "$regex" o with
          | Some re =>
              if value_truthy re
              then obj_set key
                     (VObj [("$regex", re);
                            ("$options",
                             match obj_get "$options" o with
                             | Some opts => if value_truthy opts then opts else VStr "i"
                             | None => VStr "i"
                             end)]) m3
              else m3
          | None => m3
          end
      | _ => m3
      end
  end.

(** [handleSpecialQueries()] *)
Definition handleSpecialQueries (p : t) : t :=
  let m := fold_left special_key (obj_keys (mongoQuery p)) (mongoQuery p) in
  let m :=
    match obj_get "search" (query p) with
    | Some search =>
        if raw_truthy search
        then obj_set "$text" (VObj [("$search", value_of_raw search)]) m
        else m
    | None => m
    end in
  with_mongoQuery (handleDateRanges m) p.

(** The query with the excluded fields deleted. *)
Definition filteredQuery (p : t) : obj raw :=
  fold_left (fun q field => obj_delete field q) (excludeFields p) (query p).

(** The text handed to [JSON.parse]. *)
Definition queryStr (p : t) : string :=
  replace_operators (JSON_stringify (RObj (filteredQuery p))).

(** [filter()]; [None] when [JSON.parse] rejects the rewritten text.  The
    text of an object parses to an object or not at all. *)
Definition filter (p : t) : option t :=
  match JSON_parse (queryStr p) with
  | Some (VObj m) => Some (handleSpecialQueries (with_mongoQuery m p))
  | _ => None
  end.

End Filter.

(** One [field:direction] pair of the sort string.  A number assigned to
    [__proto__] is dropped by the setter of that name. *)
Definition sort_pair (sortObj : obj number) (pair : string) : obj number :=
  let parts := split ":" pair in
  let field := hd "" parts in
  let direction :=
    match tl parts with d :: _ => d | [] => "undefined" end in
  if String.eqb field "__proto__" then sortObj
  else obj_assign field (num_or (parseInt direction) (int 1)) sortObj.

(** [sort()]; [None] when [this.query.sort] is truthy but has no [split]. *)
Definition sort (p : t) : option t :=
  match obj_get "sort" (query p) with
  | Some (RStr s) =>
      if string_is_empty s
      then Some (with_sortOptions (SortObj [("createdAt", int (-1))]) p)
      else
        let sortBy := join " " (split "," s) in
        if includes ":" sortBy
        then Some (with_sortOptions
                     (SortObj (fold_left sort_pair (split " " sortBy) [])) p)
        else Some (with_sortOptions (SortStr sortBy) p)
  | Some r =>
      if raw_truthy r then None
      else Some (with_sortOptions (SortObj [("createdAt", int (-1))]) p)
  | None => Some (with_sortOptions (SortObj [("createdAt", int (-1))]) p)
  end.

(** [select()] *)
Definition select (p : t) : option t :=
  match obj_get "fields" (query p) with
  | Some (RStr s) =>
      if string_is_empty s then Some p
      else Some (with_selectFields (join " " (split "," s)) p)
  | Some r => if raw_truthy r then None else Some p
  | None => Some p
  end.

(** [paginate()] *)
Definition paginate (p : t) : t :=
  let page :=
    num_or (parseInt (ToString_opt (obj_get "page" (query p)))) (int 1) in
  let limit :=
    num_or (parseInt (ToString_opt (obj_get "limit" (query p)))) (int 10) in
  let skip := num_mul (num_sub page (int 1)) limit in
  with_paginationOptions
    {| po_page := Some page;
       po_limit := Some (Math_min limit (int 100));
       po_skip := Some skip |} p.

Section Execute.
Context {doc session : Type}.

(** [execute(Model)] *)
Definition execute (M : Model doc session) (p : t) : Result doc :=
  let filter := mongoQuery p in
  let options := paginationOptions p in
  let rows :=
    find M filter (sortOptions p)
      (if string_is_empty (selectFields p) then None else Some (selectFields p))
      (po_skip options) (po_limit options) in
  let total := int (countDocuments M filter None) in
  {| data := rows;
     pagination := Some
       {| page := po_page options;
          limit := po_limit options;
          total := total;
          pages := Math_ceil (num_div total (to_number (po_limit options)));
          hasNext :=
            num_lt (to_number (po_page options))
              (Math_ceil (num_div total (to_number (po_limit options))));
          hasPrev := num_gt (to_number (po_page options)) (int 1) |} |}.

End Execute.

End QueryParser.

(** [pipeline.find(p => p.$skip)?.$skip] and its siblings: the payload of the
    first stage on which the property is truthy. *)
Definition stage_skip (s : stage) : option number :=
  match s with Skip n => Some n | _ => None end.

Definition stage_limit (s : stage) : option number :=
  match s with Limit n => Some n | _ => None end.

Definition stage_match (s : stage) : option (obj value) :=
  match s with Match f => Some f | _ => None end.

Fixpoint find_truthy {A : Type} (prop : stage -> option A) (is_true : A -> bool)
  (pipeline : list stage) : option A :=
  match pipeline with
  | [] => None
  | s :: rest =>
      match prop s with
      | Some x => if is_true x then Some x else find_truthy prop is_true rest
      | None => find_truthy prop is_true rest
      end
  end.

(** [matchStage?.$match || {}], where [matchStage] is
    [pipeline.find(p => p.$match)]; a filter document is an object, hence
    truthy. *)
Definition count_filter (pipeline : list stage) : obj value :=
  match find_truthy stage_match (fun _ => true) pipeline with
  | Some f => f
  | None => []
  end.

(** ** UniversalQueryBuilder *)

Module UniversalQueryBuilder.
Section Builder.
Context {doc session : Type}.

Record t : Type := {
  model : Model doc session;
  pipeline : list stage;
  session_ : option session
}.

Definition new (M : Model doc session) : t :=
  {| model := M; pipeline := []; session_ := None |}.

Definition push (stages : list stage) (b : t) : t :=
  {| model := model b; pipeline := pipeline b ++ stages;
     session_ := session_ b |}.

Definition setSession (s : option session) (b : t) : t :=
  {| model := model b; pipeline := pipeline b; session_ := s |}.

(** [match(filters)]: the stages of [filters] are pushed one by one. *)
Definition match_ (filters : option (list stage)) (b : t) : t :=
  match filters with
  | Some (f :: r) => push (f :: r) b
  | _ => b
  end.

Definition lookup (config : value) (b : t) : t := push [Lookup config] b.

Definition unwind (config : value) (b : t) : t := push [Unwind config] b.

Definition addFields (fields : option (obj value)) (b : t) : t :=
  match fields with
  | Some (f :: r) => push [AddFields (VObj (f :: r))] b
  | _ => b
  end.

Definition project (fields : option (obj value)) (b : t) : t :=
  match fields with
  | Some (f :: r) => push [Project (VObj (f :: r))] b
  | _ => b
  end.

Definition sortBy (spec : option (obj value)) (b : t) : t :=
  match spec with
  | Some (f :: r) => push [Sort (VObj (f :: r))] b
  | _ => b
  end.

(** [paginate(page, limit)] *)
Definition paginate (page limit : number) (b : t) : t :=
  let skip := num_mul (num_sub page (int 1)) limit in
  push [Skip skip; Limit limit] b.

Definition addStage (s : stage) (b : t) : t := push [s] b.

Definition aggregate_ (b : t) : list doc :=
  aggregate (model b) (pipeline b) (session_ b).

Definition countDocuments_ (filter : obj value) (b : t) : Z :=
  countDocuments (model b) filter (session_ b).

(** [exec(paginate = true)] *)
Definition exec (paginate : bool) (b : t) : Result doc :=
  let rows := aggregate_ b in
  if paginate then
    let page :=
      num_or
        (num_add
           (num_div (to_number (find_truthy stage_skip truthy (pipeline b)))
                    (to_number (find_truthy stage_limit truthy (pipeline b))))
           (int 1))
        (int 1) in
    let limit :=
      num_or (to_number (find_truthy stage_limit truthy (pipeline b))) (int 20) in
    let total := int (countDocuments_ (count_filter (pipeline b)) b) in
    {| data := rows;
       pagination := Some
         {| page := Some page;
            limit := Some limit;
            total := total;
            pages := Math_ceil (num_div total limit);
            hasNext := num_lt (num_mul page limit) total;
            hasPrev := num_gt page (int 1) |} |}
  else {| data := rows; pagination := None |}.

End Builder.
End UniversalQueryBuilder.

(** ** UniversalPipelineBuilder *)

Module UniversalPipelineBuilder.

(** One element of the argument of [addLookups]. *)
Record lookup_spec : Type := {
  from : string;
  localField : string;
  foreignField : string;
  as_ : string;
  unwind : bool
}.

Definition lookup_stages (l : lookup_spec) : list stage :=
  Lookup (VObj [("from", VStr (from l)); ("localField", VStr (localField l));
                ("foreignField", VStr (foreignField l)); ("as", VStr (as_ l))])
  :: (if unwind l
      then [Unwind (VObj [("path", VStr (String "$" (as_ l)));
                          ("preserveNullAndEmptyArrays", VBool true)])]
      else []).

Section Builder.
Context {doc session : Type}.

Record t : Type := {
  model : Model doc session;
  pipeline : list stage;
  session_ : option session;
  page_ : number;
  limit_ : number;
  sort_ : value
}.

Definition new (M : Model doc session) : t :=
  {| model := M; pipeline := []; session_ := None;
     page_ := int 1; limit_ := int 20;
     sort_ := VObj [("createdAt", VNum (int (-1)))] |}.

Definition push (stages : list stage) (b : t) : t :=
  {| model := model b; pipeline := pipeline b ++ stages;
     session_ := session_ b; page_ := page_ b; limit_ := limit_ b;
     sort_ := sort_ b |}.


Definition setSession (s : option session) (b : t) : t :=
  {| model := model b; pipeline := pipeline b; session_ := s;
     page_ := page_ b; limit_ := limit_ b; sort_ := sort_ b |}.

(** [x || d] on a possibly absent raw value. *)
Definition raw_or (x : option raw) (d : raw) : raw :=
  match x with
  | Some r => if raw_truthy r then r else d
  | None => d
  end.

(** [setPagination({ page, limit })] *)
Definition setPagination (page limit : option raw) (b : t) : t :=
  {| model := model b; pipeline := pipeline b; session_ := session_ b;
     page_ := parseInt (ToString (raw_or page (RNum 1)));
     limit_ := Math_min (parseInt (ToString (raw_or limit (RNum 20)))) (int 100);
     sort_ := sort_ b |}.

Definition setSort (spec : option (obj value)) (b : t) : t :=
  match spec with
  | Some (f :: r) =>
      {| model := model b; pipeline := pipeline b; session_ := session_ b;
         page_ := page_ b; limit_ := limit_ b; sort_ := VObj (f :: r) |}
  | _ => b
  end.

Definition addLookups (lookups : list lookup_spec) (b : t) : t :=
  push (flat_map lookup_stages lookups) b.

Definition addFields (fields : option (obj value)) (b : t) : t :=
  match fields with
  | Some (f :: r) => push [AddFields (VObj (f :: r))] b
  | _ => b
  end.

Definition addProject (fields : option (obj value)) (b : t) : t :=
  match fields with
  | Some (f :: r) => push [Project (VObj (f :: r))] b
  | _ => b
  end.


(** The pipeline as [exec] completes it before running it. *)
Definition exec_pipeline (paginate : bool) (b : t) : list stage :=
  pipeline b ++ [Sort (sort_ b)] ++
  (if paginate
   then [Skip (num_mul (num_sub (page_ b) (int 1)) (limit_ b)); Limit (limit_ b)]
   else []).

(** What [exec] returns: [{ data, pagination }], or the rows alone. *)
Inductive exec_result : Type :=
| Paged (r : Result doc)
| Rows (rows : list doc).

(** [exec(paginate = true)] *)
Definition exec (paginate : bool) (b : t) : exec_result :=
  let pl := exec_pipeline paginate b in
  let rows := aggregate (model b) pl (session_ b) in
  let total := int (countDocuments (model b) (count_filter pl) (session_ b)) in
  if paginate then
    Paged
      {| data := rows;
         pagination := Some
           {| page := Some (page_ b);
              limit := Some (limit_ b);
              total := total;
              pages := Math_ceil (num_div total (limit_ b));
              hasNext := num_lt (num_mul (page_ b) (limit_ b)) total;
              hasPrev := num_gt (page_ b) (int 1) |} |}
  else Rows rows.

End Builder.
End UniversalPipelineBuilder.

(** ** Vocabulary of the statements *)

(** The requested page and limit as [paginate] reads them. *)
Definition requested (key : string) (q : obj raw) : number :=
  parseInt (ToString_opt (obj_get key q)).

(** No stage of the list is a match stage. *)
Definition no_match (l : list stage) : Prop :=
  forall s, In s l -> stage_match s = None.

(** The stages that follow the match in a pipeline: joins ([$lookup],
    [$unwind]), computed fields, projections and sorts. *)
Definition later_stage (s : stage) : Prop :=
  match s with
  | Lookup _ | Unwind _ | AddFields _ | Project _ | Sort _ => True
  | Match _ | Skip _ | Limit _ => False
  end.

(** The total of a result, when it carries pagination. *)
Definition exec_total {doc : Type} (r : Result doc) : option number :=
  match pagination r with
  | Some p => Some (total p)
  | None => None
  end.

Definition paged_total {doc : Type}
  (r : @UniversalPipelineBuilder.exec_result doc) : option number :=
  match r with
  | UniversalPipelineBuilder.Paged r' => exec_total r'
  | UniversalPipelineBuilder.Rows _ => None
  end.

(** [{ $in: s.split(',') }] *)
Definition in_clause (s : string) : value :=
  VObj [("$in", VArr (map VStr (split "," s)))].

Definition is_true_literal (s : string) : bool := String.eqb (toLowerCase s) "true".
Definition is_false_literal (s : string) : bool := String.eqb (toLowerCase s) "false".

(** The field name marks an identifier: its lower-case form contains [id]. *)
Definition id_named (key : string) : bool := includes "id" (toLowerCase key).

(** What one round of the loop of [handleSpecialQueries] leaves under a key
    that held [v]: the last of the four assignments that fire. *)
Definition special_value (isValid : string -> bool) (key : string) (v : value) : value :=
  match v with
  | VStr s =>
      if is_true_literal s then VBool true
      else if is_false_literal s then VBool false
      else if (id_named key && isValid s)%bool then VObjectId s
      else if includes "," s then in_clause s
      else VStr s
  | VObj o =>
      match obj_get "$regex" o with
      | Some re =>
          if value_truthy re
          then VObj [("$regex", re);
                     ("$options",
                      match obj_get "$options" o with
                      | Some opts => if value_truthy opts then opts else VStr "i"
                      | None => VStr "i"
                      end)]
          else v
      | None => v
      end
  | _ => v
  end.

(** The range operators of [handleDateRanges]. *)
Definition is_range_operator (operator : string) : bool :=
  existsb (String.eqb operator) ["$gte"; "$gt"; "$lte"; "$lt"].

(** What the inner loop of [handleDateRanges] leaves under an operator that
    held [v]. *)
Definition date_coerce (operator : string) (v : value) : value :=
  if is_range_operator operator then
    match v with
    | VStr s => if QueryParser.isValidDate s then VDate s else v
    | _ => v
    end
  else v.

(** What one round of the outer loop of [handleDateRanges] leaves under a
    key that held [v]. *)
Definition date_value (v : value) : value :=
  match v with
  | VObj o => VObj (fold_left QueryParser.date_operator (obj_keys o) o)
  | _ => v
  end.

(** The keys of an object are pairwise distinct. *)
Fixpoint distinct (l : list string) : bool :=
  match l with
  | [] => true
  | x :: r => (negb (existsb (String.eqb x) r) && distinct r)%bool
  end.

(** A mapping as the HTTP layer or a service builds it: strings, booleans,
    arrays and objects with distinct keys. *)
Fixpoint plain (r : raw) : bool :=
  match r with
  | RStr _ | RBool _ => true
  | RNum _ => false
  | RArr l => forallb plain l
  | RObj o => (distinct (map fst o) && forallb (fun kv => plain (snd kv)) o)%bool
  end.

(** The number of nodes and of array and object entries of a value. *)
Fixpoint size (r : raw) : nat :=
  match r with
  | RStr _ | RNum _ | RBool _ => 1
  | RArr l => S (fold_right (fun x n => S (size x) + n)%nat O l)
  | RObj o => S (fold_right (fun kv n => S (size (snd kv)) + n)%nat O o)
  end.

(** The entries of an object, read back as filter values. *)
Definition entries_of_raw (o : list (string * raw)) : obj value :=
  map (fun kv => (fst kv, value_of_raw (snd kv))) o.

(** The text of one member of an object. *)
Definition member_text (kv : string * raw) : string :=
  String.append (JSON_quote (fst kv)) (String.append ":" (JSON_stringify (snd kv))).

(** A value that the parser reads back from its serialisation, whatever
    follows it, once the fuel covers its size. *)
Definition reads_back (r : raw) : Prop :=
  plain r = true ->
  forall fuel rest, (size r <= fuel)%nat ->
  parse_value fuel (String.append (JSON_stringify r) rest) =
  Some (value_of_raw r, rest).

(** ** Sample collaborator *)

(** A collaborator over an empty collection view that reports [n] matching
    documents for every filter; used to run the builders on concrete input. *)
Definition sample_model (n : Z) : Model unit unit :=
  {| find := fun _ _ _ _ _ => [];
     countDocuments := fun _ _ => n;
     aggregate := fun _ _ => [] |}.

(** A builder holding a match stage and a join, and stages to put behind it. *)
Definition sample_query_builder : @UniversalQueryBuilder.t unit unit :=
  UniversalQueryBuilder.lookup (VObj [("from", VStr "orders")])
    (UniversalQueryBuilder.match_ (Some [Match [("status", VStr "active")]])
       (UniversalQueryBuilder.new (sample_model 7))).

Definition sample_later_stages : list stage :=
  [AddFields (VObj [("isActive", VBool true)]);
   Project (VObj [("name", VNum (int 1))]);
   Sort (VObj [("createdAt", VNum (int (-1)))])].

(** A parser over an identifier-named field with a well-formed value and one
    with a malformed value. *)
Definition sample_id_parser : QueryParser.t :=
  QueryParser.createQueryParser
    [("userId", RStr "507f1f77bcf86cd799439011"); ("orderId", RStr "not-an-id")]
    None.



(** * Further parts of utils/queryParser.js and its callers *)


(** ** parseInt with radix 10 *)

(** [parseInt(s, 10)]: as [parseInt], without the [0x] prefix rule. *)
Definition parseInt10 (s : string) : number :=
  let s1 := trim_start s in
  let '(negative, s2) :=
    match s1 with
    | String "-" r => (true, r)
    | String "+" r => (false, r)
    | _ => (false, s1)
    end in
  match parse_digits 10 None s2 with
  | None => NaN
  | Some n => to_double (if negative then - n else n)
  end.

(** ** SearchBuilder *)

Module SearchBuilder.

Record t : Type := { searchQuery : obj value }.

Definition new : t := {| searchQuery := [] |}.

Definition set (field : string) (v : value) (b : t) : t :=
  {| searchQuery := obj_set field v (searchQuery b) |}.

(** [[...v]]: the elements of an array, the characters of a string; other
    values are not iterable and the spread throws. *)
Fixpoint chars (s : string) : list value :=
  match s with
  | EmptyString => []
  | String c r => VStr (String c EmptyString) :: chars r
  end.

Definition spread (v : value) : option (list value) :=
  match v with
  | VArr l => Some l
  | VStr s => Some (chars s)
  | _ => None
  end.

(** [{ [field]: { $regex: searchTerm, $options: 'i' } }] *)
Definition searchCondition (searchTerm field : string) : value :=
  VObj [(field, VObj [("$regex", VStr searchTerm); ("$options", VStr "i")])].

(** [text(searchTerm, fields = [])]; [None] when the spread of an earlier
    [$or] throws. *)
Definition text (searchTerm : string) (fields : list string) (b : t) : option t :=
  if string_is_empty searchTerm then Some b
  else
    match fields with
    | _ :: _ =>
        let searchConditions := map (searchCondition searchTerm) fields in
        match obj_get "$or" (searchQuery b) with
        | Some old =>
            if value_truthy old then
              match spread old with
              | Some l => Some (set "$or" (VArr (l ++ searchConditions)) b)
              | None => None
              end
            else Some (set "$or" (VArr searchConditions) b)
        | None => Some (set "$or" (VArr searchConditions) b)
        end
    | [] => Some (set "$text" (VObj [("$search", VStr searchTerm)]) b)
    end.







(** [build()] *)
Definition build (b : t) : obj value := searchQuery b.

End SearchBuilder.

(** ** QueryConfig *)

Module QueryConfig.

(** What [build] asks of the runtime and of the storage library on arbitrary
    values: [Types.ObjectId.isValid(v)], [Types.ObjectId(v)] (called without
    [new], which some versions of the library refuse by throwing: [None]),
    [String(v)], [parseFloat(v)], [new Date(v)]. *)
Record Runtime : Type := {
  isValid_ : value -> bool;
  ObjectId_ : value -> option value;
  String_ : value -> string;
  parseFloat_ : value -> number;
  Date_ : value -> value
}.

(** One element of [query_data]; a [value] that is [undefined] or [null] is
    [None], an absent [operator] is [None]. *)
Record item : Type := {
  name : string;
  value_ : option value;
  type_ : string;
  operator : option string
}.

(** The object [build] returns. *)
Record stage_config : Type := {
  filters : list stage;
  page_ : number;
  limit_ : number;
  sort_ : obj value;
  timezone : raw
}.

(** The results of the calls of a [map], unless one of them throws. *)
Fixpoint all_some {A : Type} (l : list (option A)) : option (list A) :=
  match l with
  | [] => Some []
  | None :: _ => None
  | Some x :: r =>
      match all_some r with
      | Some xs => Some (x :: xs)
      | None => None
      end
  end.

Section Build.
Variable rt : Runtime.

(** [toObjectId(value)] *)
Definition toObjectId (v : value) : option value :=
  if isValid_ rt v then ObjectId_ rt v else Some (VStr (String_ rt v)).

(** [`$${operator || 'eq'}`] *)
Definition operator_key (op : option string) : string :=
  String "$"
    (match op with
     | Some o => if string_is_empty o then "eq" else o
     | None => "eq"
     end).

(** The [switch] on the type of an item: the clauses it pushes under the
    name of the item (one or none); [None] when it throws. *)
Definition clause (it : item) (v : value) : option (list value) :=
  if String.eqb (type_ it) "select" then
    match v with
    | VArr l =>
        match all_some (map toObjectId l) with
        | Some ids => Some [VObj [("$in", VArr ids)]]
        | None => None
        end
    | _ =>
        match toObjectId v with
        | Some id => Some [id]
        | None => None
        end
    end
  else if String.eqb (type_ it) "number" then
    Some [VObj [(operator_key (operator it), VNum (parseFloat_ rt v))]]
  else if String.eqb (type_ it) "date" then
    Some [VObj [(operator_key (operator it), Date_ rt v)]]
  else if String.eqb (type_ it) "array" then
    Some [VObj [(match operator it with
                 | Some "nin" => "$nin"
                 | _ => "$in"
                 end,
                 match v with
                 | VArr l => VArr l
                 | _ => VArr [v]
                 end)]]
  else if String.eqb (type_ it) "exists" then
    Some [VObj [("$exists", VBool (value_truthy v))]]
  else if String.eqb (type_ it) "range" then
    match v with
    | VArr [a; b] => Some [VObj [("$gte", a); ("$lte", b)]]
    | _ => Some []
    end
  else Some [].

(** One round of the loop over [query_data]: the filters it pushes. *)
Definition item_filters (allowedFields : list string) (it : item)
  : option (list value) :=
  if string_is_empty (name it) then Some []
  else
    match value_ it with
    | None => Some []
    | Some v =>
        if (match v with VStr s => string_is_empty s | _ => false end) then Some []
        else if (match allowedFields with [] => false | _ => true end
                 && negb (existsb (String.eqb (name it)) allowedFields))%bool
        then Some []
        else match clause it v with
             | Some cs => Some (map (fun c => VObj [(name it, c)]) cs)
             | None => None
             end
    end.

(** The loop over [query_data]. *)
Fixpoint data_filters (allowedFields : list string) (query_data : list item)
  : option (list value) :=
  match query_data with
  | [] => Some []
  | it :: rest =>
      match item_filters allowedFields it with
      | Some fs =>
          match data_filters allowedFields rest with
          | Some more => Some (fs ++ more)
          | None => None
          end
      | None => None
      end
  end.

(** The filter of the global text search, pushed when
    [q && q.length > 0 && regexFields.length > 0]. *)
Definition search_filters (q : string) (regexFields : list string) : list value :=
  if string_is_empty q then []
  else
    match regexFields with
    | [] => []
    | _ =>
        [VObj [("$or",
                VArr (map (fun f =>
                             VObj [(f, VObj [("$regex", VStr q);
                                             ("$options", VStr "i")])])
                          regexFields))]]
    end.

(** [QueryConfig.build({ q, query_data, page, limit, sortBy, sortOrder,
    regexFields, allowedFields, timezone })]; an argument that is absent is
    [None] and takes its default ([TIME_ZONE_NAME] is the configured one).
    [q] is a string, as the function documents it. *)
Definition build (TIME_ZONE_NAME : raw)
  (q : option string) (query_data : list item) (page limit : option raw)
  (sortBy sortOrder : option raw) (regexFields allowedFields : list string)
  (tz : option raw) : option stage_config :=
  let q := match q with Some x => x | None => "" end in
  let page := match page with Some x => x | None => RNum 1 end in
  let limit := match limit with Some x => x | None => RNum 5 end in
  let sortBy := match sortBy with Some x => x | None => RStr "createdAt" end in
  let sortOrder := match sortOrder with Some x => x | None => RStr "desc" end in
  match data_filters allowedFields query_data with
  | None => None
  | Some fs' =>
      let fs := search_filters q regexFields ++ fs' in
      Some
        {| filters :=
             match fs with
             | [] => []
             | _ => [Match [("$and", VArr fs)]]
             end;
           page_ := num_or (parseInt10 (ToString page)) (int 1);
           limit_ := Math_min (num_or (parseInt10 (ToString limit)) (int 20)) (int 100);
           sort_ := [(ToString sortBy,
                      VNum (match sortOrder with
                            | RStr "desc" => int (-1)
                            | _ => int 1
                            end))];
           timezone := match tz with Some x => x | None => TIME_ZONE_NAME end |}
  end.

End Build.
End QueryConfig.

(** ** UserService (modules/users), the aggregation variant *)

Module UserService.

(** The argument of [addFields] in [fetchUsers]. *)
Definition computed_fields : obj value :=
  [("fullName",
    VObj [("$trim",
           VObj [("input",
                  VObj [("$concat",
                         VArr [VObj [("$ifNull", VArr [VStr "$name"; VStr ""])];
                               VStr " ";
                               VObj [("$ifNull", VArr [VStr "$lastName"; VStr ""])]])])])]);
   ("ageGroup",
    VObj [("$switch",
           VObj [("branches",
                  VArr [VObj [("case", VObj [("$lt", VArr [VStr "$age"; VNum (int 18)])]);
                              ("then", VStr "Minor")];
                        VObj [("case", VObj [("$lt", VArr [VStr "$age"; VNum (int 40)])]);
                              ("then", VStr "Adult")];
                        VObj [("case", VObj [("$gte", VArr [VStr "$age"; VNum (int 40)])]);
                              ("then", VStr "Senior")]]);
                 ("default", VStr "Unknown")])]);
   ("isActive", VObj [("$eq", VArr [VStr "$status"; VStr "active"])]);
   ("is_flagged", VBool false)].

Definition one : value := VNum (int 1).

(** The fixed part of the argument of [project] in [fetchUsers]. *)
Definition projected_fields : obj value :=
  [("name", one); ("lastName", one); ("fullName", one); ("email", one);
   ("contact", one); ("role", one); ("type", one); ("image", one);
   ("age", one); ("ageGroup", one); ("gender", one); ("fcmToken", one);
   ("deviceId", one);
   ("address",
    VObj [("street", VStr "$addressObj.street"); ("city", VStr "$addressObj.city");
          ("state", VStr "$addressObj.state"); ("zip", VStr "$addressObj.zip")]);
   ("company",
    VObj [("name", VStr "$companyObj.name"); ("code", VStr "$companyObj.code");
          ("industry", VStr "$companyObj.industry")]);
   ("notification_preferences",
    VObj [("_id", VStr "$notificationPreferences._id");
          ("user",
           VObj [("_id", VStr "$_id"); ("email", VStr "$email"); ("name", VStr "$name");
                 ("role", VStr "$role"); ("type", VStr "$type");
                 ("status", VStr "$status"); ("isActive", VStr "$isActive");
                 ("image", VStr "$image"); ("contact", VStr "$contact");
                 ("country_code", VStr "$country_code")]);
          ("preferences", VStr "$notificationPreferences.preferences");
          ("deliveryChannels", VStr "$notificationPreferences.deliveryChannels")]);
   ("status", one); ("isActive", one); ("last_login", one); ("createdAt", one);
   ("updatedAt", one); ("approvedOnText", one); ("createdAtText", one);
   ("updatedAtText", one)].

(** [{ ...a, ...b }] *)
Definition spread_over (a b : obj value) : obj value :=
  fold_left (fun o kv => obj_set (fst kv) (snd kv) o) b a.

Definition join_config (from localField foreignField as_ : string) : value :=
  VObj [("from", VStr from); ("localField", VStr localField);
        ("foreignField", VStr foreignField); ("as", VStr as_)].

Definition unwind_config (path : string) : value :=
  VObj [("path", VStr path); ("preserveNullAndEmptyArrays", VBool true)].

Section Service.
Context {doc session : Type}.
Variable User : Model doc session.

(** The builder [fetchUsers] assembles; an argument that is absent is [None]
    and takes its default. *)
Definition fetchUsers_builder (s : option session) (page limit : option number)
  (sort project : option (obj value)) (filters : option (list stage))
  : @UniversalQueryBuilder.t doc session :=
  let page := match page with Some x => x | None => int 1 end in
  let limit := match limit with Some x => x | None => int 20 end in
  let sort := match sort with Some x => x | None => [] end in
  let project := match project with Some x => x | None => [] end in
  let filters := match filters with Some x => x | None => [] end in
  UniversalQueryBuilder.project (Some (spread_over projected_fields project))
    (UniversalQueryBuilder.paginate page limit
       (UniversalQueryBuilder.sortBy (Some sort)
          (UniversalQueryBuilder.addFields (Some computed_fields)
             (UniversalQueryBuilder.unwind (unwind_config "$notificationPreferences")
                (UniversalQueryBuilder.lookup
                   (join_config "notificationpreferences" "_id" "user"
                      "notificationPreferences")
                   (UniversalQueryBuilder.unwind (unwind_config "$companyObj")
                      (UniversalQueryBuilder.lookup
                         (join_config "companies" "company_id" "_id" "companyObj")
                         (UniversalQueryBuilder.unwind (unwind_config "$addressObj")
                            (UniversalQueryBuilder.lookup
                               (join_config "addresses" "address_id" "_id" "addressObj")
                               (UniversalQueryBuilder.match_ (Some filters)
                                  (UniversalQueryBuilder.setSession s
                                     (UniversalQueryBuilder.new User)))))))))))).

(** [fetchUsers({ session, page, limit, sort, project, filters })] *)
Definition fetchUsers (s : option session) (page limit : option number)
  (sort project : option (obj value)) (filters : option (list stage)) : Result doc :=
  UniversalQueryBuilder.exec true
    (fetchUsers_builder s page limit sort project filters).

(** [getUsers(query, { session })]: [query_data] is overwritten with the
    empty list, the other properties of [query] that [QueryConfig.build]
    reads are passed on, and the configuration goes to [fetchUsers]; [None]
    when [build] throws. *)
Definition getUsers (rt : QueryConfig.Runtime) (TIME_ZONE_NAME : raw)
  (q : option string) (page limit sortBy sortOrder tz : option raw)
  (s : option session) : option (Result doc) :=
  match QueryConfig.build rt TIME_ZONE_NAME q [] page limit sortBy sortOrder
          ["name"; "email"] [] tz with
  | Some qc =>
      Some (fetchUsers s (Some (QueryConfig.page_ qc)) (Some (QueryConfig.limit_ qc))
              (Some (QueryConfig.sort_ qc)) None (Some (QueryConfig.filters qc)))
  | None => None
  end.

End Service.
End UserService.

(** ** The services that run a QueryParser *)

Module Services.
Section Run.
Context {doc session : Type}.

(** The identifier check of the storage library, as in [QueryParser.filter]. *)
Variable isValid : string -> bool.

(** [createQueryParser(q).filter().sort().select().paginate().execute(M)];
    [None] when one of the steps throws. *)
Definition run (M : Model doc session) (q : obj raw) : option (Result doc) :=
  match QueryParser.filter isValid (QueryParser.createQueryParser q None) with
  | Some p1 =>
      match QueryParser.sort p1 with
      | Some p2 =>
          match QueryParser.select p2 with
          | Some p3 => Some (QueryParser.execute M (QueryParser.paginate p3))
          | None => None
          end
      | None => None
      end
  | None => None
  end.

(** [UserService.getUsers(query)] (modules/users/user.service.js) and
    [ProductService.getProducts(query)] *)
Definition getUsers (User : Model doc session) (query : obj raw) :=
  run User query.

Definition getProducts (Product : Model doc session) (query : obj raw) :=
  run Product query.





End Run.
End Services.


(** ** Vocabulary of the further statements *)

(** [s] with every [a] replaced by [b]. *)
Fixpoint replace_char (a b : ascii) (s : string) : string :=
  match s with
  | EmptyString => EmptyString
  | String c r => String (if Ascii.eqb c a then b else c) (replace_char a b r)
  end.

(** The word at the start of a text: its longest prefix of word characters. *)
Fixpoint word_at (s : string) : string :=
  match s with
  | String c r => if is_word_char c then String c (word_at r) else EmptyString
  | EmptyString => EmptyString
  end.

Definition is_operator_token (w : string) : bool :=
  existsb (String.eqb w) operator_tokens.

(** The text with [$] put before every word that is an operator token;
    [inside] tells that the character before the text is a word character. *)
Fixpoint prefix_operator_words (inside : bool) (s : string) : string :=
  match s with
  | EmptyString => EmptyString
  | String c r =>
      let rest := String c (prefix_operator_words (is_word_char c) r) in
      if (negb inside && is_word_char c && is_operator_token (word_at s))%bool
      then String "$" rest
      else rest
  end.

(** Parsers for the examples of the filter rules. *)
Definition sample_regex_parser : QueryParser.t :=
  QueryParser.createQueryParser
    [("name", RObj [("regex", RStr "jo"); ("gte", RStr "a")])] None.

Definition sample_boolean_parser : QueryParser.t :=
  QueryParser.createQueryParser [("inStock", RStr "TRUE")] None.

(** The query carries a truthy [search]. *)
Definition has_search (p : QueryParser.t) : bool :=
  match obj_get "search" (QueryParser.query p) with
  | Some r => raw_truthy r
  | None => false
  end.

Definition sample_fields_parser : QueryParser.t :=
  QueryParser.createQueryParser
    [("status", RStr "active"); ("page", RStr "2"); ("fields", RStr "name,price")]
    None.

(** The number read from the digits of a decimal numeral, most significant
    first, after [acc]. *)
Fixpoint uint_acc (d : Decimal.uint) (acc : N) : N :=
  match d with
  | Decimal.Nil => acc
  | Decimal.D0 l => uint_acc l (acc * 10 + 0)
  | Decimal.D1 l => uint_acc l (acc * 10 + 1)
  | Decimal.D2 l => uint_acc l (acc * 10 + 2)
  | Decimal.D3 l => uint_acc l (acc * 10 + 3)
  | Decimal.D4 l => uint_acc l (acc * 10 + 4)
  | Decimal.D5 l => uint_acc l (acc * 10 + 5)
  | Decimal.D6 l => uint_acc l (acc * 10 + 6)
  | Decimal.D7 l => uint_acc l (acc * 10 + 7)
  | Decimal.D8 l => uint_acc l (acc * 10 + 8)
  | Decimal.D9 l => uint_acc l (acc * 10 + 9)
  end%N.

(** [Number.MAX_SAFE_INTEGER], 2^53 - 1: up to it integers are exact. *)
Definition MAX_SAFE_INTEGER : Z := 9007199254740991.

(** [{ category: 'books', page: 3, limit: '25' }] *)
Definition sample_window_parser : QueryParser.t :=
  QueryParser.createQueryParser
    [("category", RStr "books"); ("page", RNum 3); ("limit", RStr "25")] None.

(** No stage of the list is a [$skip] or a [$limit] stage. *)
Definition no_window (l : list stage) : Prop :=
  forall s, In s l -> stage_skip s = None /\ stage_limit s = None.

(** The payload of the [$lookup] stage of an entry of [addLookups]. *)
Definition lookup_config (l : UniversalPipelineBuilder.lookup_spec) : value :=
  VObj [("from", VStr (UniversalPipelineBuilder.from l));
        ("localField", VStr (UniversalPipelineBuilder.localField l));
        ("foreignField", VStr (UniversalPipelineBuilder.foreignField l));
        ("as", VStr (UniversalPipelineBuilder.as_ l))].

(** The payload of an [$unwind] on the joined field [as] that keeps the
    documents without a partner. *)
Definition outer_unwind (joined : string) : value :=
  VObj [("path", VStr (String "$" joined));
        ("preserveNullAndEmptyArrays", VBool true)].

(** The place, among the stages [addLookups] adds, of the [$lookup] of the
    entry number [i]: behind the stages of the earlier entries, one for each
    and one more for each that asks for an unwind. *)
Definition stage_offset (lookups : list UniversalPipelineBuilder.lookup_spec)
  (i : nat) : nat :=
  (i + List.length (List.filter UniversalPipelineBuilder.unwind (firstn i lookups)))%nat.


(** A chain of [text] calls, [b.text(t1, f1).text(t2, f2)...]; [None] when
    one of them throws. *)
Definition text_all (calls : list (string * list string)) (b : SearchBuilder.t)
  : option SearchBuilder.t :=
  fold_left
    (fun ob c =>
       match ob with
       | Some b' => SearchBuilder.text (fst c) (snd c) b'
       | None => None
       end)
    calls (Some b).

(** The conditions a [text] call over fields contributes. *)
Definition text_conditions (c : string * list string) : list value :=
  map (SearchBuilder.searchCondition (fst c)) (snd c).

(** The alternatives collected so far: the elements of [$or], none when the
    property is absent. *)
Definition alternatives (b : SearchBuilder.t) (l : list value) : Prop :=
  match obj_get "$or" (SearchBuilder.searchQuery b) with
  | Some v => v = VArr l
  | None => l = []
  end.


(** [f] is a filter on the name of an item of [query_data] that has a name
    and a value and passes the whitelist. *)
Definition item_filter_of (allowedFields : list string)
  (query_data : list QueryConfig.item) (f : value) : Prop :=
  exists it c,
    In it query_data /\ f = VObj [(QueryConfig.name it, c)] /\
    QueryConfig.name it <> "" /\ QueryConfig.value_ it <> None /\
    (allowedFields = [] \/ In (QueryConfig.name it) allowedFields).

(** The search term [build] works with: [q], or its default. *)
Definition search_term (q : option string) : string :=
  match q with Some x => x | None => "" end.

(** [{ [f]: { $regex: term, $options: 'i' } }] *)
Definition regex_on (term f : string) : value :=
  VObj [(f, VObj [("$regex", VStr term); ("$options", VStr "i")])].

(** A runtime for the examples: the identifiers are the strings of 24
    hexadecimal digits, and the identifier constructor, called without
    [new], throws. *)
Definition sample_runtime : QueryConfig.Runtime :=
  {| QueryConfig.isValid_ :=
       fun v => match v with VStr s => is_objectId_format s | _ => false end;
     QueryConfig.ObjectId_ := fun _ => None;
     QueryConfig.String_ :=
       fun v => match v with VStr s => s | _ => "[object Object]" end;
     QueryConfig.parseFloat_ :=
       fun v => match v with
                | VNum n => n
                | VStr s => parseInt10 s
                | _ => NaN
                end;
     QueryConfig.Date_ :=
       fun v => match v with VStr s => VDate s | _ => v end |}.

(** [[{ name: 'age', value: '18', type: 'number', operator: 'gte' },
      { name: 'role', value: 'admin', type: 'array' },
      { name: 'secret', value: 'x', type: 'array' }]] *)
Definition sample_query_data : list QueryConfig.item :=
  [{| QueryConfig.name := "age"; QueryConfig.value_ := Some (VStr "18");
      QueryConfig.type_ := "number"; QueryConfig.operator := Some "gte" |};
   {| QueryConfig.name := "role"; QueryConfig.value_ := Some (VStr "admin");
      QueryConfig.type_ := "array"; QueryConfig.operator := None |};
   {| QueryConfig.name := "secret"; QueryConfig.value_ := Some (VStr "x");
      QueryConfig.type_ := "array"; QueryConfig.operator := None |}].






(** The [sort] and [fields] properties of the query are strings or absent,
    as for parameters given once in the query string. *)
Definition strings_or_absent (q : obj raw) : Prop :=
  forall k r, k = "sort" \/ k = "fields" ->
              obj_get k q = Some r -> exists s, r = RStr s.

(** The query reaches the filter as it is: it is plain once the excluded
    fields are deleted and its serialisation holds no stand-alone operator
    token. *)
Definition passes_unchanged (q : obj raw) : Prop :=
  let p := QueryParser.createQueryParser q None in
  plain (RObj (QueryParser.filteredQuery p)) = true /\
  replace_operators (JSON_stringify (RObj (QueryParser.filteredQuery p))) =
  JSON_stringify (RObj (QueryParser.filteredQuery p)).




(** A value that none of the special-query rules applies to under [key]: a
    boolean, or a string that spells no boolean, holds no comma and, under
    an identifier-named key, is no identifier. *)
Definition ordinary (isValid : string -> bool) (key : string) (r : raw) : Prop :=
  (exists b, r = RBool b) \/
  exists s, r = RStr s /\
            is_true_literal s = false /\ is_false_literal s = false /\
            includes "," s = false /\ (id_named key && isValid s)%bool = false.

(** [{ status: 'active', page: '2', limit: '25', sort: 'name' }] *)
Definition sample_listing_query : obj raw :=
  [("status", RStr "active"); ("page", RStr "2"); ("limit", RStr "25");
   ("sort", RStr "name")].

(** [?price[gte]=1500&price[lte]=soon] *)
Definition sample_range_parser : QueryParser.t :=
  QueryParser.createQueryParser
    [("price", RObj [("gte", RStr "1500"); ("lte", RStr "soon")])] None.

(** The pairs of a sort string: its pieces between commas and spaces. *)
Definition sort_pairs (s : string) : list string :=
  split " " (replace_char "," " " s).

(** The field a pair names: its text before the first colon. *)
Definition pair_field (pair : string) : string := hd "" (split ":" pair).

(** The text between the first and the second colon of a pair, or what an
    undefined direction is printed as. *)
Definition pair_direction (pair : string) : string :=
  nth 1 (split ":" pair) "undefined".

(** The last pair of the list that names [field]. *)
Definition last_pair (field : string) (pairs : list string) : option string :=
  List.find (fun pair => String.eqb (pair_field pair) field) (rev pairs).

(** [?sort=createdAt:-1,name:0,price,name:x] *)
Definition sample_sort_parser : QueryParser.t :=
  QueryParser.createQueryParser
    [("sort", RStr "createdAt:-1,name:0,price,name:x")] None.





(** * Properties *)

(** ** Arithmetic on integer-valued numbers *)

Lemma Qred_inject_Z (z : Z) : Qred (inject_Z z) = inject_Z z.
Proof.
  apply Qred_identity. unfold inject_Z. simpl. apply Z.gcd_1_r.
Qed.

Lemma fin_int (q : Q) (z : Z) : Qeq q (inject_Z z) -> fin q = int z.
Proof.
  intros H. unfold fin, int. f_equal.
  rewrite (Qred_complete _ _ H). apply Qred_inject_Z.
Qed.

Lemma num_add_int (a b : Z) : num_add (int a) (int b) = int (a + b).
Proof.
  unfold num_add, int at 1 2. apply fin_int. rewrite inject_Z_plus. reflexivity.
Qed.

Lemma num_neg_int (a : Z) : num_neg (int a) = int (- a).
Proof.
  unfold num_neg, int at 1. apply fin_int. rewrite inject_Z_opp. reflexivity.
Qed.

Lemma num_sub_int (a b : Z) : num_sub (int a) (int b) = int (a - b).
Proof.
  unfold num_sub. rewrite num_neg_int, num_add_int. reflexivity.
Qed.

Lemma num_mul_int (a b : Z) : num_mul (int a) (int b) = int (a * b).
Proof.
  unfold num_mul, int at 1 2. apply fin_int. rewrite inject_Z_mult. reflexivity.
Qed.

Lemma num_lt_int (a b : Z) : num_lt (int a) (int b) = (a <? b).
Proof.
  unfold num_lt, int, q_lt, inject_Z. simpl. rewrite !Z.mul_1_r. reflexivity.
Qed.

Lemma truthy_int (a : Z) : truthy (int a) = negb (a =? 0).
Proof. reflexivity. Qed.

Lemma int_inj (a b : Z) : int a = int b -> a = b.
Proof. unfold int, inject_Z. intros H. injection H. auto. Qed.

Lemma Math_min_int (a b : Z) : Math_min (int a) (int b) = int (Z.min a b).
Proof.
  assert (H : Math_min (int a) (int b)
              = if num_lt (int b) (int a) then int b else int a) by reflexivity.
  rewrite H, num_lt_int.
  destruct (Z.ltb_spec b a);
    [rewrite Z.min_r by lia | rewrite Z.min_l by lia]; reflexivity.
Qed.

Lemma num_div_int (a b : Z) :
  b <> 0 -> num_div (int a) (int b) = fin (Qdiv (inject_Z a) (inject_Z b)).
Proof.
  intros Hb. unfold num_div, int.
  destruct (q_is_zero (inject_Z b)) eqn:E; [|reflexivity].
  unfold q_is_zero, inject_Z in E. simpl in E. apply Z.eqb_eq in E. contradiction.
Qed.



(** An exact quotient is recovered by the division. *)
Lemma num_div_exact (a b : Z) : b <> 0 -> num_div (int (a * b)) (int b) = int a.
Proof.
  intros Hb. rewrite num_div_int by assumption.
  apply fin_int. rewrite inject_Z_mult. field.
  intros H. apply Hb. 
  unfold Qeq, inject_Z in H. simpl in H. lia.
Qed.


(** ** Pagination metadata *)




Lemma some_eq {A : Type} (x y : A) : Some x = Some y -> x = y.
Proof. intros H. injection H. auto. Qed.

Ltac project_pagination :=
  cbn [page limit total pages hasNext hasPrev pagination data to_number] in *.

(** ** Pagination requests *)


Lemma paginate_options (q : obj raw) (exclude : option (list string)) :
  QueryParser.paginationOptions
    (QueryParser.paginate (QueryParser.new q exclude)) =
  {| po_page := Some (num_or (requested "page" q) (int 1));
     po_limit := Some (Math_min (num_or (requested "limit" q) (int 10)) (int 100));
     po_skip := Some (num_mul (num_sub (num_or (requested "page" q) (int 1)) (int 1))
                              (num_or (requested "limit" q) (int 10))) |}.
Proof. reflexivity. Qed.

(** C2.  On [{ page: '2', limit: '200' }] the effective limit is clamped to
    100 but the skip handed to the fetch is 200, computed from the raw limit,
    and not (2 - 1) * 100. *)
Theorem paginate_skip_ignores_clamp :
  let p := QueryParser.paginate
             (QueryParser.new [("page", RStr "2"); ("limit", RStr "200")] None) in
  po_page (QueryParser.paginationOptions p) = Some (int 2) /\
  po_limit (QueryParser.paginationOptions p) = Some (int 100) /\
  po_skip (QueryParser.paginationOptions p) = Some (int 200) /\
  po_skip (QueryParser.paginationOptions p) <> Some (int ((2 - 1) * 100)).
Proof.
  vm_compute. repeat split; try reflexivity. discriminate.
Qed.

(** The sibling builder derives the skip from the clamped limit. *)
Lemma pipeline_builder_skip_uses_clamp :
  let M := sample_model 0 in
  let b := UniversalPipelineBuilder.setPagination
             (Some (RStr "2")) (Some (RStr "200"))
             (UniversalPipelineBuilder.new M) in
  UniversalPipelineBuilder.exec_pipeline true b =
  [Sort (VObj [("createdAt", VNum (int (-1)))]); Skip (int 100); Limit (int 100)].
Proof. vm_compute. reflexivity. Qed.

(** In general the skip is (page - 1) times the unclamped limit. *)
Lemma paginate_skip_raw (q : obj raw) (exclude : option (list string)) (pg l : Z) :
  requested "page" q = int pg -> pg <> 0 ->
  requested "limit" q = int l -> 100 < l ->
  let o := QueryParser.paginationOptions
             (QueryParser.paginate (QueryParser.new q exclude)) in
  po_limit o = Some (int 100) /\ po_skip o = Some (int ((pg - 1) * l)).
Proof.
  intros Hp Hpg Hl Hbig. rewrite paginate_options. cbn [po_limit po_skip].
  rewrite Hp, Hl. unfold num_or. rewrite !truthy_int.
  replace (pg =? 0) with false by (symmetry; apply Z.eqb_neq; lia).
  replace (l =? 0) with false by (symmetry; apply Z.eqb_neq; lia).
  cbn [negb]. rewrite Math_min_int, num_sub_int, num_mul_int.
  rewrite Z.min_r by lia. split; reflexivity.
Qed.





(** ** Aggregation pipelines *)

Lemma find_truthy_app {A : Type} (prop : stage -> option A) (ok : A -> bool)
  (l1 l2 : list stage) :
  find_truthy prop ok (l1 ++ l2) =
  match find_truthy prop ok l1 with
  | Some x => Some x
  | None => find_truthy prop ok l2
  end.
Proof.
  induction l1 as [|s l1 IH]; [reflexivity|].
  cbn [app find_truthy]. destruct (prop s) as [x|]; [|exact IH].
  destruct (ok x); [reflexivity | exact IH].
Qed.

Lemma find_truthy_none {A : Type} (prop : stage -> option A) (ok : A -> bool)
  (l : list stage) :
  (forall s, In s l -> prop s = None) -> find_truthy prop ok l = None.
Proof.
  induction l as [|s l IH]; intros H; [reflexivity|].
  cbn [find_truthy]. rewrite (H s (or_introl eq_refl)).
  apply IH. intros s' Hs'. apply H. right. exact Hs'.
Qed.

(** The count filter is the filter of the first match stage. *)
Lemma count_filter_first_match (pre post : list stage) (f : obj value) :
  no_match pre -> count_filter (pre ++ Match f :: post) = f.
Proof.
  intros Hpre. unfold count_filter. rewrite find_truthy_app.
  rewrite (find_truthy_none _ _ pre Hpre). reflexivity.
Qed.

Lemma count_filter_no_match (l : list stage) :
  no_match l -> count_filter l = [].
Proof.
  intros H. unfold count_filter. rewrite (find_truthy_none _ _ l H). reflexivity.
Qed.

(** Stages that are not match stages, put behind a pipeline, leave the
    count filter as it was. *)
Lemma count_filter_app_no_match (l extra : list stage) :
  no_match extra -> count_filter (l ++ extra) = count_filter l.
Proof.
  intros H. unfold count_filter. rewrite find_truthy_app.
  rewrite (find_truthy_none _ _ extra H).
  destruct (find_truthy stage_match (fun _ => true) l); reflexivity.
Qed.

Lemma no_match_app (l1 l2 : list stage) :
  no_match l1 -> no_match l2 -> no_match (l1 ++ l2).
Proof.
  intros H1 H2 s Hs. apply in_app_or in Hs. destruct Hs; auto.
Qed.

Lemma later_stage_no_match (l : list stage) :
  Forall later_stage l -> no_match l.
Proof.
  intros H s Hs. rewrite Forall_forall in H. specialize (H s Hs).
  destruct s; try reflexivity. contradiction.
Qed.

Lemma query_builder_total {doc session : Type}
  (b : @UniversalQueryBuilder.t doc session) :
  exec_total (UniversalQueryBuilder.exec true b) =
  Some (int (countDocuments (UniversalQueryBuilder.model b)
               (count_filter (UniversalQueryBuilder.pipeline b))
               (UniversalQueryBuilder.session_ b))).
Proof. reflexivity. Qed.

Lemma pipeline_builder_total {doc session : Type}
  (u : @UniversalPipelineBuilder.t doc session) :
  paged_total (UniversalPipelineBuilder.exec true u) =
  Some (int (countDocuments (UniversalPipelineBuilder.model u)
               (count_filter (UniversalPipelineBuilder.pipeline u))
               (UniversalPipelineBuilder.session_ u))).
Proof.
  unfold UniversalPipelineBuilder.exec, paged_total, exec_total.
  cbn [pagination total]. unfold UniversalPipelineBuilder.exec_pipeline.
  rewrite count_filter_app_no_match; [reflexivity|].
  intros s [<- | [<- | [<- | []]]]; reflexivity.
Qed.

(** C5.  With pagination, the total reported by [UniversalQueryBuilder.exec]
    and [UniversalPipelineBuilder.exec] is the collaborator's count under the
    filter of the first match stage of the pipeline (under the empty filter
    when there is none); computed-field, projection, sort and join stages put
    behind the pipeline do not change it. *)
Theorem total_counts_first_match
  {doc session : Type}
  (b : @UniversalQueryBuilder.t doc session)
  (u : @UniversalPipelineBuilder.t doc session)
  (extra : list stage) :
  Forall later_stage extra ->
  (forall pre f post,
      UniversalQueryBuilder.pipeline b = pre ++ Match f :: post -> no_match pre ->
      exec_total (UniversalQueryBuilder.exec true b) =
      Some (int (countDocuments (UniversalQueryBuilder.model b) f
                   (UniversalQueryBuilder.session_ b)))) /\
  (no_match (UniversalQueryBuilder.pipeline b) ->
   exec_total (UniversalQueryBuilder.exec true b) =
   Some (int (countDocuments (UniversalQueryBuilder.model b) []
                (UniversalQueryBuilder.session_ b)))) /\
  (forall pre f post,
      UniversalPipelineBuilder.pipeline u = pre ++ Match f :: post -> no_match pre ->
      paged_total (UniversalPipelineBuilder.exec true u) =
      Some (int (countDocuments (UniversalPipelineBuilder.model u) f
                   (UniversalPipelineBuilder.session_ u)))) /\
  (no_match (UniversalPipelineBuilder.pipeline u) ->
   paged_total (UniversalPipelineBuilder.exec true u) =
   Some (int (countDocuments (UniversalPipelineBuilder.model u) []
                (UniversalPipelineBuilder.session_ u)))) /\
  exec_total (UniversalQueryBuilder.exec true (UniversalQueryBuilder.push extra b)) =
  exec_total (UniversalQueryBuilder.exec true b) /\
  paged_total (UniversalPipelineBuilder.exec true
                 (UniversalPipelineBuilder.push extra u)) =
  paged_total (UniversalPipelineBuilder.exec true u).
Proof.
  intros Hextra. apply later_stage_no_match in Hextra.
  repeat split.
  - intros pre f post E Hpre. rewrite query_builder_total, E.
    rewrite count_filter_first_match by assumption. reflexivity.
  - intros H. rewrite query_builder_total, count_filter_no_match by assumption.
    reflexivity.
  - intros pre f post E Hpre. rewrite pipeline_builder_total, E.
    rewrite count_filter_first_match by assumption. reflexivity.
  - intros H. rewrite pipeline_builder_total, count_filter_no_match by assumption.
    reflexivity.
  - rewrite !query_builder_total. cbn [UniversalQueryBuilder.push
      UniversalQueryBuilder.pipeline UniversalQueryBuilder.model
      UniversalQueryBuilder.session_].
    rewrite count_filter_app_no_match by assumption. reflexivity.
  - rewrite !pipeline_builder_total. cbn [UniversalPipelineBuilder.push
      UniversalPipelineBuilder.pipeline UniversalPipelineBuilder.model
      UniversalPipelineBuilder.session_].
    rewrite count_filter_app_no_match by assumption. reflexivity.
Qed.


Lemma total_counts_first_match_witness :
  exec_total (UniversalQueryBuilder.exec true sample_query_builder) =
  Some (int (countDocuments (sample_model 7) [("status", VStr "active")] None)) /\
  exec_total (UniversalQueryBuilder.exec true
                (UniversalQueryBuilder.push sample_later_stages
                   sample_query_builder)) =
  exec_total (UniversalQueryBuilder.exec true sample_query_builder).
Proof.
  assert (H : Forall later_stage sample_later_stages)
    by (repeat constructor).
  destruct (total_counts_first_match sample_query_builder
              (UniversalPipelineBuilder.new (sample_model 7))
              sample_later_stages H) as [Hfirst [_ [_ [_ [Hsame _]]]]].
  split.
  - apply (Hfirst [] [("status", VStr "active")]
             [Lookup (VObj [("from", VStr "orders")])]).
    + reflexivity.
    + intros s [].
  - exact Hsame.
Defined.

(** ** Page and limit recomputed from the pipeline *)

Lemma int_truthy (z : Z) : z <> 0 -> truthy (int z) = true.
Proof.
  intros H. rewrite truthy_int. apply negb_true_iff. apply Z.eqb_neq. exact H.
Qed.

Lemma find_skip_after_paginate (pre post : list stage) (pg lim : Z) :
  1 <= pg -> 1 <= lim ->
  find_truthy stage_skip truthy pre = None ->
  find_truthy stage_skip truthy post = None ->
  find_truthy stage_skip truthy
    (pre ++ [Skip (int ((pg - 1) * lim)); Limit (int lim)] ++ post) =
  if pg =? 1 then None else Some (int ((pg - 1) * lim)).
Proof.
  intros Hpg Hlim Hpre Hpost. rewrite find_truthy_app, Hpre.
  cbn [app find_truthy stage_skip]. rewrite truthy_int.
  destruct (Z.eqb_spec pg 1) as [-> | Hne].
  - cbn [negb]. exact Hpost.
  - replace ((pg - 1) * lim =? 0) with false
      by (symmetry; apply Z.eqb_neq; nia).
    reflexivity.
Qed.

Lemma find_limit_after_paginate (pre post : list stage) (n : number) (lim : Z) :
  1 <= lim ->
  find_truthy stage_limit truthy pre = None ->
  find_truthy stage_limit truthy (pre ++ [Skip n; Limit (int lim)] ++ post) =
  Some (int lim).
Proof.
  intros Hlim Hpre. rewrite find_truthy_app, Hpre.
  cbn [app find_truthy stage_limit]. rewrite int_truthy by lia. reflexivity.
Qed.

(** C10, as stated, fails on a builder that already holds a window: after
    [paginate(2, 10)], a call of [paginate(3, 5)] leaves [exec(true)]
    reporting page 2 and limit 10, those of the first [$skip] and [$limit]
    stages. *)
Lemma paginate_twice_reports_first_window :
  let b := UniversalQueryBuilder.paginate (int 3) (int 5)
             (UniversalQueryBuilder.paginate (int 2) (int 10)
                (UniversalQueryBuilder.new (sample_model 40))) in
  exists p,
    pagination (UniversalQueryBuilder.exec true b) = Some p /\
    page p = Some (int 2) /\ limit p = Some (int 10) /\
    page p <> Some (int 3) /\ limit p <> Some (int 5).
Proof.
  eexists. split; [reflexivity|].
  vm_compute. repeat split; try reflexivity; discriminate.
Qed.

(** C10, amended.  After [paginate(page, limit)] with integers page >= 1
    and limit >= 1 whose product lies within the safe integers, on a builder
    whose pipeline holds no stage with a truthy [$skip] or [$limit],
    [exec(true)] reports that page and that limit, recomputed from the
    [$skip] and [$limit] stages, whatever stages are added afterwards as
    long as none of them carries a truthy [$skip]; for page 1 the
    [{ $skip: 0 }] stage is not found and the fallback gives 1. *)
Theorem paginate_exec_round_trip
  {doc session : Type} (b : @UniversalQueryBuilder.t doc session)
  (post : list stage) (pg lim : Z) :
  1 <= pg -> 1 <= lim -> pg * lim <= MAX_SAFE_INTEGER ->
  find_truthy stage_skip truthy (UniversalQueryBuilder.pipeline b) = None ->
  find_truthy stage_limit truthy (UniversalQueryBuilder.pipeline b) = None ->
  find_truthy stage_skip truthy post = None ->
  exists p,
    pagination
      (UniversalQueryBuilder.exec true
         (UniversalQueryBuilder.push post
            (UniversalQueryBuilder.paginate (int pg) (int lim) b))) = Some p /\
    page p = Some (int pg) /\ limit p = Some (int lim).
Proof.
  intros Hpg Hlim _ Hskip Hlimit Hpost.
  eexists. split; [reflexivity|].
  cbn [page limit UniversalQueryBuilder.push UniversalQueryBuilder.paginate
       UniversalQueryBuilder.pipeline].
  rewrite num_sub_int, num_mul_int, <- app_assoc.
  rewrite find_limit_after_paginate by assumption.
  rewrite find_skip_after_paginate by assumption.
  cbn [to_number]. split;
    [|unfold num_or; rewrite int_truthy by lia; reflexivity].
  f_equal. destruct (Z.eqb_spec pg 1) as [-> | Hne].
  - reflexivity.
  - cbn [to_number]. rewrite num_div_exact by lia. rewrite num_add_int.
    replace (pg - 1 + 1) with pg by lia.
    unfold num_or. rewrite int_truthy by lia. reflexivity.
Qed.

Lemma paginate_exec_round_trip_witness :
  exists p,
    pagination
      (UniversalQueryBuilder.exec true
         (UniversalQueryBuilder.push [Project (VObj [("name", VNum (int 1))])]
            (UniversalQueryBuilder.paginate (int 1) (int 10)
               sample_query_builder))) = Some p /\
    page p = Some (int 1) /\ limit p = Some (int 10).
Proof.
  apply (paginate_exec_round_trip sample_query_builder
           [Project (VObj [("name", VNum (int 1))])] 1 10).
  - lia.
  - lia.
  - unfold MAX_SAFE_INTEGER. lia.
  - reflexivity.
  - reflexivity.
  - reflexivity.
Defined.

(** ** The pagination object of the three assemblers *)





(** ** Objects *)

Section ObjectFacts.
Context {A : Type}.
Implicit Types (m : obj A) (k : string) (v : A).

Lemma obj_get_set_same k v m : obj_get k (obj_set k v m) = Some v.
Proof.
  induction m as [|[k' v'] m IH]; cbn [obj_set obj_get].
  - rewrite String.eqb_refl. reflexivity.
  - destruct (String.eqb k k') eqn:E; cbn [obj_get]; rewrite E; auto.
Qed.

Lemma obj_get_set_other k k' v m :
  k <> k' -> obj_get k' (obj_set k v m) = obj_get k' m.
Proof.
  intros Hne. induction m as [|[k1 v1] m IH]; cbn [obj_set obj_get].
  - destruct (String.eqb_spec k' k); [congruence | reflexivity].
  - destruct (String.eqb_spec k k1) as [-> | Hk]; cbn [obj_get].
    + destruct (String.eqb_spec k' k1); [congruence | reflexivity].
    + rewrite IH. reflexivity.
Qed.

Lemma obj_set_set k v w m : obj_set k v (obj_set k w m) = obj_set k v m.
Proof.
  induction m as [|[k' v'] m IH]; cbn [obj_set].
  - rewrite String.eqb_refl. reflexivity.
  - destruct (String.eqb k k') eqn:E; cbn [obj_set]; rewrite E;
      [reflexivity | rewrite IH; reflexivity].
Qed.

Lemma obj_set_id k v m : obj_get k m = Some v -> obj_set k v m = m.
Proof.
  induction m as [|[k' v'] m IH]; cbn [obj_set obj_get]; [discriminate|].
  destruct (String.eqb k k') eqn:E.
  - intros H. injection H as ->. reflexivity.
  - intros H. rewrite IH by assumption. reflexivity.
Qed.

Lemma obj_get_in_keys k v m : obj_get k m = Some v -> In k (obj_keys m).
Proof.
  induction m as [|[k' v'] m IH]; cbn [obj_get obj_keys map fst]; [discriminate|].
  destruct (String.eqb_spec k k') as [-> | Hne]; [left; reflexivity|].
  intros H. right. apply IH. exact H.
Qed.

(** A loop over keys whose body rewrites the value under its own key. *)
Section KeyLoop.
Variable body : obj A -> string -> obj A.
Variable g : string -> A -> A.
Hypothesis body_eq : forall m k,
  body m k = match obj_get k m with
             | Some v => obj_set k (g k v) m
             | None => m
             end.

Lemma body_other m k k0 : k <> k0 -> obj_get k0 (body m k) = obj_get k0 m.
Proof.
  intros Hne. rewrite body_eq. destruct (obj_get k m); [|reflexivity].
  apply obj_get_set_other. exact Hne.
Qed.

Lemma body_same m k v : obj_get k m = Some v -> obj_get k (body m k) = Some (g k v).
Proof.
  intros H. rewrite body_eq, H. apply obj_get_set_same.
Qed.

Lemma loop_fixed ks : forall m k0 w,
  obj_get k0 m = Some w -> g k0 w = w ->
  obj_get k0 (fold_left body ks m) = Some w.
Proof.
  induction ks as [|k ks IH]; intros m k0 w Hget Hfix; [exact Hget|].
  cbn [fold_left]. apply IH; [|exact Hfix].
  destruct (string_dec k k0) as [-> | Hne].
  - rewrite (body_same _ _ _ Hget), Hfix. reflexivity.
  - rewrite body_other by assumption. exact Hget.
Qed.

Lemma loop_visited ks : forall m k0 v,
  In k0 ks -> obj_get k0 m = Some v -> g k0 (g k0 v) = g k0 v ->
  obj_get k0 (fold_left body ks m) = Some (g k0 v).
Proof.
  induction ks as [|k ks IH]; intros m k0 v Hin Hget Hidem; [contradiction|].
  cbn [fold_left]. destruct (string_dec k k0) as [-> | Hne].
  - apply loop_fixed; [|exact Hidem]. apply body_same. exact Hget.
  - destruct Hin as [-> | Hin]; [contradiction|].
    apply IH; try assumption. rewrite body_other by assumption. exact Hget.
Qed.

End KeyLoop.
End ObjectFacts.


(** ** The loops of the filter translation *)

Lemma special_key_eq (isValid : string -> bool) (m : obj value) (key : string) :
  QueryParser.special_key isValid m key =
  match obj_get key m with
  | Some v => obj_set key (special_value isValid key v) m
  | None => m
  end.
Proof.
  unfold QueryParser.special_key.
  destruct (obj_get key m) as [v|] eqn:Hget; [|reflexivity].
  pose proof (obj_set_id _ _ _ Hget) as Hid.
  destruct v as [s| | | |o| |]; cbn [special_value]; try (symmetry; exact Hid).
  - unfold is_true_literal, is_false_literal, id_named, in_clause.
    destruct (String.eqb (toLowerCase s) "true");
      [rewrite ?obj_set_set; destruct (_ && _)%bool, (includes "," s);
       rewrite ?obj_set_set; reflexivity|].
    destruct (String.eqb (toLowerCase s) "false");
      [rewrite ?obj_set_set; destruct (_ && _)%bool, (includes "," s);
       rewrite ?obj_set_set; reflexivity|].
    destruct (_ && _)%bool, (includes "," s); rewrite ?obj_set_set;
      try reflexivity.
    symmetry; exact Hid.
  - destruct (obj_get "$regex" o) as [re|]; [|symmetry; exact Hid].
    destruct (value_truthy re); [reflexivity | symmetry; exact Hid].
Qed.

Lemma date_range_key_eq (m : obj value) (key : string) :
  QueryParser.date_range_key m key =
  match obj_get key m with
  | Some v => obj_set key (date_value v) m
  | None => m
  end.
Proof.
  unfold QueryParser.date_range_key.
  destruct (obj_get key m) as [v|] eqn:Hget; [|reflexivity].
  destruct v; cbn [date_value]; try reflexivity;
    symmetry; apply obj_set_id; exact Hget.
Qed.

(** A second round of the special-query rules changes nothing under a key
    that held a string. *)
Lemma special_value_idem (isValid : string -> bool) (key s : string) :
  special_value isValid key (special_value isValid key (VStr s)) =
  special_value isValid key (VStr s).
Proof.
  cbn [special_value].
  destruct (is_true_literal s) eqn:Et; [reflexivity|].
  destruct (is_false_literal s) eqn:Ef; [reflexivity|].
  destruct (id_named key && isValid s)%bool eqn:Ei; [reflexivity|].
  destruct (includes "," s) eqn:Ec; [reflexivity|].
  cbn [special_value]. rewrite Et, Ef, Ei, Ec. reflexivity.
Qed.

(** The values the special-query rules give to a string hold no date range. *)
Lemma date_value_special (isValid : string -> bool) (key s : string) :
  date_value (special_value isValid key (VStr s)) =
  special_value isValid key (VStr s).
Proof.
  cbn [special_value].
  destruct (is_true_literal s); [reflexivity|].
  destruct (is_false_literal s); [reflexivity|].
  destruct (id_named key && isValid s)%bool; [reflexivity|].
  destruct (includes "," s); reflexivity.
Qed.

(** The value that [filter] leaves under a key of the working mapping that
    held a string, provided the key is not the [$text] of the search. *)
Lemma filter_string_field
  (isValid : string -> bool) (p : QueryParser.t) (m : obj value) (key s : string) :
  JSON_parse (QueryParser.queryStr p) = Some (VObj m) ->
  obj_get key m = Some (VStr s) ->
  key <> "$text" ->
  exists p', QueryParser.filter isValid p = Some p' /\
             obj_get key (QueryParser.mongoQuery p') =
             Some (special_value isValid key (VStr s)).
Proof.
  intros Hparse Hget Hkey. unfold QueryParser.filter. rewrite Hparse.
  eexists. split; [reflexivity|].
  unfold QueryParser.handleSpecialQueries.
  cbn [QueryParser.mongoQuery QueryParser.with_mongoQuery QueryParser.query].
  set (m1 := fold_left (QueryParser.special_key isValid) (obj_keys m) m).
  assert (H1 : obj_get key m1 = Some (special_value isValid key (VStr s))).
  { apply (loop_visited _ _ (special_key_eq isValid)).
    - apply obj_get_in_keys with (v := VStr s). exact Hget.
    - exact Hget.
    - apply special_value_idem. }
  set (m2 := match obj_get "search" (QueryParser.query p) with
             | Some search => _
             | None => m1
             end).
  assert (H2 : obj_get key m2 = Some (special_value isValid key (VStr s))).
  { subst m2. destruct (obj_get "search" (QueryParser.query p)) as [r|]; [|exact H1].
    destruct (raw_truthy r); [|exact H1].
    rewrite obj_get_set_other by congruence. exact H1. }
  unfold QueryParser.handleDateRanges.
  apply (loop_fixed _ _ date_range_key_eq); [exact H2|].
  apply date_value_special.
Qed.


(** ** Identifier coercion *)

(** C7, as stated, fails: [vendorId = 'a,b'] and [paid = 'true'] are fields
    whose lower-case names contain [id] and whose values are not well-formed
    identifiers, and neither is left as a plain string. *)
Lemma id_field_not_left_as_string :
  id_named "vendorId" = true /\ is_objectId_format "a,b" = false /\
  id_named "paid" = true /\ is_objectId_format "true" = false /\
  option_map QueryParser.mongoQuery
    (QueryParser.filter is_objectId_format
       (QueryParser.new [("vendorId", RStr "a,b"); ("paid", RStr "true")] None)) =
  Some [("vendorId", VObj [("$in", VArr [VStr "a"; VStr "b"])]);
        ("paid", VBool true)].
Proof. vm_compute. repeat split; reflexivity. Qed.

(** C7, amended.  For every field of the working mapping (the query after
    exclusion and operator recognition) whose lower-case name contains [id]
    and whose value is a string, the translation raises no error and: a
    well-formed identifier (which is no true/false literal) is coerced to the
    native identifier type; a string that is not well-formed is left to the
    other rules, that is, it becomes a boolean when it spells true or false,
    an in-clause when it contains a comma, and stays the same string
    otherwise. *)
Theorem identifier_coercion
  (isValid : string -> bool) (p : QueryParser.t) (m : obj value) (key s : string) :
  JSON_parse (QueryParser.queryStr p) = Some (VObj m) ->
  obj_get key m = Some (VStr s) ->
  id_named key = true ->
  exists p',
    QueryParser.filter isValid p = Some p' /\
    (isValid s = true -> is_true_literal s = false -> is_false_literal s = false ->
     obj_get key (QueryParser.mongoQuery p') = Some (VObjectId s)) /\
    (isValid s = false ->
     obj_get key (QueryParser.mongoQuery p') =
     Some (if is_true_literal s then VBool true
           else if is_false_literal s then VBool false
           else if includes "," s then in_clause s
           else VStr s)).
Proof.
  intros Hparse Hget Hid.
  assert (Hkey : key <> "$text") by (intros ->; discriminate Hid).
  destruct (filter_string_field isValid p m key s Hparse Hget Hkey)
    as [p' [Hfilter Hval]].
  exists p'. split; [exact Hfilter|]. rewrite Hval. cbn [special_value].
  rewrite Hid. split.
  - intros Hvalid Ht Hf. rewrite Ht, Hf, Hvalid. reflexivity.
  - intros Hinvalid. rewrite Hinvalid. reflexivity.
Qed.

Lemma identifier_coercion_witness :
  exists p',
    QueryParser.filter is_objectId_format sample_id_parser = Some p' /\
    obj_get "userId" (QueryParser.mongoQuery p') =
      Some (VObjectId "507f1f77bcf86cd799439011") /\
    obj_get "orderId" (QueryParser.mongoQuery p') = Some (VStr "not-an-id").
Proof.
  destruct (identifier_coercion is_objectId_format sample_id_parser
              [("userId", VStr "507f1f77bcf86cd799439011");
               ("orderId", VStr "not-an-id")]
              "userId" "507f1f77bcf86cd799439011"
              eq_refl eq_refl eq_refl) as [p1 [H1 [Hyes _]]].
  destruct (identifier_coercion is_objectId_format sample_id_parser
              [("userId", VStr "507f1f77bcf86cd799439011");
               ("orderId", VStr "not-an-id")]
              "orderId" "not-an-id"
              eq_refl eq_refl eq_refl) as [p2 [H2 [_ Hno]]].
  exists p1. split; [exact H1|]. split.
  - apply Hyes; reflexivity.
  - assert (E : p2 = p1) by congruence. rewrite <- E. apply Hno. reflexivity.
Defined.

(** ** Evaluations of the filter translation *)

Lemma obj_get_delete_same {A : Type} (k : string) (o : obj A) :
  obj_get k (obj_delete k o) = None.
Proof.
  induction o as [|[k' v] o IH]; cbn [obj_delete obj_get]; [reflexivity|].
  destruct (String.eqb k k') eqn:E; [exact IH|].
  cbn [obj_get]. rewrite E. exact IH.
Qed.

Lemma obj_get_delete_none {A : Type} (k k' : string) (o : obj A) :
  obj_get k o = None -> obj_get k (obj_delete k' o) = None.
Proof.
  induction o as [|[k1 v] o IH]; cbn [obj_delete obj_get]; [reflexivity|].
  destruct (String.eqb k k1) eqn:E; [discriminate|]. intros H.
  destruct (String.eqb k' k1); [auto|]. cbn [obj_get]. rewrite E. auto.
Qed.

(** The fields listed in [excludeFields] are gone before serialisation. *)
Lemma excluded_fields_deleted (p : QueryParser.t) (k : string) :
  In k (QueryParser.excludeFields p) ->
  obj_get k (QueryParser.filteredQuery p) = None.
Proof.
  unfold QueryParser.filteredQuery.
  generalize (QueryParser.query p).
  induction (QueryParser.excludeFields p) as [|f fs IH]; intros q Hin;
    [contradiction|].
  cbn [fold_left]. destruct Hin as [-> | Hin]; [|apply IH; exact Hin].
  assert (H : forall fs' (q' : obj raw), obj_get k q' = None ->
            obj_get k (fold_left (fun q0 field => obj_delete field q0) fs' q') = None).
  { induction fs' as [|f' fs' IH']; intros q' Hq'; [exact Hq'|].
    cbn [fold_left]. apply IH'. apply obj_get_delete_none. exact Hq'. }
  apply H. apply obj_get_delete_same.
Qed.

(** C3.  With the default exclusion list the [search] key is not removed: on
    [{ search: 'laptop', page: '2' }] the resulting filter holds the equality
    predicate [search = 'laptop'] next to the [$text] predicate. *)
Theorem search_key_reaches_filter :
  option_map QueryParser.mongoQuery
    (QueryParser.filter is_objectId_format
       (QueryParser.createQueryParser
          [("search", RStr "laptop"); ("page", RStr "2")] None)) =
  Some [("search", VStr "laptop");
        ("$text", VObj [("$search", VStr "laptop")])].
Proof. vm_compute. reflexivity. Qed.

(** C6.  A purely numeric range bound that has the shape of a year is turned
    into a date: on [{ price: { gte: '2000' } }] the filter compares the
    price with [new Date('2000')]. *)
Theorem numeric_bound_becomes_date :
  option_map QueryParser.mongoQuery
    (QueryParser.filter is_objectId_format
       (QueryParser.createQueryParser
          [("price", RObj [("gte", RStr "2000")])] None)) =
  Some [("price", VObj [("$gte", VDate "2000")])].
Proof. vm_compute. reflexivity. Qed.

(** Date strings under a range operator are converted and strings that are
    no dates are kept. *)
Lemma date_bounds_converted :
  option_map QueryParser.mongoQuery
    (QueryParser.filter is_objectId_format
       (QueryParser.createQueryParser
          [("createdAt", RObj [("gte", RStr "2023-01-01"); ("lt", RStr "soon")])]
          None)) =
  Some [("createdAt", VObj [("$gte", VDate "2023-01-01"); ("$lt", VStr "soon")])].
Proof. vm_compute. reflexivity. Qed.

(** C8.  The comma rule splits the value as the operator rewriting left it:
    on [{ tags: 'in,out' }] the in-clause is over [$in] and [out], not over
    [in] and [out]; [category = 'a,b,c'] is translated as intended. *)
Theorem comma_list_is_split_after_rewriting :
  option_map QueryParser.mongoQuery
    (QueryParser.filter is_objectId_format
       (QueryParser.createQueryParser [("tags", RStr "in,out")] None)) =
  Some [("tags", VObj [("$in", VArr [VStr "$in"; VStr "out"])])] /\
  split "," "in,out" = ["in"; "out"] /\
  option_map QueryParser.mongoQuery
    (QueryParser.filter is_objectId_format
       (QueryParser.createQueryParser [("category", RStr "a,b,c")] None)) =
  Some [("category", VObj [("$in", VArr [VStr "a"; VStr "b"; VStr "c"])])].
Proof. vm_compute. repeat split; reflexivity. Qed.


(** ** The comma rule on the working mapping *)

Lemma lower_char_comma (c : ascii) :
  Ascii.eqb "," (lower_char c) = Ascii.eqb "," c.
Proof.
  destruct c as [[] [] [] [] [] [] [] []]; reflexivity.
Qed.

Lemma includes_comma_lower (s : string) :
  includes "," (toLowerCase s) = includes "," s.
Proof.
  induction s as [|c s IH]; [reflexivity|].
  cbn [toLowerCase includes]. rewrite IH.
  unfold starts_with. cbn [strip_prefix]. rewrite lower_char_comma.
  destruct (Ascii.eqb "," c); reflexivity.
Qed.

Lemma comma_not_boolean (s : string) :
  includes "," s = true -> is_true_literal s = false /\ is_false_literal s = false.
Proof.
  intros H. rewrite <- includes_comma_lower in H.
  unfold is_true_literal, is_false_literal.
  split.
  - destruct (String.eqb_spec (toLowerCase s) "true") as [E|]; [|reflexivity].
    rewrite E in H. discriminate H.
  - destruct (String.eqb_spec (toLowerCase s) "false") as [E|]; [|reflexivity].
    rewrite E in H. discriminate H.
Qed.

(** A string with a comma found in the working mapping becomes the in-clause
    over its parts, unless the identifier rule takes it. *)
Lemma comma_string_in_clause
  (isValid : string -> bool) (p : QueryParser.t) (m : obj value) (key s : string) :
  JSON_parse (QueryParser.queryStr p) = Some (VObj m) ->
  obj_get key m = Some (VStr s) ->
  key <> "$text" ->
  includes "," s = true ->
  (id_named key && isValid s)%bool = false ->
  exists p', QueryParser.filter isValid p = Some p' /\
             obj_get key (QueryParser.mongoQuery p') = Some (in_clause s).
Proof.
  intros Hparse Hget Hkey Hcomma Hid.
  destruct (filter_string_field isValid p m key s Hparse Hget Hkey)
    as [p' [Hfilter Hval]].
  exists p'. split; [exact Hfilter|]. rewrite Hval. cbn [special_value].
  destruct (comma_not_boolean s Hcomma) as [-> ->].
  rewrite Hid, Hcomma. reflexivity.
Qed.


(** ** Reading back a serialised query *)

Lemma append_assoc (a b c : string) :
  String.append (String.append a b) c = String.append a (String.append b c).
Proof.
  induction a as [|x a IH]; cbn [String.append]; [reflexivity|].
  rewrite IH. reflexivity.
Qed.

Lemma length_append (a b : string) :
  String.length (String.append a b) = (String.length a + String.length b)%nat.
Proof.
  induction a as [|x a IH]; cbn [String.append String.length]; [reflexivity|].
  rewrite IH. reflexivity.
Qed.

(** An escaped character is read back as the character. *)
Lemma parse_string_escape (c : ascii) (rest : string) :
  parse_string (String.append (json_escape c) rest) = prepend c (parse_string rest).
Proof.
  destruct c as [[] [] [] [] [] [] [] []]; reflexivity.
Qed.

Lemma parse_string_quote (s rest : string) :
  parse_string (String.append (json_escape_string s) (String dquote rest)) =
  Some (s, rest).
Proof.
  induction s as [|c s IH]; [reflexivity|].
  cbn [json_escape_string]. rewrite append_assoc, parse_string_escape, IH.
  reflexivity.
Qed.

Lemma raw_induction (P : raw -> Prop) :
  (forall s, P (RStr s)) -> (forall z, P (RNum z)) -> (forall b, P (RBool b)) ->
  (forall l, Forall P l -> P (RArr l)) ->
  (forall o, Forall (fun kv => P (snd kv)) o -> P (RObj o)) ->
  forall r, P r.
Proof.
  intros Hs Hn Hb Ha Ho. fix IH 1. intros [s|z|b|l|o].
  - apply Hs.
  - apply Hn.
  - apply Hb.
  - apply Ha. induction l as [|x l IHl]; constructor; [apply IH | exact IHl].
  - apply Ho. induction o as [|[k v] o IHo]; constructor; [apply IH | exact IHo].
Qed.

(** The characters a serialised plain value can start with. *)
Lemma stringify_head (r : raw) :
  plain r = true ->
  exists c t, JSON_stringify r = String c t /\
              is_json_ws c = false /\
              Ascii.eqb c "]" = false /\ Ascii.eqb c "}" = false.
Proof.
  destruct r as [s|z|[]|l|o]; cbn [plain JSON_stringify]; intros H;
    try discriminate; eexists; eexists; (split; [reflexivity|]);
    repeat split; reflexivity.
Qed.

Lemma join_head (sep : string) (c : ascii) (t : string) (l : list string) :
  exists t', join sep (String c t :: l) = String c t'.
Proof.
  destruct l as [|y l]; cbn [join String.append]; eexists; reflexivity.
Qed.

Lemma skip_ws_head (c : ascii) (t : string) :
  is_json_ws c = false -> skip_ws (String c t) = String c t.
Proof. intros H. cbn [skip_ws]. rewrite H. reflexivity. Qed.

(** Unfoldings of the parser on the first character. *)
Lemma parse_value_string (f : nat) (r : string) :
  parse_value (S f) (String dquote r) =
  match parse_string r with
  | Some (str, rest) => Some (VStr str, rest)
  | None => None
  end.
Proof. reflexivity. Qed.

Lemma parse_value_true (f : nat) (rest : string) :
  parse_value (S f) (String.append "true" rest) = Some (VBool true, rest).
Proof. reflexivity. Qed.

Lemma parse_value_false (f : nat) (rest : string) :
  parse_value (S f) (String.append "false" rest) = Some (VBool false, rest).
Proof. reflexivity. Qed.

Lemma parse_value_array (f : nat) (r : string) :
  parse_value (S f) (String "[" r) =
  match skip_ws r with
  | String c' r' =>
      if Ascii.eqb c' "]" then Some (VArr [], r')
      else parse_elements f [] (String c' r')
  | EmptyString => None
  end.
Proof. reflexivity. Qed.

Lemma parse_value_object (f : nat) (r : string) :
  parse_value (S f) (String "{" r) =
  match skip_ws r with
  | String c' r' =>
      if Ascii.eqb c' "}" then Some (VObj [], r')
      else parse_members f [] (String c' r')
  | EmptyString => None
  end.
Proof. reflexivity. Qed.

Lemma parse_elements_S (f : nat) (acc : list value) (s : string) :
  parse_elements (S f) acc s =
  match parse_value f s with
  | Some (v, rest) =>
      match skip_ws rest with
      | String c rest' =>
          if Ascii.eqb c "," then parse_elements f (acc ++ [v]) rest'
          else if Ascii.eqb c "]" then Some (VArr (acc ++ [v]), rest')
          else None
      | EmptyString => None
      end
  | None => None
  end.
Proof. reflexivity. Qed.

Lemma parse_members_quote (f : nat) (acc : obj value) (r : string) :
  parse_members (S f) acc (String dquote r) =
  match parse_string r with
  | Some (key, r1) =>
      match skip_ws r1 with
      | String c1 r2 =>
          if Ascii.eqb c1 ":" then
            match parse_value f r2 with
            | Some (v, r3) =>
                match skip_ws r3 with
                | String c3 r4 =>
                    if Ascii.eqb c3 ","
                    then parse_members f (obj_set key v acc) r4
                    else if Ascii.eqb c3 "}"
                         then Some (VObj (obj_set key v acc), r4)
                         else None
                | EmptyString => None
                end
            | None => None
            end
          else None
      | EmptyString => None
      end
  | None => None
  end.
Proof. reflexivity. Qed.

Lemma obj_set_fresh {A : Type} (k : string) (v : A) (m : obj A) :
  ~ In k (obj_keys m) -> obj_set k v m = m ++ [(k, v)].
Proof.
  induction m as [|[k' v'] m IH]; cbn [obj_set obj_keys map fst app]; intros H;
    [reflexivity|].
  destruct (String.eqb_spec k k') as [-> | Hne]; [exfalso; apply H; left; reflexivity|].
  rewrite IH; [reflexivity|]. intros Hin. apply H. right. exact Hin.
Qed.

Lemma distinct_NoDup (l : list string) : distinct l = true -> NoDup l.
Proof.
  induction l as [|x l IH]; cbn [distinct]; intros H; constructor.
  - apply andb_true_iff in H. destruct H as [H _].
    apply negb_true_iff in H. intros Hin.
    assert (E : existsb (String.eqb x) l = true).
    { apply existsb_exists. exists x. split; [exact Hin | apply String.eqb_refl]. }
    congruence.
  - apply IH. apply andb_true_iff in H. apply H.
Qed.


Lemma parse_elements_print (l : list raw) :
  Forall reads_back l -> forallb plain l = true -> l <> [] ->
  forall acc fuel rest,
    (fold_right (fun x n => S (size x) + n)%nat O l <= fuel)%nat ->
    parse_elements fuel acc
      (String.append (join "," (map JSON_stringify l)) (String "]" rest)) =
    Some (VArr (acc ++ map value_of_raw l), rest).
Proof.
  induction l as [|x l IH]; intros Hall Hplain Hne acc fuel rest Hfuel;
    [congruence|].
  inversion Hall as [|? ? Hx Hl]; subst.
  cbn [forallb] in Hplain. apply andb_true_iff in Hplain.
  destruct Hplain as [Hpx Hpl].
  cbn [fold_right] in Hfuel.
  destruct fuel as [|f]; [lia|].
  rewrite parse_elements_S.
  destruct l as [|y l'].
  - cbn [map join]. rewrite (Hx Hpx f _ ltac:(lia)).
    reflexivity.
  - assert (E : String.append (join "," (map JSON_stringify (x :: y :: l')))
                  (String "]" rest) =
                String.append (JSON_stringify x)
                  (String ","
                     (String.append (join "," (map JSON_stringify (y :: l')))
                        (String "]" rest)))).
    { cbn [map join]. rewrite !append_assoc. reflexivity. }
    rewrite E, (Hx Hpx f _ ltac:(lia)).
    cbn [skip_ws]. change (is_json_ws ",") with false. cbv iota.
    change (Ascii.eqb "," ",") with true. cbv iota.
    rewrite (IH Hl Hpl ltac:(discriminate) (acc ++ [value_of_raw x]) f rest
               ltac:(lia)).
    rewrite <- app_assoc. reflexivity.
Qed.

Lemma parse_members_print (o : list (string * raw)) :
  Forall (fun kv => reads_back (snd kv)) o ->
  forallb (fun kv => plain (snd kv)) o = true -> o <> [] ->
  forall acc fuel rest,
    NoDup (obj_keys acc ++ map fst o) ->
    (fold_right (fun kv n => S (size (snd kv)) + n)%nat O o <= fuel)%nat ->
    parse_members fuel acc
      (String.append (join "," (map member_text o)) (String "}" rest)) =
    Some (VObj (acc ++ entries_of_raw o), rest).
Proof.
  induction o as [|[k v] o IH]; intros Hall Hplain Hne acc fuel rest Hdup Hfuel;
    [congruence|].
  inversion Hall as [|? ? Hv Ho]; subst. cbn [snd] in Hv.
  cbn [forallb snd] in Hplain. apply andb_true_iff in Hplain.
  destruct Hplain as [Hpv Hpo].
  cbn [fold_right snd] in Hfuel.
  destruct fuel as [|f]; [lia|].
  assert (Hfresh : ~ In k (obj_keys acc)).
  { cbn [map fst] in Hdup. apply NoDup_remove_2 in Hdup.
    intros Hin. apply Hdup. apply in_or_app. left. exact Hin. }
  assert (Hmember : forall tail,
            String.append (member_text (k, v)) tail =
            String dquote
              (String.append (json_escape_string k)
                 (String dquote
                    (String ":" (String.append (JSON_stringify v) tail))))).
  { intros tail. unfold member_text, JSON_quote. cbn [fst snd String.append].
    rewrite !append_assoc. reflexivity. }
  destruct o as [|kv' o'].
  - cbn [map join]. rewrite Hmember, parse_members_quote, parse_string_quote.
    cbn [skip_ws]. change (is_json_ws ":") with false. cbv iota.
    change (Ascii.eqb ":" ":") with true. cbv iota.
    rewrite (Hv Hpv f _ ltac:(lia)).
    cbn [skip_ws]. change (is_json_ws "}") with false. cbv iota.
    change (Ascii.eqb "}" ",") with false. change (Ascii.eqb "}" "}") with true.
    cbv iota. rewrite obj_set_fresh by assumption. reflexivity.
  - assert (E : String.append (join "," (map member_text ((k, v) :: kv' :: o')))
                  (String "}" rest) =
                String.append (member_text (k, v))
                  (String ","
                     (String.append (join "," (map member_text (kv' :: o')))
                        (String "}" rest)))).
    { cbn [map join]. rewrite !append_assoc. reflexivity. }
    rewrite E, Hmember, parse_members_quote, parse_string_quote.
    cbn [skip_ws]. change (is_json_ws ":") with false. cbv iota.
    change (Ascii.eqb ":" ":") with true. cbv iota.
    rewrite (Hv Hpv f _ ltac:(lia)).
    cbn [skip_ws]. change (is_json_ws ",") with false. cbv iota.
    change (Ascii.eqb "," ",") with true. cbv iota.
    rewrite obj_set_fresh by assumption.
    rewrite (IH Ho Hpo ltac:(discriminate) (acc ++ [(k, value_of_raw v)]) f rest).
    + rewrite <- app_assoc. reflexivity.
    + unfold obj_keys in *. rewrite map_app, <- app_assoc. exact Hdup.
    + lia.
Qed.

Lemma parse_value_print (r : raw) : reads_back r.
Proof.
  induction r as [s|z|b|l IHl|o IHo] using raw_induction;
    intros Hplain fuel rest Hfuel.
  - destruct fuel as [|f]; [cbn [size] in Hfuel; lia|].
    cbn [JSON_stringify value_of_raw]. unfold JSON_quote.
    cbn [String.append]. rewrite parse_value_string, append_assoc.
    cbn [String.append]. rewrite parse_string_quote. reflexivity.
  - discriminate Hplain.
  - destruct fuel as [|f]; [cbn [size] in Hfuel; lia|].
    destruct b; cbn [JSON_stringify value_of_raw];
      [apply parse_value_true | apply parse_value_false].
  - cbn [plain] in Hplain. cbn [size] in Hfuel.
    destruct fuel as [|f]; [lia|].
    cbn [JSON_stringify value_of_raw String.append].
    rewrite parse_value_array, append_assoc. cbn [String.append].
    destruct l as [|x l'].
    + reflexivity.
    + assert (Hpx : plain x = true)
        by (cbn [forallb] in Hplain; apply andb_true_iff in Hplain; apply Hplain).
      destruct (stringify_head x Hpx) as [c [t [Ex [Hws [Hc _]]]]].
      pose proof (parse_elements_print (x :: l') IHl Hplain ltac:(discriminate)
                    [] f rest ltac:(lia)) as Hels.
      cbn [map] in Hels |- *. rewrite Ex in Hels |- *.
      destruct (join_head "," c t (map JSON_stringify l')) as [t' Et'].
      rewrite Et' in Hels |- *. cbn [String.append] in Hels |- *.
      rewrite skip_ws_head by assumption. rewrite Hc. exact Hels.
  - cbn [plain] in Hplain. apply andb_true_iff in Hplain.
    destruct Hplain as [Hkeys Hplain]. cbn [size] in Hfuel.
    destruct fuel as [|f]; [lia|].
    cbn [JSON_stringify value_of_raw String.append].
    rewrite parse_value_object, append_assoc. cbn [String.append].
    destruct o as [|[k v] o'].
    + reflexivity.
    + pose proof (parse_members_print ((k, v) :: o') IHo Hplain ltac:(discriminate)
                    [] f rest (distinct_NoDup _ Hkeys) ltac:(lia)) as Hms.
      match goal with
      | |- context [skip_ws ?X] =>
          change X with (String.append (join "," (map member_text ((k, v) :: o')))
                           (String "}" rest))
      end.
      cbn [map] in Hms |- *.
      assert (Em : exists t, member_text (k, v) = String dquote t)
        by (eexists; reflexivity).
      destruct Em as [t Em]. rewrite Em in Hms |- *.
      destruct (join_head "," dquote t (map member_text o')) as [t' Et'].
      rewrite Et' in Hms |- *. cbn [String.append] in Hms |- *.
      rewrite skip_ws_head by reflexivity.
      change (Ascii.eqb dquote "}") with false. cbv iota. exact Hms.
Qed.


Lemma entries_size_le_length (A : Type) (sz : A -> nat) (text : A -> string)
  (l : list A) :
  Forall (fun x => (sz x <= String.length (text x))%nat) l ->
  (fold_right (fun x n => S (sz x) + n)%nat O l <=
   S (String.length (join "," (map text l))))%nat.
Proof.
  induction l as [|x l IH]; intros H; [cbn; lia|].
  inversion H as [|? ? Hx Hl]; subst. specialize (IH Hl).
  destruct l as [|y l'].
  - cbn [fold_right map join]. lia.
  - cbn [fold_right map join] in IH |- *. rewrite !length_append.
    cbn [String.length]. lia.
Qed.

Lemma size_le_length (r : raw) :
  plain r = true -> (size r <= String.length (JSON_stringify r))%nat.
Proof.
  induction r as [s|z|b|l IHl|o IHo] using raw_induction; intros Hplain.
  - cbn [size JSON_stringify]. unfold JSON_quote. cbn [String.length]. lia.
  - discriminate Hplain.
  - destruct b; cbn; lia.
  - cbn [plain] in Hplain. cbn [size JSON_stringify String.append String.length].
    rewrite length_append. cbn [String.length].
    assert (H : Forall (fun x => (size x <= String.length (JSON_stringify x))%nat) l).
    { rewrite Forall_forall in IHl |- *. intros x Hx. apply IHl; [exact Hx|].
      rewrite forallb_forall in Hplain. apply Hplain. exact Hx. }
    pose proof (entries_size_le_length raw size JSON_stringify l H). lia.
  - cbn [plain] in Hplain. apply andb_true_iff in Hplain.
    destruct Hplain as [_ Hplain].
    cbn [size JSON_stringify String.append String.length].
    rewrite length_append. cbn [String.length].
    assert (H : Forall (fun kv : string * raw =>
                          (size (snd kv) <= String.length (member_text kv))%nat) o).
    { rewrite Forall_forall in IHo |- *. intros kv Hkv.
      unfold member_text. rewrite !length_append.
      assert (Hp : plain (snd kv) = true)
        by (rewrite forallb_forall in Hplain; apply Hplain; exact Hkv).
      specialize (IHo kv Hkv Hp). lia. }
    pose proof (entries_size_le_length _ (fun kv => size (snd kv)) member_text o H)
      as Hlen.
    match goal with
    | |- context [join "," ?M] => change M with (map member_text o)
    end.
    lia.
Qed.

Lemma append_empty (s : string) : String.append s "" = s.
Proof.
  induction s as [|c s IH]; cbn [String.append]; [reflexivity|].
  rewrite IH. reflexivity.
Qed.

(** [JSON.parse(JSON.stringify(r))] succeeds on every plain value and gives
    the value back: the fuel of the parser is enough. *)
Lemma JSON_parse_stringify (r : raw) :
  plain r = true -> JSON_parse (JSON_stringify r) = Some (value_of_raw r).
Proof.
  intros Hplain. unfold JSON_parse.
  pose proof (size_le_length r Hplain) as Hsize.
  pose proof (parse_value_print r Hplain (S (String.length (JSON_stringify r))) ""
                ltac:(lia)) as H.
  rewrite append_empty in H. rewrite H. reflexivity.
Qed.

(** On a plain query whose serialisation holds no stand-alone operator
    token, [filter] returns and its working mapping is the query without the
    excluded fields. *)
Lemma filter_returns_on_plain_query (isValid : string -> bool) (p : QueryParser.t) :
  plain (RObj (QueryParser.filteredQuery p)) = true ->
  replace_operators (JSON_stringify (RObj (QueryParser.filteredQuery p))) =
  JSON_stringify (RObj (QueryParser.filteredQuery p)) ->
  JSON_parse (QueryParser.queryStr p) =
    Some (VObj (entries_of_raw (QueryParser.filteredQuery p))) /\
  QueryParser.filter isValid p =
    Some (QueryParser.handleSpecialQueries isValid
            (QueryParser.with_mongoQuery
               (entries_of_raw (QueryParser.filteredQuery p)) p)).
Proof.
  intros Hplain Hsame.
  assert (H : JSON_parse (QueryParser.queryStr p) =
              Some (VObj (entries_of_raw (QueryParser.filteredQuery p)))).
  { unfold QueryParser.queryStr. rewrite Hsame.
    rewrite (JSON_parse_stringify _ Hplain). reflexivity. }
  split; [exact H|]. unfold QueryParser.filter. rewrite H. reflexivity.
Qed.


(** ** Date coercion on the working mapping *)

Lemma date_operator_eq (m : obj value) (operator : string) :
  QueryParser.date_operator m operator =
  match obj_get operator m with
  | Some v => obj_set operator (date_coerce operator v) m
  | None => m
  end.
Proof.
  unfold QueryParser.date_operator, date_coerce, is_range_operator.
  destruct (existsb (String.eqb operator) ["$gte"; "$gt"; "$lte"; "$lt"]).
  - destruct (obj_get operator m) as [v|] eqn:Hget; [|reflexivity].
    destruct v as [s| | | | | |]; try (symmetry; apply obj_set_id; exact Hget).
    destruct (QueryParser.isValidDate s); [reflexivity|].
    symmetry; apply obj_set_id; exact Hget.
  - destruct (obj_get operator m) as [v|] eqn:Hget; [|reflexivity].
    symmetry; apply obj_set_id; exact Hget.
Qed.

Lemma date_coerce_idem (operator : string) (v : value) :
  date_coerce operator (date_coerce operator v) = date_coerce operator v.
Proof.
  unfold date_coerce. destruct (is_range_operator operator); [|reflexivity].
  destruct v as [s| | | | | |]; try reflexivity.
  destruct (QueryParser.isValidDate s) eqn:E; [reflexivity|].
  rewrite E. reflexivity.
Qed.

Lemma obj_keys_set {A : Type} (k : string) (v w : A) (m : obj A) :
  obj_get k m = Some w -> obj_keys (obj_set k v m) = obj_keys m.
Proof.
  induction m as [|[k' v'] m IH]; cbn [obj_get obj_set obj_keys map fst];
    [discriminate|].
  destruct (String.eqb k k') eqn:E; intros H; cbn [map fst]; [reflexivity|].
  f_equal. apply IH. exact H.
Qed.

Lemma obj_in_keys_get {A : Type} (k : string) (m : obj A) :
  In k (obj_keys m) -> exists v, obj_get k m = Some v.
Proof.
  induction m as [|[k' v'] m IH]; cbn [obj_keys map fst obj_get]; [contradiction|].
  intros [<- | Hin].
  - rewrite String.eqb_refl. eexists. reflexivity.
  - destruct (String.eqb k k'); [eexists; reflexivity | apply IH; exact Hin].
Qed.

(** A loop whose body finds only fixed points changes nothing. *)
Lemma loop_unchanged {A : Type} (body : obj A -> string -> obj A)
  (g : string -> A -> A) (ks : list string) (m : obj A) :
  (forall m' k, body m' k = match obj_get k m' with
                            | Some v => obj_set k (g k v) m'
                            | None => m'
                            end) ->
  (forall k v, obj_get k m = Some v -> g k v = v) ->
  fold_left body ks m = m.
Proof.
  intros Hbody Hfix. induction ks as [|k ks IH]; [reflexivity|].
  cbn [fold_left]. rewrite Hbody.
  destruct (obj_get k m) as [v|] eqn:Hget; [|exact IH].
  rewrite (Hfix k v Hget), (obj_set_id _ _ _ Hget). exact IH.
Qed.

Lemma date_loop_keys (ks : list string) : forall o : obj value,
  obj_keys (fold_left QueryParser.date_operator ks o) = obj_keys o.
Proof.
  induction ks as [|k ks IH]; intros o; [reflexivity|].
  cbn [fold_left]. rewrite IH, date_operator_eq.
  destruct (obj_get k o) as [v|] eqn:Hget; [|reflexivity].
  apply obj_keys_set with (w := v). exact Hget.
Qed.

Lemma date_loop_get (o : obj value) (operator : string) (v : value) :
  obj_get operator o = Some v ->
  obj_get operator (fold_left QueryParser.date_operator (obj_keys o) o) =
  Some (date_coerce operator v).
Proof.
  intros Hget.
  apply (loop_visited _ _ date_operator_eq).
  - apply obj_get_in_keys with (v := v). exact Hget.
  - exact Hget.
  - apply date_coerce_idem.
Qed.

Lemma date_value_idem (v : value) : date_value (date_value v) = date_value v.
Proof.
  destruct v as [| | | |o| |]; try reflexivity.
  cbn [date_value]. f_equal.
  apply (loop_unchanged _ _ _ _ date_operator_eq).
  intros k w Hw.
  assert (Hin : In k (obj_keys o)).
  { rewrite <- (date_loop_keys (obj_keys o) o).
    apply obj_get_in_keys with (v := w). exact Hw. }
  destruct (obj_in_keys_get _ _ Hin) as [v0 Hv0].
  rewrite (date_loop_get o k v0 Hv0) in Hw.
  injection Hw as <-. apply date_coerce_idem.
Qed.

(** Under a field of the working mapping that holds an operator mapping
    without a [$regex], the bound of a range operator becomes a date exactly
    when the Date constructor accepts the string. *)
Lemma range_bound_coercion
  (isValid : string -> bool) (p : QueryParser.t) (m o : obj value)
  (key operator s : string) :
  JSON_parse (QueryParser.queryStr p) = Some (VObj m) ->
  obj_get key m = Some (VObj o) ->
  obj_get "$regex" o = None ->
  key <> "$text" ->
  is_range_operator operator = true ->
  obj_get operator o = Some (VStr s) ->
  exists p' o',
    QueryParser.filter isValid p = Some p' /\
    obj_get key (QueryParser.mongoQuery p') = Some (VObj o') /\
    obj_get operator o' =
      Some (if QueryParser.isValidDate s then VDate s else VStr s).
Proof.
  intros Hparse Hget Hre Hkey Hop Hbound.
  unfold QueryParser.filter. rewrite Hparse.
  eexists. exists (fold_left QueryParser.date_operator (obj_keys o) o).
  split; [reflexivity|].
  unfold QueryParser.handleSpecialQueries.
  cbn [QueryParser.mongoQuery QueryParser.with_mongoQuery QueryParser.query].
  set (m1 := fold_left (QueryParser.special_key isValid) (obj_keys m) m).
  assert (Hsv : special_value isValid key (VObj o) = VObj o)
    by (cbn [special_value]; rewrite Hre; reflexivity).
  assert (H1 : obj_get key m1 = Some (VObj o)).
  { rewrite <- Hsv.
    apply (loop_visited _ _ (special_key_eq isValid)).
    - apply obj_get_in_keys with (v := VObj o). exact Hget.
    - exact Hget.
    - rewrite !Hsv. reflexivity. }
  set (m2 := match obj_get "search" (QueryParser.query p) with
             | Some search => _
             | None => m1
             end).
  assert (H2 : obj_get key m2 = Some (VObj o)).
  { subst m2. destruct (obj_get "search" (QueryParser.query p)) as [r|]; [|exact H1].
    destruct (raw_truthy r); [|exact H1].
    rewrite obj_get_set_other by congruence. exact H1. }
  split.
  - unfold QueryParser.handleDateRanges.
    change (VObj (fold_left QueryParser.date_operator (obj_keys o) o))
      with (date_value (VObj o)).
    apply (loop_visited _ _ date_range_key_eq).
    + apply obj_get_in_keys with (v := VObj o). exact H2.
    + exact H2.
    + apply date_value_idem.
  - rewrite (date_loop_get o operator (VStr s) Hbound).
    unfold date_coerce. rewrite Hop. reflexivity.
Qed.


(** ** The operator rewriting, word by word *)

Lemma strip_prefix_app (t s rest : string) :
  strip_prefix t s = Some rest -> s = String.append t rest.
Proof.
  revert s. induction t as [|a t IH]; intros s H.
  - cbn in H. injection H as <-. reflexivity.
  - destruct s as [|b s]; [discriminate|]. cbn [strip_prefix] in H.
    destruct (Ascii.eqb_spec a b) as [<- | ]; [|discriminate].
    cbn [String.append]. f_equal. apply IH. exact H.
Qed.

Lemma strip_prefix_self (t rest : string) :
  strip_prefix t (String.append t rest) = Some rest.
Proof.
  induction t as [|a t IH]; [reflexivity|].
  cbn [String.append strip_prefix]. rewrite Ascii.eqb_refl. exact IH.
Qed.

(** A run of word characters followed by a character that is none, or by
    the end, is the word at the start. *)
Lemma word_at_app (w rest : string) :
  all_chars is_word_char w = true ->
  opt_is_word (head_char rest) = false ->
  word_at (String.append w rest) = w.
Proof.
  intros Hw Hrest. induction w as [|c w IH].
  - destruct rest as [|c r]; [reflexivity|]. cbn in Hrest |- *.
    rewrite Hrest. reflexivity.
  - cbn [all_chars] in Hw. apply andb_true_iff in Hw. destruct Hw as [Hc Hw].
    cbn [String.append word_at]. rewrite Hc, (IH Hw). reflexivity.
Qed.

Lemma word_at_split (s : string) :
  exists rest, s = String.append (word_at s) rest /\
               all_chars is_word_char (word_at s) = true /\
               opt_is_word (head_char rest) = false.
Proof.
  induction s as [|c s [rest [E [Hall Hrest]]]].
  - exists EmptyString. repeat split.
  - cbn [word_at]. destruct (is_word_char c) eqn:Hc.
    + exists rest. cbn [String.append all_chars]. rewrite Hc, <- E.
      repeat split; assumption.
    + exists (String c s). cbn. rewrite Hc. repeat split.
Qed.

Lemma last_char_word (w : string) (d : option ascii) :
  all_chars is_word_char w = true -> w <> EmptyString ->
  opt_is_word (last_char d w) = true.
Proof.
  revert d. induction w as [|c w IH]; intros d Hall Hne; [congruence|].
  cbn [all_chars] in Hall. apply andb_true_iff in Hall. destruct Hall as [Hc Hw].
  cbn [last_char]. destruct w as [|c' w'].
  - cbn. exact Hc.
  - apply IH; [exact Hw | discriminate].
Qed.

Lemma operator_tokens_words :
  Forall (fun t => all_chars is_word_char t = true /\ t <> EmptyString)
         operator_tokens.
Proof. repeat constructor; discriminate. Qed.

(** What a successful match of the alternatives says. *)
Lemma match_token_some (tokens : list string) (s tok rest : string) :
  match_token tokens s = Some (tok, rest) ->
  In tok tokens /\ strip_prefix tok s = Some rest /\
  word_boundary (last_char None tok) (head_char rest) = true.
Proof.
  induction tokens as [|t more IH]; cbn [match_token]; [discriminate|].
  destruct (strip_prefix t s) as [r|] eqn:Hp.
  - destruct (word_boundary (last_char None t) (head_char r)) eqn:Hb.
    + intros H. injection H as <- <-. repeat split; auto. left. reflexivity.
    + intros H. destruct (IH H) as [Hin Hrest]. split; [right; exact Hin | exact Hrest].
  - intros H. destruct (IH H) as [Hin Hrest]. split; [right; exact Hin | exact Hrest].
Qed.

(** The alternatives fail only if none of them is the word at the start. *)
Lemma match_token_none (tokens : list string) (s : string) :
  Forall (fun t => all_chars is_word_char t = true /\ t <> EmptyString) tokens ->
  match_token tokens s = None ->
  existsb (String.eqb (word_at s)) tokens = false.
Proof.
  induction tokens as [|t more IH]; intros Hall H; [reflexivity|].
  inversion Hall as [|? ? [Ht Hne] Hmore]; subst.
  cbn [match_token] in H. cbn [existsb].
  assert (Hrest : match_token more s = None /\ word_at s <> t).
  { destruct (word_at_split s) as [rest [E [Hw Hrest]]].
    destruct (strip_prefix t s) as [r|] eqn:Hp.
    - destruct (word_boundary (last_char None t) (head_char r)) eqn:Hb;
        [discriminate|]. split; [exact H|].
      intros Eq. rewrite E, Eq, strip_prefix_self in Hp. injection Hp as <-.
      unfold word_boundary in Hb.
      rewrite (last_char_word t None Ht Hne), Hrest in Hb. discriminate.
    - split; [exact H|]. intros Eq.
      rewrite E, Eq, strip_prefix_self in Hp. discriminate. }
  destruct Hrest as [Hnone Hneq].
  rewrite (IH Hmore Hnone).
  destruct (String.eqb_spec (word_at s) t); [contradiction | reflexivity].
Qed.

Lemma prefix_operator_words_inside (w rest : string) :
  all_chars is_word_char w = true ->
  prefix_operator_words true (String.append w rest) =
  String.append w (prefix_operator_words true rest).
Proof.
  intros Hw. induction w as [|c w IH]; [reflexivity|].
  cbn [all_chars] in Hw. apply andb_true_iff in Hw. destruct Hw as [Hc Hw].
  cbn [String.append prefix_operator_words negb andb].
  rewrite Hc, (IH Hw). reflexivity.
Qed.

Lemma replace_from_words (fuel : nat) : forall (prev : option ascii) (s : string),
  (String.length s <= fuel)%nat ->
  replace_from fuel prev s = prefix_operator_words (opt_is_word prev) s.
Proof.
  induction fuel as [|fuel IH]; intros prev s Hlen.
  - destruct s; [reflexivity | cbn in Hlen; lia].
  - destruct s as [|c r]; [reflexivity|].
    cbn [String.length] in Hlen.
    cbn [replace_from prefix_operator_words].
    unfold word_boundary at 1. cbn [opt_is_word].
    destruct (xorb (opt_is_word prev) (is_word_char c)) eqn:Hb.
    + destruct (match_token operator_tokens (String c r)) as [[tok rest]|] eqn:Hm.
      * destruct (match_token_some _ _ _ _ Hm) as [Hin [Hp Hbound]].
        pose proof operator_tokens_words as Hall.
        rewrite Forall_forall in Hall. destruct (Hall tok Hin) as [Hw Hne].
        pose proof (strip_prefix_app _ _ _ Hp) as E.
        unfold word_boundary in Hbound.
        rewrite (last_char_word tok None Hw Hne) in Hbound.
        assert (Hrest : opt_is_word (head_char rest) = false)
          by (destruct (opt_is_word (head_char rest)); [discriminate | reflexivity]).
        assert (Hword : word_at (String c r) = tok)
          by (rewrite E; apply word_at_app; assumption).
        assert (Htok : is_operator_token tok = true).
        { unfold is_operator_token. apply existsb_exists. exists tok.
          split; [exact Hin | apply String.eqb_refl]. }
        destruct tok as [|c' tok']; [congruence|].
        cbn [String.append] in E. injection E as <- Er.
        cbn [all_chars] in Hw. apply andb_true_iff in Hw. destruct Hw as [Hc Hw'].
        rewrite Hc in Hb |- *.
        destruct (opt_is_word prev); [discriminate|].
        cbn [negb andb]. rewrite Hword, Htok.
        rewrite Er, (prefix_operator_words_inside tok' rest Hw').
        cbn [String.append]. f_equal. f_equal. f_equal.
        rewrite IH.
        -- rewrite (last_char_word (String c tok') prev); [reflexivity| |discriminate].
           cbn [all_chars]. rewrite Hc, Hw'. reflexivity.
        -- rewrite Er in Hlen. rewrite length_append in Hlen. lia.
      * rewrite (IH (Some c) r ltac:(lia)). cbn [opt_is_word].
        pose proof (match_token_none _ _ operator_tokens_words Hm) as Hno.
        unfold is_operator_token. rewrite Hno.
        rewrite !andb_false_r. reflexivity.
    + rewrite (IH (Some c) r ltac:(lia)). cbn [opt_is_word].
      destruct (opt_is_word prev), (is_word_char c); try discriminate;
        reflexivity.
Qed.

(** C9.  The operator recognition rewrites the serialised text of the whole
    query: the text handed to the parser is the serialisation with [$] put
    before every word that is one of the tokens, wherever the word stands,
    so that a stand-alone token is prefixed inside string values and inside
    field names as well as in operator mappings. *)
Theorem operator_rewriting_is_textual :
  (forall p, QueryParser.queryStr p =
             prefix_operator_words false
               (JSON_stringify (RObj (QueryParser.filteredQuery p)))) /\
  option_map QueryParser.mongoQuery
    (QueryParser.filter is_objectId_format
       (QueryParser.createQueryParser [("status", RStr "log in now")] None)) =
  Some [("status", VStr "log $in now")] /\
  option_map QueryParser.mongoQuery
    (QueryParser.filter is_objectId_format
       (QueryParser.createQueryParser
          [("note", RStr "gte gt lte lt in nin ne regex")] None)) =
  Some [("note", VStr "$gte $gt $lte $lt $in $nin $ne $regex")] /\
  option_map QueryParser.mongoQuery
    (QueryParser.filter is_objectId_format
       (QueryParser.createQueryParser [("check-in", RStr "monday")] None)) =
  Some [("check-$in", VStr "monday")] /\
  option_map QueryParser.mongoQuery
    (QueryParser.filter is_objectId_format
       (QueryParser.createQueryParser
          [("status", RObj [("ne", RStr "archived")]);
           ("tags", RObj [("in", RArr [RStr "a"; RStr "b"])])] None)) =
  Some [("status", VObj [("$ne", VStr "archived")]);
        ("tags", VObj [("$in", VArr [VStr "a"; VStr "b"])])].
Proof.
  split.
  - intros p. unfold QueryParser.queryStr, replace_operators.
    apply (replace_from_words _ None). lia.
  - vm_compute. repeat split; reflexivity.
Qed.

(** X1.  The operator regular expression puts [$] before a word exactly when
    the whole word (a maximal run of letters, digits and underscores) is one
    of gte, gt, lte, lt, in, nin, ne, regex; no other character of the text
    is changed. *)
Theorem replace_operators_words (s : string) :
  replace_operators s = prefix_operator_words false s.
Proof.
  unfold replace_operators. apply (replace_from_words _ None). lia.
Qed.


(** ** Every field of the working mapping *)

Lemma special_value_idem_all (isValid : string -> bool) (key : string) (v : value) :
  special_value isValid key (special_value isValid key v) =
  special_value isValid key v.
Proof.
  destruct v as [s| | | |o| |]; try reflexivity.
  - apply special_value_idem.
  - cbn [special_value]. destruct (obj_get "$regex" o) as [re|] eqn:Hre.
    + destruct (value_truthy re) eqn:Ht.
      * cbn [special_value obj_get]. cbn. rewrite Ht.
        destruct (obj_get "$options" o) as [opts|]; [|reflexivity].
        destruct (value_truthy opts) eqn:Ho; [rewrite Ho|]; reflexivity.
      * cbn [special_value]. rewrite Hre, Ht. reflexivity.
    + cbn [special_value]. rewrite Hre. reflexivity.
Qed.

(** What [filter] leaves under a field of the working mapping, other than
    the [$text] of the search. *)
Lemma filter_field
  (isValid : string -> bool) (p : QueryParser.t) (m : obj value)
  (key : string) (v : value) :
  JSON_parse (QueryParser.queryStr p) = Some (VObj m) ->
  obj_get key m = Some v ->
  key <> "$text" ->
  exists p', QueryParser.filter isValid p = Some p' /\
             obj_get key (QueryParser.mongoQuery p') =
             Some (date_value (special_value isValid key v)).
Proof.
  intros Hparse Hget Hkey. unfold QueryParser.filter. rewrite Hparse.
  eexists. split; [reflexivity|].
  unfold QueryParser.handleSpecialQueries.
  cbn [QueryParser.mongoQuery QueryParser.with_mongoQuery QueryParser.query].
  set (m1 := fold_left (QueryParser.special_key isValid) (obj_keys m) m).
  assert (H1 : obj_get key m1 = Some (special_value isValid key v)).
  { apply (loop_visited _ _ (special_key_eq isValid)).
    - apply obj_get_in_keys with (v := v). exact Hget.
    - exact Hget.
    - apply special_value_idem_all. }
  set (m2 := match obj_get "search" (QueryParser.query p) with
             | Some search => _
             | None => m1
             end).
  assert (H2 : obj_get key m2 = Some (special_value isValid key v)).
  { subst m2. destruct (obj_get "search" (QueryParser.query p)) as [r|]; [|exact H1].
    destruct (raw_truthy r); [|exact H1].
    rewrite obj_get_set_other by congruence. exact H1. }
  unfold QueryParser.handleDateRanges.
  apply (loop_visited _ _ date_range_key_eq).
  - apply obj_get_in_keys with (v := special_value isValid key v). exact H2.
  - exact H2.
  - apply date_value_idem.
Qed.

(** X2.  A field of the working mapping whose operator mapping carries a
    truthy [$regex] is replaced by exactly [{ $regex, $options }], with
    [$options] defaulting to ['i']: every other operator given for the same
    field is dropped. *)
Theorem regex_clause_replaces_field
  (isValid : string -> bool) (p : QueryParser.t) (m o : obj value)
  (key : string) (re : value) :
  JSON_parse (QueryParser.queryStr p) = Some (VObj m) ->
  obj_get key m = Some (VObj o) ->
  key <> "$text" ->
  obj_get "$regex" o = Some re ->
  value_truthy re = true ->
  exists p',
    QueryParser.filter isValid p = Some p' /\
    obj_get key (QueryParser.mongoQuery p') =
    Some (VObj [("$regex", re);
                ("$options",
                 match obj_get "$options" o with
                 | Some opts => if value_truthy opts then opts else VStr "i"
                 | None => VStr "i"
                 end)]).
Proof.
  intros Hparse Hget Hkey Hre Ht.
  destruct (filter_field isValid p m key (VObj o) Hparse Hget Hkey)
    as [p' [Hf Hv]].
  exists p'. split; [exact Hf|]. rewrite Hv.
  cbn [special_value]. rewrite Hre, Ht. reflexivity.
Qed.

Lemma regex_clause_replaces_field_witness :
  exists p',
    QueryParser.filter is_objectId_format sample_regex_parser = Some p' /\
    obj_get "name" (QueryParser.mongoQuery p') =
    Some (VObj [("$regex", VStr "jo"); ("$options", VStr "i")]).
Proof.
  apply (regex_clause_replaces_field is_objectId_format sample_regex_parser
           [("name", VObj [("$regex", VStr "jo"); ("$gte", VStr "a")])]
           [("$regex", VStr "jo"); ("$gte", VStr "a")] "name" (VStr "jo")).
  - reflexivity.
  - reflexivity.
  - discriminate.
  - reflexivity.
  - reflexivity.
Defined.

(** X3.  A string of the working mapping that spells true or false, in any
    letter case, becomes the boolean, whatever the field is called and
    whatever the identifier check says of it. *)
Theorem boolean_coercion
  (isValid : string -> bool) (p : QueryParser.t) (m : obj value) (key s : string) :
  JSON_parse (QueryParser.queryStr p) = Some (VObj m) ->
  obj_get key m = Some (VStr s) ->
  key <> "$text" ->
  (toLowerCase s = "true" \/ toLowerCase s = "false") ->
  exists p',
    QueryParser.filter isValid p = Some p' /\
    obj_get key (QueryParser.mongoQuery p') =
    Some (VBool (String.eqb (toLowerCase s) "true")).
Proof.
  intros Hparse Hget Hkey Hs.
  destruct (filter_string_field isValid p m key s Hparse Hget Hkey)
    as [p' [Hf Hv]].
  exists p'. split; [exact Hf|]. rewrite Hv. cbn [special_value].
  unfold is_true_literal, is_false_literal.
  destruct Hs as [-> | ->]; reflexivity.
Qed.

Lemma boolean_coercion_witness :
  exists p',
    QueryParser.filter is_objectId_format sample_boolean_parser = Some p' /\
    obj_get "inStock" (QueryParser.mongoQuery p') = Some (VBool true).
Proof.
  apply (boolean_coercion is_objectId_format sample_boolean_parser
           [("inStock", VStr "TRUE")] "inStock" "TRUE").
  - reflexivity.
  - reflexivity.
  - discriminate.
  - left. reflexivity.
Defined.


(** ** The fields of the filter *)

Lemma loop_keys {A : Type} (body : obj A -> string -> obj A)
  (g : string -> A -> A) (ks : list string) :
  (forall m k, body m k = match obj_get k m with
                          | Some v => obj_set k (g k v) m
                          | None => m
                          end) ->
  forall m, obj_keys (fold_left body ks m) = obj_keys m.
Proof.
  intros Hbody. induction ks as [|k ks IH]; intros m; [reflexivity|].
  cbn [fold_left]. rewrite IH, Hbody.
  destruct (obj_get k m) as [v|] eqn:Hget; [|reflexivity].
  apply obj_keys_set with (w := v). exact Hget.
Qed.

Lemma in_keys_set {A : Type} (k k' : string) (v : A) (m : obj A) :
  In k' (obj_keys (obj_set k v m)) <-> k' = k \/ In k' (obj_keys m).
Proof.
  induction m as [|[k1 v1] m IH]; cbn [obj_set obj_keys map fst In].
  - split; [intros [<- | []]; left; reflexivity | intros [-> | []]; left; reflexivity].
  - destruct (String.eqb_spec k k1) as [-> | Hne]; cbn [map fst In].
    + split; [intros H; right; exact H | intros [-> | H]; [left; reflexivity | exact H]].
    + fold (obj_keys (obj_set k v m)). fold (obj_keys m). rewrite IH.
      split; [intros [H | [H | H]] | intros [H | [H | H]]]; auto.
Qed.

Lemma in_keys_delete {A : Type} (k f : string) (o : obj A) :
  In k (obj_keys (obj_delete f o)) <-> In k (obj_keys o) /\ k <> f.
Proof.
  induction o as [|[k1 v1] o IH]; cbn [obj_delete obj_keys map fst In].
  - split; [contradiction | intros [[] _]].
  - fold (obj_keys o). destruct (String.eqb_spec f k1) as [-> | Hne].
    + rewrite IH. split.
      * intros [H1 H2]. split; [right; exact H1 | exact H2].
      * intros [[<- | H1] H2]; [congruence | split; assumption].
    + cbn [obj_keys map fst In]. fold (obj_keys (obj_delete f o)). rewrite IH.
      split.
      * intros [<- | [H1 H2]]; [split; [left; reflexivity | congruence]|].
        split; [right; exact H1 | exact H2].
      * intros [[<- | H1] H2]; [left; reflexivity | right; split; assumption].
Qed.

Lemma in_keys_filteredQuery (p : QueryParser.t) (k : string) :
  In k (obj_keys (QueryParser.filteredQuery p)) <->
  In k (obj_keys (QueryParser.query p)) /\ ~ In k (QueryParser.excludeFields p).
Proof.
  unfold QueryParser.filteredQuery.
  generalize (QueryParser.query p).
  induction (QueryParser.excludeFields p) as [|f fs IH]; intros q; cbn [fold_left].
  - split; [intros H; split; [exact H | intros []] | intros [H _]; exact H].
  - rewrite IH, in_keys_delete. cbn [In]. split.
    + intros [[H1 H2] H3]. split; [exact H1|]. intros [E | E]; [congruence | auto].
    + intros [H1 H2]. split.
      * split; [exact H1 | intros E; apply H2; left; congruence].
      * intros E. apply H2. right. exact E.
Qed.

Lemma keys_entries_of_raw (o : list (string * raw)) :
  obj_keys (entries_of_raw o) = obj_keys o.
Proof.
  unfold obj_keys, entries_of_raw. rewrite map_map. reflexivity.
Qed.

(** X4.  On a plain query whose serialisation holds no stand-alone operator
    token, [filter] returns, and the fields of the filter are exactly the
    fields of the query that are not excluded, together with [$text] when a
    search term is given: no other field is dropped and none is invented. *)
Theorem filter_keeps_the_fields (isValid : string -> bool) (p : QueryParser.t) :
  plain (RObj (QueryParser.filteredQuery p)) = true ->
  replace_operators (JSON_stringify (RObj (QueryParser.filteredQuery p))) =
  JSON_stringify (RObj (QueryParser.filteredQuery p)) ->
  exists p',
    QueryParser.filter isValid p = Some p' /\
    forall k,
      In k (obj_keys (QueryParser.mongoQuery p')) <->
      (In k (obj_keys (QueryParser.query p)) /\
       ~ In k (QueryParser.excludeFields p)) \/
      (k = "$text" /\ has_search p = true).
Proof.
  intros Hplain Hsame.
  assert (Hparse : JSON_parse (QueryParser.queryStr p) =
                   Some (VObj (entries_of_raw (QueryParser.filteredQuery p)))).
  { unfold QueryParser.queryStr. rewrite Hsame.
    rewrite (JSON_parse_stringify _ Hplain). reflexivity. }
  unfold QueryParser.filter. rewrite Hparse.
  eexists. split; [reflexivity|]. intros k.
  unfold QueryParser.handleSpecialQueries, QueryParser.handleDateRanges.
  cbn [QueryParser.mongoQuery QueryParser.with_mongoQuery QueryParser.query].
  rewrite (loop_keys _ _ _ date_range_key_eq).
  unfold has_search.
  destruct (obj_get "search" (QueryParser.query p)) as [r|].
  - destruct (raw_truthy r).
    + rewrite in_keys_set, (loop_keys _ _ _ (special_key_eq isValid)).
      rewrite keys_entries_of_raw, in_keys_filteredQuery.
      split; [intros [-> | H]; [right; split; reflexivity | left; exact H]|].
      intros [H | [-> _]]; [right; exact H | left; reflexivity].
    + rewrite (loop_keys _ _ _ (special_key_eq isValid)).
      rewrite keys_entries_of_raw, in_keys_filteredQuery.
      split; [intros H; left; exact H | intros [H | [_ H]]; [exact H | discriminate]].
  - rewrite (loop_keys _ _ _ (special_key_eq isValid)).
    rewrite keys_entries_of_raw, in_keys_filteredQuery.
    split; [intros H; left; exact H | intros [H | [_ H]]; [exact H | discriminate]].
Qed.

Lemma filter_keeps_the_fields_witness :
  exists p',
    QueryParser.filter is_objectId_format sample_fields_parser = Some p' /\
    In "status" (obj_keys (QueryParser.mongoQuery p')) /\
    ~ In "page" (obj_keys (QueryParser.mongoQuery p')) /\
    ~ In "fields" (obj_keys (QueryParser.mongoQuery p')).
Proof.
  destruct (filter_keeps_the_fields is_objectId_format sample_fields_parser
              eq_refl eq_refl) as [p' [Hf Hk]].
  exists p'. split; [exact Hf|]. repeat split.
  - apply Hk. left. split; [cbn; auto|]. cbn. intuition discriminate.
  - intros H. apply Hk in H. destruct H as [[_ H] | [H _]]; [|discriminate].
    apply H. cbn. auto.
  - intros H. apply Hk in H. destruct H as [[_ H] | [H _]]; [|discriminate].
    apply H. cbn. auto.
Defined.


(** ** Sorting and field selection *)

Lemma split_nonempty (sep : ascii) (s : string) : split sep s <> [].
Proof.
  destruct s as [|c r]; cbn [split]; [discriminate|].
  destruct (Ascii.eqb c sep); [discriminate|].
  destruct (split sep r); discriminate.
Qed.

(** Splitting at the commas and joining with spaces replaces the commas. *)
Lemma join_split_commas (s : string) :
  join " " (split "," s) = replace_char "," " " s.
Proof.
  induction s as [|c r IH]; [reflexivity|].
  cbn [split replace_char]. pose proof (split_nonempty "," r) as Hne.
  destruct (Ascii.eqb c ",").
  - destruct (split "," r) as [|h t]; [congruence|].
    cbn [join String.append] in IH |- *. rewrite IH. reflexivity.
  - destruct (split "," r) as [|h t]; [congruence|].
    rewrite <- IH. destruct t; reflexivity.
Qed.

Lemma includes_colon_commas (s : string) :
  includes ":" (replace_char "," " " s) = includes ":" s.
Proof.
  induction s as [|c r IH]; [reflexivity|].
  cbn [replace_char includes]. rewrite IH. f_equal.
  unfold starts_with. cbn [strip_prefix].
  destruct (Ascii.eqb_spec c ",") as [-> | _]; [reflexivity|].
  destruct (Ascii.eqb ":" c); reflexivity.
Qed.

Lemma string_not_empty (s : string) : s <> "" -> string_is_empty s = false.
Proof. destruct s; [congruence | reflexivity]. Qed.

(** X5.  A sort string without a colon is handed to the storage layer with
    its commas turned into spaces and nothing else changed. *)
Theorem sort_plain_string (p : QueryParser.t) (s : string) :
  obj_get "sort" (QueryParser.query p) = Some (RStr s) ->
  s <> "" ->
  includes ":" s = false ->
  exists p',
    QueryParser.sort p = Some p' /\
    QueryParser.sortOptions p' = SortStr (replace_char "," " " s).
Proof.
  intros Hget Hne Hcolon. unfold QueryParser.sort.
  rewrite Hget, (string_not_empty s Hne), join_split_commas.
  rewrite includes_colon_commas, Hcolon.
  eexists. split; reflexivity.
Qed.

Lemma sort_plain_string_witness :
  exists p',
    QueryParser.sort (QueryParser.createQueryParser
                        [("sort", RStr "name,-price")] None) = Some p' /\
    QueryParser.sortOptions p' = SortStr "name -price".
Proof.
  apply (sort_plain_string
           (QueryParser.createQueryParser [("sort", RStr "name,-price")] None)
           "name,-price").
  - reflexivity.
  - discriminate.
  - reflexivity.
Defined.

(** X6.  A non-empty [fields] string becomes the selection with its commas
    turned into spaces; the filter and the sort options are left as they
    were. *)
Theorem select_fields_string (p : QueryParser.t) (s : string) :
  obj_get "fields" (QueryParser.query p) = Some (RStr s) ->
  s <> "" ->
  exists p',
    QueryParser.select p = Some p' /\
    QueryParser.selectFields p' = replace_char "," " " s /\
    QueryParser.mongoQuery p' = QueryParser.mongoQuery p /\
    QueryParser.sortOptions p' = QueryParser.sortOptions p.
Proof.
  intros Hget Hne. unfold QueryParser.select.
  rewrite Hget, (string_not_empty s Hne), join_split_commas.
  eexists. repeat split; reflexivity.
Qed.

Lemma select_fields_string_witness :
  exists p',
    QueryParser.select sample_fields_parser = Some p' /\
    QueryParser.selectFields p' = "name price" /\
    QueryParser.mongoQuery p' = QueryParser.mongoQuery sample_fields_parser /\
    QueryParser.sortOptions p' = QueryParser.sortOptions sample_fields_parser.
Proof.
  apply (select_fields_string sample_fields_parser "name,price").
  - reflexivity.
  - discriminate.
Defined.

Lemma split_no_separator (sep : ascii) (s : string) :
  includes (String sep EmptyString) s = false -> split sep s = [s].
Proof.
  induction s as [|c r IH]; [reflexivity|].
  cbn [includes]. unfold starts_with. cbn [strip_prefix].
  intros H. apply orb_false_iff in H. destruct H as [Hc Hr].
  cbn [split]. rewrite (IH Hr).
  destruct (Ascii.eqb_spec c sep) as [-> | _]; [|reflexivity].
  rewrite Ascii.eqb_refl in Hc. discriminate.
Qed.

Lemma obj_get_insert_same {A : Type} (k : string) (n : Z) (v : A) (o : obj A) :
  obj_get k (insert_index k n v o) = Some v.
Proof.
  induction o as [|[k' v'] o IH]; cbn [insert_index obj_get].
  - rewrite String.eqb_refl. reflexivity.
  - destruct (String.eqb k k') eqn:E.
    + cbn [obj_get]. rewrite E. reflexivity.
    + destruct (array_index k') as [n'|].
      * destruct (n <? n'); cbn [obj_get].
        -- rewrite String.eqb_refl. reflexivity.
        -- rewrite E. exact IH.
      * cbn [obj_get]. rewrite String.eqb_refl. reflexivity.
Qed.

Lemma obj_get_insert_other {A : Type} (k k0 : string) (n : Z) (v : A) (o : obj A) :
  k <> k0 -> obj_get k0 (insert_index k n v o) = obj_get k0 o.
Proof.
  intros Hne.
  assert (E0 : String.eqb k0 k = false) by (apply String.eqb_neq; congruence).
  induction o as [|[k' v'] o IH]; cbn [insert_index obj_get].
  - rewrite E0. reflexivity.
  - destruct (String.eqb_spec k k') as [<- | Hk].
    + cbn [obj_get]. rewrite E0. reflexivity.
    + destruct (array_index k') as [n'|].
      * destruct (n <? n'); cbn [obj_get].
        -- rewrite E0. reflexivity.
        -- rewrite IH. reflexivity.
      * cbn [obj_get]. rewrite E0. reflexivity.
Qed.

Lemma obj_get_assign_same {A : Type} (k : string) (v : A) (o : obj A) :
  obj_get k (obj_assign k v o) = Some v.
Proof.
  unfold obj_assign. destruct (array_index k);
    [apply obj_get_insert_same | apply obj_get_set_same].
Qed.

Lemma obj_get_assign_other {A : Type} (k k0 : string) (v : A) (o : obj A) :
  k <> k0 -> obj_get k0 (obj_assign k v o) = obj_get k0 o.
Proof.
  intros Hne. unfold obj_assign. destruct (array_index k);
    [apply obj_get_insert_other | apply obj_get_set_other]; exact Hne.
Qed.

Lemma sort_pair_get (o : obj number) (pair field : string) :
  field <> "__proto__" ->
  obj_get field (QueryParser.sort_pair o pair) =
  if String.eqb (pair_field pair) field
  then Some (num_or (parseInt (pair_direction pair)) (int 1))
  else obj_get field o.
Proof.
  intros Hf. unfold QueryParser.sort_pair, pair_field, pair_direction.
  assert (Ed : match tl (split ":" pair) with d :: _ => d | [] => "undefined" end =
               nth 1 (split ":" pair) "undefined")
    by (destruct (split ":" pair) as [|a [|b t]]; reflexivity).
  rewrite Ed.
  destruct (String.eqb_spec (hd "" (split ":" pair)) "__proto__") as [E | _].
  - destruct (String.eqb_spec (hd "" (split ":" pair)) field) as [E' | _];
      [congruence | reflexivity].
  - destruct (String.eqb_spec (hd "" (split ":" pair)) field) as [<- | Hne].
    + apply obj_get_assign_same.
    + apply obj_get_assign_other. exact Hne.
Qed.

Lemma sort_pair_proto (o : obj number) (pair : string) :
  obj_get "__proto__" (QueryParser.sort_pair o pair) = obj_get "__proto__" o.
Proof.
  unfold QueryParser.sort_pair.
  destruct (String.eqb_spec (hd "" (split ":" pair)) "__proto__") as [E | Hne];
    [reflexivity|].
  apply obj_get_assign_other. exact Hne.
Qed.

Lemma find_app_last {A : Type} (f : A -> bool) (l : list A) (x : A) :
  List.find f (l ++ [x]) =
  match List.find f l with
  | Some y => Some y
  | None => if f x then Some x else None
  end.
Proof.
  induction l as [|y l IH]; cbn [app List.find]; [reflexivity|].
  destruct (f y); [reflexivity | exact IH].
Qed.

(** The sort object holds, under a field, what the last pair naming the
    field assigned. *)
Lemma sort_pairs_get (pairs : list string) : forall (o : obj number) (field : string),
  field <> "__proto__" ->
  obj_get field (fold_left QueryParser.sort_pair pairs o) =
  match last_pair field pairs with
  | Some pr => Some (num_or (parseInt (pair_direction pr)) (int 1))
  | None => obj_get field o
  end.
Proof.
  induction pairs as [|pr rest IH]; intros o field Hf; [reflexivity|].
  cbn [fold_left]. rewrite (IH _ field Hf), (sort_pair_get o pr field Hf).
  unfold last_pair. cbn [rev]. rewrite find_app_last.
  destruct (List.find (fun pair0 => String.eqb (pair_field pair0) field) (rev rest));
    [reflexivity|].
  destruct (String.eqb (pair_field pr) field); reflexivity.
Qed.

Lemma sort_pairs_proto (pairs : list string) : forall o : obj number,
  obj_get "__proto__" (fold_left QueryParser.sort_pair pairs o) =
  obj_get "__proto__" o.
Proof.
  induction pairs as [|pr rest IH]; intros o; [reflexivity|].
  cbn [fold_left]. rewrite IH. apply sort_pair_proto.
Qed.

(** [x || y] is [x] when [x] is truthy and [y] otherwise. *)
Lemma num_or_cases (x y : number) :
  (truthy x = true /\ num_or x y = x) \/ (truthy x = false /\ num_or x y = y).
Proof.
  unfold num_or. destruct (truthy x); [left | right]; split; reflexivity.
Qed.

(** X7.  A sort string with directions yields a sort object that holds, under
    each field named by a pair, the direction of the last pair that names
    it: the number [parseInt] reads from the text behind the colon when that
    number is neither zero nor [NaN], and 1 otherwise, in particular when the
    pair has no colon.  No stored direction is zero or [NaN], and no other
    field is set. *)
Theorem sort_directions_stored (p : QueryParser.t) (s : string) :
  obj_get "sort" (QueryParser.query p) = Some (RStr s) ->
  includes ":" s = true ->
  exists p' o,
    QueryParser.sort p = Some p' /\
    QueryParser.sortOptions p' = SortObj o /\
    (forall field,
       last_pair field (sort_pairs s) = None \/ field = "__proto__" ->
       obj_get field o = None) /\
    (forall field pair,
       field <> "__proto__" -> last_pair field (sort_pairs s) = Some pair ->
       exists d,
         obj_get field o = Some d /\ truthy d = true /\
         (truthy (parseInt (pair_direction pair)) = true ->
          d = parseInt (pair_direction pair)) /\
         (truthy (parseInt (pair_direction pair)) = false -> d = int 1) /\
         (includes ":" pair = false -> d = int 1)).
Proof.
  intros Hget Hcolon. unfold QueryParser.sort. rewrite Hget.
  assert (Hne : string_is_empty s = false) by (destruct s; [discriminate | reflexivity]).
  rewrite Hne, join_split_commas, includes_colon_commas, Hcolon.
  eexists. eexists. split; [reflexivity|]. split; [reflexivity|].
  fold (sort_pairs s). split.
  - intros field [Hnone | ->].
    + destruct (string_dec field "__proto__") as [-> | Hf].
      * rewrite sort_pairs_proto. reflexivity.
      * rewrite (sort_pairs_get _ _ field Hf), Hnone. reflexivity.
    + rewrite sort_pairs_proto. reflexivity.
  - intros field pair Hf Hlast.
    rewrite (sort_pairs_get _ _ field Hf), Hlast.
    eexists. split; [reflexivity|].
    destruct (num_or_cases (parseInt (pair_direction pair)) (int 1))
      as [[Ht E] | [Ht E]]; rewrite E.
    + split; [exact Ht|]. split; [reflexivity|]. split; [congruence|].
      intros Hno. exfalso. unfold pair_direction in Ht.
      rewrite (split_no_separator ":" pair Hno) in Ht. discriminate Ht.
    + split; [reflexivity|]. split; [congruence|]. split; reflexivity.
Qed.

Lemma sort_directions_stored_witness :
  exists p' o,
    QueryParser.sort sample_sort_parser = Some p' /\
    QueryParser.sortOptions p' = SortObj o /\
    (forall field,
       last_pair field (sort_pairs "createdAt:-1,name:0,price,name:x") = None \/
       field = "__proto__" ->
       obj_get field o = None) /\
    (forall field pair,
       field <> "__proto__" ->
       last_pair field (sort_pairs "createdAt:-1,name:0,price,name:x") = Some pair ->
       exists d,
         obj_get field o = Some d /\ truthy d = true /\
         (truthy (parseInt (pair_direction pair)) = true ->
          d = parseInt (pair_direction pair)) /\
         (truthy (parseInt (pair_direction pair)) = false -> d = int 1) /\
         (includes ":" pair = false -> d = int 1)).
Proof.
  apply (sort_directions_stored sample_sort_parser "createdAt:-1,name:0,price,name:x").
  - reflexivity.
  - reflexivity.
Defined.

(** X8.  [sort()] and [select()] throw exactly when the [sort], respectively
    [fields], property is truthy and not a string, as for a parameter that is
    repeated in the query string; otherwise they return. *)
Theorem sort_select_throw_on_non_strings (p : QueryParser.t) :
  (QueryParser.sort p = None <->
   exists r, obj_get "sort" (QueryParser.query p) = Some r /\
             raw_truthy r = true /\ forall s, r <> RStr s) /\
  (QueryParser.select p = None <->
   exists r, obj_get "fields" (QueryParser.query p) = Some r /\
             raw_truthy r = true /\ forall s, r <> RStr s).
Proof.
  unfold QueryParser.sort, QueryParser.select. split.
  - destruct (obj_get "sort" (QueryParser.query p)) as [r|].
    + destruct r as [s|z|b|l|o].
      * split.
        -- destruct (string_is_empty s); [discriminate|].
           destruct (includes ":" (join " " (split "," s))); discriminate.
        -- intros [r [E [_ H]]]. injection E as <-. exfalso. apply (H s). reflexivity.
      * destruct (raw_truthy (RNum z)) eqn:Ht.
        -- split; [intros _; exists (RNum z); repeat split; auto; discriminate
                  | reflexivity].
        -- split; [discriminate|]. intros [r [E [H _]]]. injection E as <-. congruence.
      * destruct (raw_truthy (RBool b)) eqn:Ht.
        -- split; [intros _; exists (RBool b); repeat split; auto; discriminate
                  | reflexivity].
        -- split; [discriminate|]. intros [r [E [H _]]]. injection E as <-. congruence.
      * split; [intros _; exists (RArr l); repeat split; auto; discriminate
               | reflexivity].
      * split; [intros _; exists (RObj o); repeat split; auto; discriminate
               | reflexivity].
    + split; [discriminate | intros [r [E _]]; discriminate].
  - destruct (obj_get "fields" (QueryParser.query p)) as [r|].
    + destruct r as [s|z|b|l|o].
      * split.
        -- destruct (string_is_empty s); discriminate.
        -- intros [r [E [_ H]]]. injection E as <-. exfalso. apply (H s). reflexivity.
      * destruct (raw_truthy (RNum z)) eqn:Ht.
        -- split; [intros _; exists (RNum z); repeat split; auto; discriminate
                  | reflexivity].
        -- split; [discriminate|]. intros [r [E [H _]]]. injection E as <-. congruence.
      * destruct (raw_truthy (RBool b)) eqn:Ht.
        -- split; [intros _; exists (RBool b); repeat split; auto; discriminate
                  | reflexivity].
        -- split; [discriminate|]. intros [r [E [H _]]]. injection E as <-. congruence.
      * split; [intros _; exists (RArr l); repeat split; auto; discriminate
               | reflexivity].
      * split; [intros _; exists (RObj o); repeat split; auto; discriminate
               | reflexivity].
    + split; [discriminate | intros [r [E _]]; discriminate].
Qed.

(** ** Reading numbers back *)

Lemma to_double_safe (z : Z) : Z.abs z < 2 ^ 53 -> to_double z = int z.
Proof.
  intros H. unfold to_double.
  destruct (Z.ltb_spec (Z.abs z) (2 ^ 53)) as [_ | Hge]; [reflexivity | lia].
Qed.

(** A text that starts with a character below the lead bytes of the white
    space of several bytes, and no white space itself, has no leading white
    space. *)
Lemma trim_start_ascii (c : ascii) (r : string) :
  is_white_space c = false -> (nat_of_ascii c < 194)%nat ->
  trim_start (String c r) = String c r.
Proof.
  intros Hw Hlt. cbn [trim_start]. rewrite Hw.
  assert (E2 : forall c2, is_white_space2 c c2 = false).
  { intros c2. unfold is_white_space2.
    destruct (Nat.eqb_spec (nat_of_ascii c) 194); [lia | reflexivity]. }
  assert (E3 : forall c2 c3, is_white_space3 c c2 c3 = false).
  { intros c2 c3. unfold is_white_space3. cbv zeta.
    destruct (Nat.eqb_spec (nat_of_ascii c) 225); [lia|].
    destruct (Nat.eqb_spec (nat_of_ascii c) 226); [lia|].
    destruct (Nat.eqb_spec (nat_of_ascii c) 227); [lia|].
    destruct (Nat.eqb_spec (nat_of_ascii c) 239); [lia|].
    reflexivity. }
  destruct r as [|c2 [|c3 r3]]; rewrite ?E2, ?E3; reflexivity.
Qed.

Lemma uint_acc_of_lu (d : Decimal.uint) : forall acc : N,
  uint_acc d acc =
  (DecimalPos.Unsigned.of_lu (Decimal.rev d)
   + acc * 10 ^ DecimalPos.Unsigned.usize d)%N.
Proof.
  induction d; intros acc; cbn [uint_acc DecimalPos.Unsigned.usize];
    [cbn; rewrite N.mul_1_r; reflexivity | ..];
    rewrite N.pow_succ_r'; unfold Decimal.rev; cbn [Decimal.revapp];
    rewrite DecimalPos.Unsigned.of_lu_revapp, IHd;
    cbn [DecimalPos.Unsigned.of_lu]; unfold Decimal.rev; ring.
Qed.

Lemma parse_digits_uint (d : Decimal.uint) : forall acc : N,
  parse_digits 10 (Some (Z.of_N acc)) (NilEmpty.string_of_uint d) =
  Some (Z.of_N (uint_acc d acc)).
Proof.
  induction d; intros acc; cbn [NilEmpty.string_of_uint uint_acc parse_digits];
    [reflexivity | ..];
    match goal with
    | |- context [digit_value 10 ?c] =>
        let v := eval vm_compute in (digit_value 10 c) in
        change (digit_value 10 c) with v
    end;
    cbv beta iota; rewrite <- IHd; f_equal; f_equal; lia.
Qed.

Lemma parse_numeral (d : Decimal.uint) :
  d <> Decimal.Nil ->
  parseInt (NilEmpty.string_of_uint d) = to_double (Z.of_N (uint_acc d 0)) /\
  parseInt (String "-" (NilEmpty.string_of_uint d)) =
    to_double (- Z.of_N (uint_acc d 0)) /\
  parseInt10 (NilEmpty.string_of_uint d) = to_double (Z.of_N (uint_acc d 0)) /\
  parseInt10 (String "-" (NilEmpty.string_of_uint d)) =
    to_double (- Z.of_N (uint_acc d 0)).
Proof.
  intros Hne.
  assert (Hdigits : parse_digits 10 None (NilEmpty.string_of_uint d) =
                    Some (Z.of_N (uint_acc d 0))).
  { destruct d; [congruence | ..];
      cbn [NilEmpty.string_of_uint parse_digits uint_acc];
      match goal with
      | |- context [digit_value 10 ?c] =>
          let v := eval vm_compute in (digit_value 10 c) in
          change (digit_value 10 c) with v
      end;
      cbv beta iota;
      match goal with
      | |- parse_digits 10 (Some ?n) _ = _ =>
          rewrite <- (parse_digits_uint _ (Z.to_N n))
      end; reflexivity. }
  assert (Hall : forall d0 : Decimal.uint, d0 <> Decimal.Nil ->
            forall r, NilEmpty.string_of_uint d0 = r ->
            forall n, parse_digits 10 None r = Some n ->
            (match r with String "0" (String "x" _) => False
                        | String "0" (String "X" _) => False
                        | _ => True end) ->
            parseInt r = to_double n /\ parseInt (String "-" r) = to_double (- n) /\
            parseInt10 r = to_double n /\ parseInt10 (String "-" r) = to_double (- n)).
  { intros d0 Hd0 r Hr n Hn Hx.
    assert (Tm : trim_start (String "-" r) = String "-" r)
      by (apply trim_start_ascii; [reflexivity | vm_compute; lia]).
    assert (Tr : trim_start r = r).
    { destruct d0; [congruence | ..]; cbn [NilEmpty.string_of_uint] in Hr;
        subst r; apply trim_start_ascii; try reflexivity; vm_compute; lia. }
    unfold parseInt, parseInt10. rewrite Tm, Tr. clear Tm Tr.
    destruct d0; [congruence | ..]; cbn [NilEmpty.string_of_uint] in Hr;
      subst r; cbv beta iota zeta;
      try (rewrite Hn; repeat split; reflexivity).
    destruct (NilEmpty.string_of_uint d0) as [|c s] eqn:E;
      [cbv beta iota zeta; rewrite Hn; repeat split; reflexivity|].
    destruct d0; cbn [NilEmpty.string_of_uint] in E; try discriminate;
      injection E as <- <-; cbv beta iota zeta; rewrite Hn;
      repeat split; reflexivity. }
  apply (Hall d Hne _ eq_refl _ Hdigits).
  destruct d as [|d'|d'|d'|d'|d'|d'|d'|d'|d'|d']; try exact I.
  cbn [NilEmpty.string_of_uint]. destruct d'; exact I.
Qed.

Lemma uint_acc_pos (p : positive) : uint_acc (Pos.to_uint p) 0 = N.pos p.
Proof.
  rewrite uint_acc_of_lu, N.mul_0_l, N.add_0_r,
    <- DecimalPos.Unsigned.of_uint_alt.
  apply DecimalPos.Unsigned.of_to.
Qed.

(** Printing an integer and reading it back with [parseInt], with or without
    the radix argument, gives the number value of the integer. *)
Lemma parseInt_Z_to_string (z : Z) :
  parseInt (Z_to_string z) = to_double z /\ parseInt10 (Z_to_string z) = to_double z.
Proof.
  destruct z as [|p|p]; [split; reflexivity | ..];
    unfold Z_to_string; cbn [Z.to_int NilZero.string_of_int];
    pose proof (DecimalPos.Unsigned.to_uint_nonnil p) as Hne;
    destruct (parse_numeral (Pos.to_uint p) Hne) as (H1 & H2 & H3 & H4);
    rewrite uint_acc_pos in H1, H2, H3, H4;
    unfold NilZero.string_of_uint;
    destruct (Pos.to_uint p) eqn:E; try congruence; split; assumption.
Qed.

(** Within the safe integers the integer itself is read back. *)
Lemma parseInt_safe (z : Z) :
  Z.abs z <= MAX_SAFE_INTEGER ->
  parseInt (Z_to_string z) = int z /\ parseInt10 (Z_to_string z) = int z.
Proof.
  intros H. destruct (parseInt_Z_to_string z) as [E1 E2].
  rewrite E1, E2, to_double_safe by (unfold MAX_SAFE_INTEGER in H; lia).
  split; reflexivity.
Qed.


(** ** The window computed by [paginate] *)



(** X10.  A page and a limit given as numbers, or as the decimal strings of a
    query string, page >= 1 and 1 <= limit <= 100 (within the safe integers),
    are stored as they are, with the skip (page - 1) * limit. *)
Theorem paginate_reads_numbers (p : QueryParser.t) (pg l : Z) :
  1 <= pg -> 1 <= l <= 100 -> pg * l <= MAX_SAFE_INTEGER ->
  (obj_get "page" (QueryParser.query p) = Some (RNum pg) \/
   obj_get "page" (QueryParser.query p) = Some (RStr (Z_to_string pg))) ->
  (obj_get "limit" (QueryParser.query p) = Some (RNum l) \/
   obj_get "limit" (QueryParser.query p) = Some (RStr (Z_to_string l))) ->
  QueryParser.paginationOptions (QueryParser.paginate p) =
  {| po_page := Some (int pg);
     po_limit := Some (int l);
     po_skip := Some (int ((pg - 1) * l)) |}.
Proof.
  intros Hpg Hl Hsafe Hp Hlim. unfold QueryParser.paginate. cbv zeta.
  assert (Bp : Z.abs pg <= MAX_SAFE_INTEGER) by nia.
  assert (Bl : Z.abs l <= MAX_SAFE_INTEGER) by (unfold MAX_SAFE_INTEGER; lia).
  assert (Ep : parseInt (ToString_opt (obj_get "page" (QueryParser.query p))) = int pg).
  { destruct Hp as [-> | ->]; cbn [ToString_opt ToString];
      apply (parseInt_safe pg Bp). }
  assert (El : parseInt (ToString_opt (obj_get "limit" (QueryParser.query p))) = int l).
  { destruct Hlim as [-> | ->]; cbn [ToString_opt ToString];
      apply (parseInt_safe l Bl). }
  rewrite Ep, El. unfold num_or. rewrite !int_truthy by lia.
  rewrite Math_min_int, num_sub_int, num_mul_int, Z.min_l by lia.
  reflexivity.
Qed.

Lemma paginate_reads_numbers_witness :
  QueryParser.paginationOptions (QueryParser.paginate sample_window_parser) =
  {| po_page := Some (int 3);
     po_limit := Some (int 25);
     po_skip := Some (int ((3 - 1) * 25)) |}.
Proof.
  apply (paginate_reads_numbers sample_window_parser 3 25).
  - lia.
  - lia.
  - unfold MAX_SAFE_INTEGER. lia.
  - left. reflexivity.
  - right. reflexivity.
Defined.

(** ** Builders without and with a window *)

(** X11.  On a pipeline that holds no [$skip] and no [$limit] stage (no call of
    [paginate]), [UniversalQueryBuilder.exec(true)] still reports a window:
    page 1 and limit 20, no previous page, and a next page as soon as the
    total exceeds 20, while the rows are those of the unbounded pipeline. *)
Theorem exec_without_window
  {doc session : Type} (b : @UniversalQueryBuilder.t doc session) :
  no_window (UniversalQueryBuilder.pipeline b) ->
  exists p,
    pagination (UniversalQueryBuilder.exec true b) = Some p /\
    page p = Some (int 1) /\ limit p = Some (int 20) /\
    hasPrev p = false /\
    hasNext p =
      (20 <? countDocuments (UniversalQueryBuilder.model b)
               (count_filter (UniversalQueryBuilder.pipeline b))
               (UniversalQueryBuilder.session_ b)) /\
    data (UniversalQueryBuilder.exec true b) =
      aggregate (UniversalQueryBuilder.model b) (UniversalQueryBuilder.pipeline b)
        (UniversalQueryBuilder.session_ b).
Proof.
  intros Hw. unfold UniversalQueryBuilder.exec.
  rewrite (find_truthy_none stage_skip truthy _ (fun s Hs => proj1 (Hw s Hs))).
  rewrite (find_truthy_none stage_limit truthy _ (fun s Hs => proj2 (Hw s Hs))).
  eexists. split; [reflexivity|].
  cbn [page limit hasPrev hasNext data to_number].
  change (num_or (num_add (num_div NaN NaN) (int 1)) (int 1)) with (int 1).
  change (num_or NaN (int 20)) with (int 20).
  rewrite num_mul_int, num_lt_int. repeat split.
Qed.

Lemma exec_without_window_witness :
  exists p,
    pagination (UniversalQueryBuilder.exec true sample_query_builder) = Some p /\
    page p = Some (int 1) /\ limit p = Some (int 20) /\
    hasPrev p = false /\
    hasNext p = (20 <? 7) /\
    data (UniversalQueryBuilder.exec true sample_query_builder) = [].
Proof.
  apply (exec_without_window sample_query_builder).
  intros s [<- | [<- | []]]; split; reflexivity.
Defined.




Lemma lookup_stages_length (lookups : list UniversalPipelineBuilder.lookup_spec) :
  List.length (flat_map UniversalPipelineBuilder.lookup_stages lookups) =
  (List.length lookups
   + List.length (List.filter UniversalPipelineBuilder.unwind lookups))%nat.
Proof.
  induction lookups as [|l ls IH]; [reflexivity|].
  cbn [flat_map List.filter]. rewrite length_app, IH.
  unfold UniversalPipelineBuilder.lookup_stages.
  destruct (UniversalPipelineBuilder.unwind l); cbn [List.length]; lia.
Qed.

Lemma lookup_stages_places (lookups : list UniversalPipelineBuilder.lookup_spec) :
  forall i l, nth_error lookups i = Some l ->
    nth_error (flat_map UniversalPipelineBuilder.lookup_stages lookups)
      (stage_offset lookups i) = Some (Lookup (lookup_config l)) /\
    (UniversalPipelineBuilder.unwind l = true ->
     nth_error (flat_map UniversalPipelineBuilder.lookup_stages lookups)
       (S (stage_offset lookups i)) =
     Some (Unwind (outer_unwind (UniversalPipelineBuilder.as_ l)))).
Proof.
  induction lookups as [|l0 ls IH]; intros i l Hi; [destruct i; discriminate|].
  destruct i as [|i].
  - cbn [nth_error] in Hi. injection Hi as <-.
    unfold stage_offset. cbn [firstn List.filter List.length Nat.add flat_map].
    unfold UniversalPipelineBuilder.lookup_stages at 1 3.
    split; [reflexivity|]. intros Hu. rewrite Hu. reflexivity.
  - cbn [nth_error] in Hi. destruct (IH i l Hi) as [H1 H2].
    unfold stage_offset in *. cbn [firstn List.filter flat_map].
    unfold UniversalPipelineBuilder.lookup_stages at 1 3.
    destruct (UniversalPipelineBuilder.unwind l0); cbn [List.length app].
    + rewrite Nat.add_succ_r. cbn [Nat.add nth_error]. split; assumption.
    + cbn [Nat.add nth_error]. split; assumption.
Qed.

(** X14.  [addLookups] appends to the pipeline, entry by entry in the order
    given, the [$lookup] of the entry (its [from], [localField],
    [foreignField] and [as]) and, directly behind it and only when the entry
    asks for an unwind, an [$unwind] on the path [$] + [as] of that same
    entry which keeps the documents without a partner; nothing else is
    added.  The page, the limit and the filter under which the total is
    counted are left as they were. *)
Theorem addLookups_outer_joins
  {doc session : Type} (b : @UniversalPipelineBuilder.t doc session)
  (lookups : list UniversalPipelineBuilder.lookup_spec) :
  exists added,
    UniversalPipelineBuilder.pipeline (UniversalPipelineBuilder.addLookups lookups b) =
      UniversalPipelineBuilder.pipeline b ++ added /\
    List.length added =
      (List.length lookups
       + List.length (List.filter UniversalPipelineBuilder.unwind lookups))%nat /\
    (forall i l, nth_error lookups i = Some l ->
       nth_error added (stage_offset lookups i) = Some (Lookup (lookup_config l)) /\
       (UniversalPipelineBuilder.unwind l = true ->
        nth_error added (S (stage_offset lookups i)) =
        Some (Unwind (outer_unwind (UniversalPipelineBuilder.as_ l))))) /\
    count_filter (UniversalPipelineBuilder.pipeline
                    (UniversalPipelineBuilder.addLookups lookups b)) =
      count_filter (UniversalPipelineBuilder.pipeline b) /\
    UniversalPipelineBuilder.page_ (UniversalPipelineBuilder.addLookups lookups b) =
      UniversalPipelineBuilder.page_ b /\
    UniversalPipelineBuilder.limit_ (UniversalPipelineBuilder.addLookups lookups b) =
      UniversalPipelineBuilder.limit_ b.
Proof.
  exists (flat_map UniversalPipelineBuilder.lookup_stages lookups).
  split; [reflexivity|]. split; [apply lookup_stages_length|].
  split; [apply lookup_stages_places|]. split; [|split; reflexivity].
  cbn [UniversalPipelineBuilder.addLookups UniversalPipelineBuilder.push
       UniversalPipelineBuilder.pipeline].
  apply count_filter_app_no_match.
  intros s Hs. apply in_flat_map in Hs. destruct Hs as [l [_ Hs]].
  unfold UniversalPipelineBuilder.lookup_stages in Hs.
  destruct Hs as [<- | Hs]; [reflexivity|].
  destruct (UniversalPipelineBuilder.unwind l); [|destruct Hs].
  destruct Hs as [<- | []]. reflexivity.
Qed.

(** ** SearchBuilder *)

Lemma text_step (t : string) (fs : list string) (b : SearchBuilder.t) (l : list value) :
  t <> "" -> fs <> [] -> alternatives b l ->
  SearchBuilder.text t fs b =
  Some (SearchBuilder.set "$or" (VArr (l ++ map (SearchBuilder.searchCondition t) fs)) b).
Proof.
  intros Ht Hfs Hl. unfold SearchBuilder.text.
  rewrite (string_not_empty t Ht).
  destruct fs as [|f fs]; [congruence|].
  unfold alternatives in Hl.
  destruct (obj_get "$or" (SearchBuilder.searchQuery b)) as [v|].
  - subst v. reflexivity.
  - subst l. reflexivity.
Qed.

(** X15.  A chain of [text] calls, each with a search term and fields, returns
    and collects the conditions of all the calls, in call order, behind the
    alternatives the builder already held: the calls are joined by one
    disjunction, a later search term does not narrow an earlier one.  The
    other properties of the query are left as they were. *)
Theorem text_accumulates_alternatives
  (calls : list (string * list string)) (b : SearchBuilder.t) (l : list value) :
  alternatives b l -> calls <> [] ->
  Forall (fun c => fst c <> "" /\ snd c <> []) calls ->
  exists b',
    text_all calls b = Some b' /\
    obj_get "$or" (SearchBuilder.build b') =
      Some (VArr (l ++ flat_map text_conditions calls)) /\
    forall k, k <> "$or" ->
      obj_get k (SearchBuilder.build b') = obj_get k (SearchBuilder.build b).
Proof.
  intros Hl Hne Hall. unfold text_all.
  assert (G : forall cs b0 l0,
             alternatives b0 l0 ->
             Forall (fun c : string * list string => fst c <> "" /\ snd c <> []) cs ->
             exists b',
               fold_left
                 (fun ob c =>
                    match ob with
                    | Some b' => SearchBuilder.text (fst c) (snd c) b'
                    | None => None
                    end) cs (Some b0) = Some b' /\
               alternatives b' (l0 ++ flat_map text_conditions cs) /\
               forall k, k <> "$or" ->
                 obj_get k (SearchBuilder.build b') = obj_get k (SearchBuilder.build b0)).
  { induction cs as [|c cs IH]; intros b0 l0 H0 Hcs.
    - exists b0. cbn [fold_left flat_map]. rewrite app_nil_r. auto.
    - inversion Hcs as [|? ? [Ht Hfs] Hrest]; subst.
      cbn [fold_left flat_map]. rewrite (text_step _ _ b0 l0 Ht Hfs H0).
      destruct (IH (SearchBuilder.set "$or"
                      (VArr (l0 ++ map (SearchBuilder.searchCondition (fst c)) (snd c)))
                      b0)
                   (l0 ++ text_conditions c)) as [b' [E [Ha Hk]]].
      + unfold alternatives, SearchBuilder.set. cbn [SearchBuilder.searchQuery].
        rewrite obj_get_set_same. reflexivity.
      + exact Hrest.
      + exists b'. split; [exact E|]. split.
        * rewrite app_assoc. exact Ha.
        * intros k Hk'. rewrite (Hk k Hk').
          unfold SearchBuilder.build, SearchBuilder.set.
          cbn [SearchBuilder.searchQuery].
          apply obj_get_set_other. congruence. }
  destruct (G calls b l Hl Hall) as [b' [E [Ha Hk]]].
  exists b'. split; [exact E|]. split; [|exact Hk].
  unfold alternatives in Ha. unfold SearchBuilder.build.
  destruct (obj_get "$or" (SearchBuilder.searchQuery b')) as [v|] eqn:Ev.
  - subst v. reflexivity.
  - exfalso. destruct calls as [|c cs]; [congruence|].
    inversion Hall as [|? ? [Ht Hfs] Hrest]; subst.
    cbn [flat_map] in Ha. unfold text_conditions in Ha at 1.
    destruct (snd c); [congruence|].
    destruct l; discriminate.
Qed.

Lemma text_accumulates_alternatives_witness :
  exists b',
    text_all [("ann", ["name"; "email"]); ("berlin", ["city"])] SearchBuilder.new
      = Some b' /\
    obj_get "$or" (SearchBuilder.build b') =
      Some (VArr ([] ++ flat_map text_conditions
                          [("ann", ["name"; "email"]); ("berlin", ["city"])])) /\
    forall k, k <> "$or" ->
      obj_get k (SearchBuilder.build b') = obj_get k (SearchBuilder.build SearchBuilder.new).
Proof.
  apply (text_accumulates_alternatives
           [("ann", ["name"; "email"]); ("berlin", ["city"])] SearchBuilder.new []).
  - reflexivity.
  - discriminate.
  - repeat constructor; discriminate.
Defined.




(** ** QueryConfig.build *)

Lemma item_filters_names (rt : QueryConfig.Runtime) (allowed : list string)
  (it : QueryConfig.item) (fs : list value) :
  QueryConfig.item_filters rt allowed it = Some fs ->
  Forall (item_filter_of allowed [it]) fs.
Proof.
  unfold QueryConfig.item_filters.
  destruct (string_is_empty (QueryConfig.name it)) eqn:En;
    [intros H; injection H as <-; constructor|].
  destruct (QueryConfig.value_ it) as [v|] eqn:Ev;
    [|intros H; injection H as <-; constructor].
  destruct (match v with VStr s => string_is_empty s | _ => false end);
    [intros H; injection H as <-; constructor|].
  destruct (match allowed with [] => false | _ => true end
            && negb (existsb (String.eqb (QueryConfig.name it)) allowed))%bool eqn:Ea;
    [intros H; injection H as <-; constructor|].
  destruct (QueryConfig.clause rt it v) as [cs|]; [|discriminate].
  intros H. injection H as <-.
  apply Forall_forall. intros f Hf. apply in_map_iff in Hf.
  destruct Hf as [c [<- _]].
  exists it, c. split; [left; reflexivity|]. split; [reflexivity|].
  split; [intros E; rewrite E in En; discriminate|].
  split; [rewrite Ev; discriminate|].
  destruct allowed as [|a al]; [left; reflexivity | right].
  cbn [andb] in Ea. apply negb_false_iff in Ea.
  apply existsb_exists in Ea. destruct Ea as [x [Hx Ex]].
  apply String.eqb_eq in Ex. rewrite Ex. exact Hx.
Qed.

Lemma data_filters_names (rt : QueryConfig.Runtime) (allowed : list string)
  (data : list QueryConfig.item) : forall fs,
  QueryConfig.data_filters rt allowed data = Some fs ->
  Forall (item_filter_of allowed data) fs.
Proof.
  induction data as [|it rest IH]; intros fs; cbn [QueryConfig.data_filters].
  - intros H. injection H as <-. constructor.
  - destruct (QueryConfig.item_filters rt allowed it) as [fs1|] eqn:E1; [|discriminate].
    destruct (QueryConfig.data_filters rt allowed rest) as [fs2|]; [|discriminate].
    intros H. injection H as <-. apply Forall_app. split.
    + apply item_filters_names in E1. revert E1. apply Forall_impl.
      intros f [it' [c [Hin H]]]. exists it', c.
      split; [|exact H]. destruct Hin as [<- | []]. left. reflexivity.
    + specialize (IH fs2 eq_refl). revert IH. apply Forall_impl.
      intros f [it' [c [Hin H]]]. exists it', c.
      split; [right; exact Hin | exact H].
Qed.

(** X17.  Whatever [QueryConfig.build] returns holds no stage or one [$match]
    stage, a conjunction that is never empty.  Its members are, first, when
    there is a search term and [regexFields] is not empty, one disjunction
    of a case-insensitive regular expression of the term on each of the
    [regexFields], in their order; then filters each of which is on the
    name of an item of [query_data] that has a name and a value and, when a
    whitelist is given, is on the whitelist.  No other field is filtered
    on. *)
Theorem build_filters_respect_whitelist
  (rt : QueryConfig.Runtime) (TIME_ZONE_NAME : raw)
  (q : option string) (query_data : list QueryConfig.item) (pg lim : option raw)
  (sortBy sortOrder : option raw) (regexFields allowedFields : list string)
  (tz : option raw) (cfg : QueryConfig.stage_config) :
  QueryConfig.build rt TIME_ZONE_NAME q query_data pg lim sortBy sortOrder
    regexFields allowedFields tz = Some cfg ->
  exists search items,
    ((search ++ items = [] /\ QueryConfig.filters cfg = []) \/
     (search ++ items <> [] /\
      QueryConfig.filters cfg = [Match [("$and", VArr (search ++ items))]])) /\
    (((search_term q = "" \/ regexFields = []) /\ search = []) \/
     (search_term q <> "" /\ regexFields <> [] /\
      search = [VObj [("$or", VArr (map (regex_on (search_term q)) regexFields))]])) /\
    Forall (item_filter_of allowedFields query_data) items.
Proof.
  unfold QueryConfig.build. fold (search_term q).
  destruct (QueryConfig.data_filters rt allowedFields query_data) as [fs'|] eqn:Ed;
    [|discriminate].
  intros H. injection H as <-. cbn [QueryConfig.filters].
  apply data_filters_names in Ed.
  exists (QueryConfig.search_filters (search_term q) regexFields), fs'.
  split; [|split; [|exact Ed]].
  - destruct (QueryConfig.search_filters (search_term q) regexFields ++ fs')
      as [|f fs]; [left; split; reflexivity | right; split; [discriminate | reflexivity]].
  - unfold QueryConfig.search_filters.
    destruct (search_term q) as [|c r] eqn:Eq.
    + left. split; [left; reflexivity | reflexivity].
    + cbn [string_is_empty]. destruct regexFields as [|f fs].
      * left. split; [right; reflexivity | reflexivity].
      * right. split; [discriminate|]. split; [discriminate | reflexivity].
Qed.

Lemma build_filters_respect_whitelist_witness :
  exists cfg,
    QueryConfig.build sample_runtime (RStr "UTC") (Some "ann") sample_query_data
      None None None None ["name"] ["age"; "role"] None = Some cfg /\
    exists search items,
      ((search ++ items = [] /\ QueryConfig.filters cfg = []) \/
       (search ++ items <> [] /\
        QueryConfig.filters cfg = [Match [("$and", VArr (search ++ items))]])) /\
      (((search_term (Some "ann") = "" \/ ["name"] = []) /\ search = []) \/
       (search_term (Some "ann") <> "" /\ ["name"] <> [] /\
        search = [VObj [("$or", VArr (map (regex_on (search_term (Some "ann")))
                                          ["name"]))]])) /\
      Forall (item_filter_of ["age"; "role"] sample_query_data) items.
Proof.
  eexists. split; [reflexivity|].
  apply (build_filters_respect_whitelist sample_runtime (RStr "UTC")
           (Some "ann") sample_query_data None None None None
           ["name"] ["age"; "role"] None).
  reflexivity.
Defined.






(** ** UserService: the aggregation variant *)






(** ** The services that run a QueryParser *)



Lemma obj_get_entries_of_raw (o : list (string * raw)) (k : string) :
  obj_get k (entries_of_raw o) = option_map value_of_raw (obj_get k o).
Proof.
  induction o as [|[k' v] o IH]; [reflexivity|].
  cbn [entries_of_raw map obj_get fst snd].
  destruct (String.eqb k k'); [reflexivity | exact IH].
Qed.

Lemma sort_frame (p p' : QueryParser.t) :
  QueryParser.sort p = Some p' ->
  QueryParser.query p' = QueryParser.query p /\
  QueryParser.mongoQuery p' = QueryParser.mongoQuery p.
Proof.
  unfold QueryParser.sort.
  destruct (obj_get "sort" (QueryParser.query p)) as [[s|z|b|l|o]|];
    repeat match goal with
           | |- context [if ?c then _ else _] => destruct c
           end;
    intros H; try discriminate; injection H as <-; split; reflexivity.
Qed.

Lemma select_frame (p p' : QueryParser.t) :
  QueryParser.select p = Some p' ->
  QueryParser.query p' = QueryParser.query p /\
  QueryParser.mongoQuery p' = QueryParser.mongoQuery p.
Proof.
  unfold QueryParser.select.
  destruct (obj_get "fields" (QueryParser.query p)) as [[s|z|b|l|o]|];
    repeat match goal with
           | |- context [if ?c then _ else _] => destruct c
           end;
    intros H; try discriminate; injection H as <-; split; reflexivity.
Qed.

Lemma sort_returns (p : QueryParser.t) :
  (forall r, obj_get "sort" (QueryParser.query p) = Some r -> exists s, r = RStr s) ->
  exists p', QueryParser.sort p = Some p'.
Proof.
  intros H. unfold QueryParser.sort.
  destruct (obj_get "sort" (QueryParser.query p)) as [r|]; [|eexists; reflexivity].
  destruct (H r eq_refl) as [s ->].
  repeat match goal with
         | |- context [if ?c then _ else _] => destruct c
         end; eexists; reflexivity.
Qed.

Lemma select_returns (p : QueryParser.t) :
  (forall r, obj_get "fields" (QueryParser.query p) = Some r -> exists s, r = RStr s) ->
  exists p', QueryParser.select p = Some p'.
Proof.
  intros H. unfold QueryParser.select.
  destruct (obj_get "fields" (QueryParser.query p)) as [r|]; [|eexists; reflexivity].
  destruct (H r eq_refl) as [s ->].
  destruct (string_is_empty s); eexists; reflexivity.
Qed.








(** ** Queries that pass through, end to end *)

(** X23.  On a query that passes unchanged, carries no search term and gives
    every field that is not excluded an ordinary value, the filter is the
    query itself without the excluded fields, field by field in the order
    of the query: an equality filter is neither altered nor reordered. *)
Theorem ordinary_fields_pass_verbatim (isValid : string -> bool) (p : QueryParser.t) :
  plain (RObj (QueryParser.filteredQuery p)) = true ->
  replace_operators (JSON_stringify (RObj (QueryParser.filteredQuery p))) =
  JSON_stringify (RObj (QueryParser.filteredQuery p)) ->
  has_search p = false ->
  (forall k r, obj_get k (QueryParser.filteredQuery p) = Some r -> ordinary isValid k r) ->
  exists p',
    QueryParser.filter isValid p = Some p' /\
    QueryParser.mongoQuery p' = entries_of_raw (QueryParser.filteredQuery p).
Proof.
  intros Hplain Hsame Hsearch Hord.
  destruct (filter_returns_on_plain_query isValid p Hplain Hsame) as [_ Hfilter].
  eexists. split; [exact Hfilter|].
  unfold QueryParser.handleSpecialQueries.
  cbn [QueryParser.mongoQuery QueryParser.with_mongoQuery QueryParser.query].
  set (m := entries_of_raw (QueryParser.filteredQuery p)).
  assert (Hval : forall k v, obj_get k m = Some v ->
                 special_value isValid k v = v /\ date_value v = v).
  { intros k v Hget. subst m. rewrite obj_get_entries_of_raw in Hget.
    destruct (obj_get k (QueryParser.filteredQuery p)) as [r|] eqn:Er; [|discriminate].
    cbn [option_map] in Hget. injection Hget as <-.
    destruct (Hord k r Er) as [[b ->] | [s [-> [Ht [Hf [Hc Hi]]]]]].
    - split; reflexivity.
    - cbn [value_of_raw special_value]. rewrite Ht, Hf, Hi, Hc. split; reflexivity. }
  rewrite (loop_unchanged _ (special_value isValid) _ m (special_key_eq isValid))
    by (intros k v H; apply (Hval k v H)).
  unfold has_search in Hsearch.
  assert (Em : match obj_get "search" (QueryParser.query p) with
               | Some search =>
                   if raw_truthy search
                   then obj_set "$text" (VObj [("$search", value_of_raw search)]) m
                   else m
               | None => m
               end = m).
  { destruct (obj_get "search" (QueryParser.query p)) as [r|]; [|reflexivity].
    rewrite Hsearch. reflexivity. }
  rewrite Em. unfold QueryParser.handleDateRanges.
  apply (loop_unchanged _ (fun _ => date_value) _ m date_range_key_eq).
  intros k v H. apply (Hval k v H).
Qed.

Lemma ordinary_fields_pass_verbatim_witness :
  exists p',
    QueryParser.filter is_objectId_format
      (QueryParser.createQueryParser sample_listing_query None) = Some p' /\
    QueryParser.mongoQuery p' = [("status", VStr "active")].
Proof.
  apply (ordinary_fields_pass_verbatim is_objectId_format
           (QueryParser.createQueryParser sample_listing_query None)).
  - reflexivity.
  - reflexivity.
  - reflexivity.
  - intros k r H. cbn in H.
    destruct (String.eqb k "status") eqn:E; [|discriminate].
    injection H as <-. apply String.eqb_eq in E. subst k.
    right. exists "active". repeat split; reflexivity.
Defined.

Lemma run_chain {doc session : Type} (isValid : string -> bool)
  (M : Model doc session) (q : obj raw) :
  passes_unchanged q -> strings_or_absent q ->
  exists p1 p3,
    QueryParser.filter isValid (QueryParser.createQueryParser q None) = Some p1 /\
    QueryParser.query p3 = q /\
    QueryParser.mongoQuery p3 = QueryParser.mongoQuery p1 /\
    Services.run isValid M q = Some (QueryParser.execute M (QueryParser.paginate p3)).
Proof.
  intros [Hplain Hsame] Hstr.
  destruct (filter_returns_on_plain_query isValid _ Hplain Hsame) as [Hparse Hfilter].
  set (p := QueryParser.createQueryParser q None) in *.
  set (p1 := QueryParser.handleSpecialQueries isValid
               (QueryParser.with_mongoQuery
                  (entries_of_raw (QueryParser.filteredQuery p)) p)) in *.
  assert (Q1 : QueryParser.query p1 = q) by reflexivity.
  destruct (sort_returns p1) as [p2 E2].
  { rewrite Q1. intros r Hr. apply (Hstr "sort" r); auto. }
  destruct (sort_frame p1 p2 E2) as [Q2 F2].
  destruct (select_returns p2) as [p3 E3].
  { rewrite Q2, Q1. intros r Hr. apply (Hstr "fields" r); auto. }
  destruct (select_frame p2 p3 E3) as [Q3 F3].
  exists p1, p3. split; [exact Hfilter|].
  split; [congruence|]. split; [congruence|].
  unfold Services.run. fold p. rewrite Hfilter, E2, E3. reflexivity.
Qed.

(** X24.  [getUsers] and [getProducts] of the listing services, on a query
    that passes unchanged with a page >= 1 and a limit between 1 and 100
    (numbers or decimal strings, within the safe integers): the rows are
    fetched under the filter with skip (page - 1) * limit and that limit, the
    total is counted under the same filter, and the result reports the page
    and the limit asked for, with a previous page exactly when page > 1. *)
Theorem listing_reports_the_window
  {doc session : Type} (isValid : string -> bool) (M : Model doc session)
  (q : obj raw) (page_z limit_z : Z) :
  passes_unchanged q -> strings_or_absent q ->
  1 <= page_z -> 1 <= limit_z <= 100 -> page_z * limit_z <= MAX_SAFE_INTEGER ->
  (obj_get "page" q = Some (RNum page_z) \/
   obj_get "page" q = Some (RStr (Z_to_string page_z))) ->
  (obj_get "limit" q = Some (RNum limit_z) \/
   obj_get "limit" q = Some (RStr (Z_to_string limit_z))) ->
  exists res flt so sel pgn,
    Services.getUsers isValid M q = Some res /\
    Services.getProducts isValid M q = Some res /\
    data res = find M flt so sel (Some (int ((page_z - 1) * limit_z)))
                 (Some (int limit_z)) /\
    pagination res = Some pgn /\
    page pgn = Some (int page_z) /\ limit pgn = Some (int limit_z) /\
    total pgn = int (countDocuments M flt None) /\
    hasPrev pgn = (1 <? page_z).
Proof.
  intros Hq Hs Hp Hl Hsafe Epg Elim.
  destruct (run_chain isValid M q Hq Hs) as [p1 [p3 [Hf [Q3 [F3 Hrun]]]]].
  assert (Bp : Z.abs page_z <= MAX_SAFE_INTEGER) by nia.
  assert (Bl : Z.abs limit_z <= MAX_SAFE_INTEGER) by (unfold MAX_SAFE_INTEGER; lia).
  assert (Ep : parseInt (ToString_opt (obj_get "page" (QueryParser.query p3))) = int page_z).
  { rewrite Q3. destruct Epg as [-> | ->]; cbn [ToString_opt ToString];
      apply (parseInt_safe page_z Bp). }
  assert (El : parseInt (ToString_opt (obj_get "limit" (QueryParser.query p3))) = int limit_z).
  { rewrite Q3. destruct Elim as [-> | ->]; cbn [ToString_opt ToString];
      apply (parseInt_safe limit_z Bl). }
  eexists. exists (QueryParser.mongoQuery p1). eexists. eexists. eexists.
  split; [exact Hrun|]. split; [exact Hrun|].
  unfold QueryParser.execute, QueryParser.paginate.
  cbn [data pagination page limit total hasPrev QueryParser.paginationOptions
       QueryParser.with_paginationOptions QueryParser.mongoQuery
       QueryParser.sortOptions QueryParser.selectFields
       po_page po_limit po_skip to_number].
  rewrite Ep, El, F3. unfold num_or. rewrite !int_truthy by lia.
  rewrite Math_min_int, num_sub_int, num_mul_int, Z.min_l by lia.
  split; [reflexivity|]. split; [reflexivity|].
  split; [reflexivity|]. split; [reflexivity|]. split; [reflexivity|].
  unfold num_gt. rewrite num_lt_int. reflexivity.
Qed.

Lemma listing_reports_the_window_witness :
  exists res flt so sel pgn,
    Services.getUsers is_objectId_format (sample_model 60) sample_listing_query
      = Some res /\
    Services.getProducts is_objectId_format (sample_model 60) sample_listing_query
      = Some res /\
    data res = find (sample_model 60) flt so sel (Some (int ((2 - 1) * 25)))
                 (Some (int 25)) /\
    pagination res = Some pgn /\
    page pgn = Some (int 2) /\ limit pgn = Some (int 25) /\
    total pgn = int (countDocuments (sample_model 60) flt None) /\
    hasPrev pgn = (1 <? 2).
Proof.
  apply (listing_reports_the_window is_objectId_format (sample_model 60)
           sample_listing_query 2 25).
  - split; reflexivity.
  - intros k r [-> | ->] H; cbn in H; [|discriminate].
    injection H as <-. eexists. reflexivity.
  - lia.
  - lia.
  - unfold MAX_SAFE_INTEGER. lia.
  - right. reflexivity.
  - right. reflexivity.
Defined.

(** ** Range bounds of four digits *)

Lemma four_digits_valid_date (s : string) :
  String.length s = 4%nat -> all_chars is_digit s = true ->
  QueryParser.isValidDate s = true.
Proof.
  intros Hlen Hdig.
  destruct s as [|a [|b [|c [|d [|e r]]]]]; try discriminate.
  cbn [all_chars] in Hdig.
  repeat (apply andb_true_iff in Hdig; destruct Hdig as [? Hdig]).
  unfold QueryParser.isValidDate, is_date_time_string.
  repeat match goal with H : is_digit _ = true |- _ => rewrite H; clear H end.
  reflexivity.
Qed.

(** X25.  Under a field whose operator mapping holds no [$regex], a bound of a
    range operator that is a string of four digits is always replaced by a
    Date, the string being read as a year: numeric bounds from 0000 to 9999
    never reach the filter as they were given. *)
Theorem four_digit_bounds_become_dates
  (isValid : string -> bool) (p : QueryParser.t) (m o : obj value)
  (key operator s : string) :
  JSON_parse (QueryParser.queryStr p) = Some (VObj m) ->
  obj_get key m = Some (VObj o) ->
  obj_get "$regex" o = None ->
  key <> "$text" ->
  is_range_operator operator = true ->
  obj_get operator o = Some (VStr s) ->
  String.length s = 4%nat -> all_chars is_digit s = true ->
  exists p' o',
    QueryParser.filter isValid p = Some p' /\
    obj_get key (QueryParser.mongoQuery p') = Some (VObj o') /\
    obj_get operator o' = Some (VDate s).
Proof.
  intros Hparse Hget Hre Hkey Hop Hbound Hlen Hdig.
  destruct (range_bound_coercion isValid p m o key operator s
              Hparse Hget Hre Hkey Hop Hbound) as [p' [o' [Hf [Hk Hv]]]].
  exists p', o'. split; [exact Hf|]. split; [exact Hk|].
  rewrite Hv, (four_digits_valid_date s Hlen Hdig). reflexivity.
Qed.

Lemma four_digit_bounds_become_dates_witness :
  exists p' o',
    QueryParser.filter is_objectId_format sample_range_parser = Some p' /\
    obj_get "price" (QueryParser.mongoQuery p') = Some (VObj o') /\
    obj_get "$gte" o' = Some (VDate "1500").
Proof.
  apply (four_digit_bounds_become_dates is_objectId_format sample_range_parser
           [("price", VObj [("$gte", VStr "1500"); ("$lte", VStr "soon")])]
           [("$gte", VStr "1500"); ("$lte", VStr "soon")]
           "price" "$gte" "1500");
    try reflexivity.
  discriminate.
Defined.
